(** * MindWell conversation engine: a shallow embedding and its properties

    The development follows the four Python sources of the chat front-end:

    - [total-final.py] (class [IntegratedChatApp]): emotion classifier,
      streaming client, keyword extraction, conversation analysis and the
      submit path of the chat page;
    - [final.py]: the earlier variant of the same class;
    - [app.py]: the blocking client [send_message] with its retry logic;
    - [history.py] (class [ChatHistoryManager]): the SQLite store.

    Python [float] is IEEE-754 binary64 and is modelled by Rocq's primitive
    floats; Python [str] is modelled by [string] (the ASCII range); the two
    SQLite tables are lists of rows in row-id order.  What the code receives
    from outside (the backend's answers, the clock, the stop flag, TextBlob's
    polarity) is an argument of the function that reads it; a function that
    can raise returns a [Py.result]. *)

From Stdlib Require Import List Bool Arith ZArith Lia String Ascii.
From Stdlib Require Import Floats.
From Stdlib Require Import Sorting.Sorted Sorting.Permutation.
From Equations Require Import Equations.
Import ListNotations.

Local Open Scope string_scope.
Local Open Scope list_scope.
Local Open Scope nat_scope.

(** ** Order facts on binary64 values

    The comparisons [<=?] and [<?] of primitive floats are specified through
    [SFleb] and [SFltb] on [spec_float].  The facts below are the part of the
    IEEE order the classifier relies on: comparisons with a NaN are false, and
    on the remaining values the order is total and transitive. *)

Module FloatOrder.

Definition is_nan_sf (x : spec_float) : bool :=
  match x with S754_nan => true | _ => false end.

Lemma SFcompare_none_iff x y :
  SFcompare x y = None <-> is_nan_sf x = true \/ is_nan_sf y = true.
Proof.
  destruct x as [sx|sx| |sx mx ex], y as [sy|sy| |sy my ey]; simpl;
    intuition (try discriminate).
Qed.

Lemma pos_cont_eq m1 m2 :
  PosDef.Pos.compare_cont Eq m1 m2 = (m1 ?= m2)%positive.
Proof. reflexivity. Qed.

Ltac cmp_cases :=
  repeat match goal with
  | |- context [(?a ?= ?b)%Z] =>
      destruct (Z.compare_spec a b); subst
  | H : context [(?a ?= ?b)%Z] |- _ =>
      destruct (Z.compare_spec a b); subst
  | |- context [(?a ?= ?b)%positive] =>
      destruct (Pos.compare_spec a b); subst
  | H : context [(?a ?= ?b)%positive] |- _ =>
      destruct (Pos.compare_spec a b); subst
  end.

Lemma SFcompare_antisym x y :
  SFcompare y x = option_map CompOpp (SFcompare x y).
Proof.
  destruct x as [sx|sx| |sx mx ex], y as [sy|sy| |sy my ey]; simpl;
    try reflexivity;
    try (destruct sx; reflexivity); try (destruct sy; reflexivity);
    try (destruct sx, sy; reflexivity).
  rewrite !pos_cont_eq.
  rewrite (Z.compare_antisym ex ey), (Pos.compare_antisym mx my).
  destruct sx, sy; simpl; try reflexivity;
    destruct (ex ?= ey)%Z; simpl; try reflexivity;
    destruct (mx ?= my)%positive; reflexivity.
Qed.

Lemma SFleb_false_ltb x y :
  is_nan_sf x = false -> is_nan_sf y = false ->
  SFleb x y = false -> SFltb y x = true.
Proof.
  intros Hx Hy. unfold SFleb, SFltb. rewrite (SFcompare_antisym x y).
  destruct (SFcompare x y) as [[| |]|] eqn:E; simpl; try discriminate; auto.
  apply SFcompare_none_iff in E. destruct E; congruence.
Qed.

Lemma SFltb_leb x y : SFltb x y = true -> SFleb x y = true.
Proof.
  unfold SFleb, SFltb. destruct (SFcompare x y) as [[| |]|]; auto.
Qed.

Lemma SFltb_not_leb x y : SFltb x y = true -> SFleb y x = false.
Proof.
  unfold SFleb, SFltb. rewrite (SFcompare_antisym x y).
  destruct (SFcompare x y) as [[| |]|]; simpl; auto; discriminate.
Qed.

Lemma SFleb_not_nan x y :
  SFleb x y = true -> is_nan_sf x = false /\ is_nan_sf y = false.
Proof.
  unfold SFleb. destruct x, y; simpl; try discriminate; auto.
Qed.

Lemma SFltb_not_nan x y :
  SFltb x y = true -> is_nan_sf x = false /\ is_nan_sf y = false.
Proof.
  unfold SFltb. destruct x, y; simpl; try discriminate; auto.
Qed.

Lemma SFleb_trans x y z :
  SFleb x y = true -> SFleb y z = true -> SFleb x z = true.
Proof.
  unfold SFleb.
  destruct x as [sx|sx| |sx mx ex], y as [sy|sy| |sy my ey],
           z as [sz|sz| |sz mz ez]; simpl;
    try discriminate; try reflexivity;
    try (destruct sx; simpl; try discriminate; try reflexivity);
    try (destruct sy; simpl; try discriminate; try reflexivity);
    try (destruct sz; simpl; try discriminate; try reflexivity).
  all: intros H1 H2; rewrite ?pos_cont_eq in *; cmp_cases;
    simpl in *; try discriminate; try reflexivity; try assumption; try lia.
Qed.

Lemma SFltb_leb_trans x y z :
  SFltb x y = true -> SFleb y z = true -> SFltb x z = true.
Proof.
  intros Hxy Hyz.
  destruct (SFltb_not_nan _ _ Hxy) as [Hx _].
  destruct (SFleb_not_nan _ _ Hyz) as [_ Hz].
  destruct (SFltb x z) eqn:E; [reflexivity|].
  assert (Hzx : SFleb z x = true).
  { unfold SFleb. unfold SFltb in E. rewrite (SFcompare_antisym x z).
    destruct (SFcompare x z) as [[| |]|] eqn:C; simpl; try discriminate; auto.
    apply SFcompare_none_iff in C. destruct C; congruence. }
  pose proof (SFleb_trans _ _ _ Hyz Hzx) as Hyx.
  rewrite (SFltb_not_leb _ _ Hxy) in Hyx. discriminate.
Qed.

(** The same facts on primitive floats. *)

Definition is_nan (x : float) : bool := is_nan_sf (Prim2SF x).

Lemma leb_false_ltb (x y : float) :
  is_nan x = false -> is_nan y = false ->
  (x <=? y)%float = false -> (y <? x)%float = true.
Proof.
  rewrite leb_spec, ltb_spec. apply SFleb_false_ltb.
Qed.

Lemma ltb_leb (x y : float) : (x <? y)%float = true -> (x <=? y)%float = true.
Proof. rewrite leb_spec, ltb_spec. apply SFltb_leb. Qed.

Lemma ltb_not_leb (x y : float) :
  (x <? y)%float = true -> (y <=? x)%float = false.
Proof. rewrite leb_spec, ltb_spec. apply SFltb_not_leb. Qed.

Lemma leb_not_nan (x y : float) :
  (x <=? y)%float = true -> is_nan x = false /\ is_nan y = false.
Proof. rewrite leb_spec. apply SFleb_not_nan. Qed.

Lemma ltb_not_nan (x y : float) :
  (x <? y)%float = true -> is_nan x = false /\ is_nan y = false.
Proof. rewrite ltb_spec. apply SFltb_not_nan. Qed.

Lemma leb_trans (x y z : float) :
  (x <=? y)%float = true -> (y <=? z)%float = true -> (x <=? z)%float = true.
Proof. rewrite !leb_spec. apply SFleb_trans. Qed.

Lemma ltb_leb_trans (x y z : float) :
  (x <? y)%float = true -> (y <=? z)%float = true -> (x <? z)%float = true.
Proof. rewrite !leb_spec, !ltb_spec. apply SFltb_leb_trans. Qed.

End FloatOrder.

(** ** Emotion classifier ([total-final.py], [EMOTION_RANGES] and
    [determine_emotional_state]) *)

Module Emotion.
Import FloatOrder.

#[local] Set Warnings "-inexact-float".

(** [EMOTION_RANGES]: a dict literal; iteration follows insertion order, so
    the table is kept as an association list in source order. *)
Definition EMOTION_RANGES : list (string * (float * float)) :=
  [ ("Very Happy", (0.6, 1.0));
    ("Happy",      (0.2, 0.6));
    ("Neutral",    (-0.2, 0.2));
    ("Sad",        (-0.6, -0.2));
    ("Very Sad",   (-1.0, -0.6)) ]%float.

(** The [for] loop of [determine_emotional_state]: the first entry whose
    closed range [low <= sentiment <= high] holds the input. *)
Fixpoint first_match (ranges : list (string * (float * float)))
    (sentiment : float) : option string :=
  match ranges with
  | [] => None
  | (emotion, (low, high)) :: rest =>
      if ((low <=? sentiment) && (sentiment <=? high))%float
      then Some emotion
      else first_match rest sentiment
  end.

(** [determine_emotional_state]: the loop, then the default [return "Neutral"]. *)
Definition determine_emotional_state (sentiment : float) : string :=
  match first_match EMOTION_RANGES sentiment with
  | Some emotion => emotion
  | None => "Neutral"
  end.

Definition labels : list string :=
  ["Very Sad"; "Sad"; "Neutral"; "Happy"; "Very Happy"].

(** The five half-open ranges the first-match order carves out of [[-1,1]]:
    each bucket holds its lower bound, the top bucket both bounds. *)
Definition bucket (s : float) : string :=
  if (0.6 <=? s)%float then "Very Happy"
  else if (0.2 <=? s)%float then "Happy"
  else if (-0.2 <=? s)%float then "Neutral"
  else if (-0.6 <=? s)%float then "Sad"
  else "Very Sad".

Lemma above_false (s h top : float) :
  (top <? s)%float = true -> (h <=? top)%float = true ->
  (s <=? h)%float = false.
Proof.
  intros Hs Hh. destruct (s <=? h)%float eqn:E; [|reflexivity].
  pose proof (leb_trans _ _ _ E Hh) as H.
  rewrite (ltb_not_leb _ _ Hs) in H. discriminate.
Qed.

Lemma below_false (s l bot : float) :
  (s <? bot)%float = true -> (bot <=? l)%float = true ->
  (l <=? s)%float = false.
Proof.
  intros Hs Hl. destruct (l <=? s)%float eqn:E; [|reflexivity].
  pose proof (leb_trans _ _ _ Hl E) as H.
  rewrite (ltb_not_leb _ _ Hs) in H. discriminate.
Qed.

(** Below a bound the input is also within the closed range ending there. *)
Lemma not_geb_leb (s c : float) :
  is_nan s = false -> is_nan c = false ->
  (c <=? s)%float = false -> (s <=? c)%float = true.
Proof.
  intros Hs Hc H. apply ltb_leb. apply leb_false_ltb; assumption.
Qed.

Lemma first_match_in_domain (s : float) :
  (-1.0 <=? s)%float = true -> (s <=? 1.0)%float = true ->
  first_match EMOTION_RANGES s = Some (bucket s).
Proof.
  intros Hlo Hhi.
  destruct (leb_not_nan _ _ Hlo) as [_ Hs].
  unfold bucket, EMOTION_RANGES, first_match.
  rewrite Hhi, Hlo.
  destruct (0.6 <=? s)%float eqn:E1; simpl; [reflexivity|].
  rewrite (not_geb_leb s 0.6%float Hs eq_refl E1).
  destruct (0.2 <=? s)%float eqn:E2; simpl; [reflexivity|].
  rewrite (not_geb_leb s 0.2%float Hs eq_refl E2).
  destruct (-0.2 <=? s)%float eqn:E3; simpl; [reflexivity|].
  rewrite (not_geb_leb s (-0.2)%float Hs eq_refl E3).
  destruct (-0.6 <=? s)%float eqn:E4; simpl; [reflexivity|].
  rewrite (not_geb_leb s (-0.6)%float Hs eq_refl E4).
  reflexivity.
Qed.

Lemma first_match_out_of_domain (s : float) :
  (1.0 <? s)%float = true \/ (s <? -1.0)%float = true ->
  first_match EMOTION_RANGES s = None.
Proof.
  intros [H|H]; unfold EMOTION_RANGES, first_match.
  - rewrite (above_false s 1.0%float 1.0%float H eq_refl).
    rewrite (above_false s 0.6%float 1.0%float H eq_refl).
    rewrite (above_false s 0.2%float 1.0%float H eq_refl).
    rewrite (above_false s (-0.2)%float 1.0%float H eq_refl).
    rewrite (above_false s (-0.6)%float 1.0%float H eq_refl).
    rewrite !andb_false_r. reflexivity.
  - rewrite (below_false s 0.6%float (-1.0)%float H eq_refl).
    rewrite (below_false s 0.2%float (-1.0)%float H eq_refl).
    rewrite (below_false s (-0.2)%float (-1.0)%float H eq_refl).
    rewrite (below_false s (-0.6)%float (-1.0)%float H eq_refl).
    rewrite (below_false s (-1.0)%float (-1.0)%float H eq_refl).
    reflexivity.
Qed.

Lemma first_match_nan (s : float) :
  is_nan s = true -> first_match EMOTION_RANGES s = None.
Proof.
  intros Hs. unfold EMOTION_RANGES, first_match.
  assert (F : forall c, (c <=? s)%float = false).
  { intros c. destruct (c <=? s)%float eqn:E; [|reflexivity].
    apply leb_not_nan in E. destruct E; congruence. }
  rewrite !F. reflexivity.
Qed.

Lemma bucket_in_labels (s : float) : In (bucket s) labels.
Proof.
  unfold bucket, labels.
  destruct (0.6 <=? s)%float; [simpl; tauto|].
  destruct (0.2 <=? s)%float; [simpl; tauto|].
  destruct (-0.2 <=? s)%float; [simpl; tauto|].
  destruct (-0.6 <=? s)%float; simpl; tauto.
Qed.

Lemma geb_false_iff (s c : float) :
  is_nan s = false -> is_nan c = false ->
  ((c <=? s)%float = false <-> (s <? c)%float = true).
Proof.
  intros Hs Hc. split.
  - apply leb_false_ltb; assumption.
  - apply ltb_not_leb.
Qed.

Lemma determine_in_domain (s : float) :
  (-1.0 <=? s)%float = true -> (s <=? 1.0)%float = true ->
  determine_emotional_state s = bucket s.
Proof.
  intros Hlo Hhi. unfold determine_emotional_state.
  rewrite (first_match_in_domain s Hlo Hhi). reflexivity.
Qed.

(** C1 (amended).  On every input of [[-1,1]] a range of the table matches
    (no gap) and [determine_emotional_state] returns exactly one of the five
    labels, the one of the half-open bucket holding the input: Very Sad
    [[-1,-0.6)], Sad [[-0.6,-0.2)], Neutral [[-0.2,0.2)], Happy [[0.2,0.6)],
    Very Happy [[0.6,1]].  The closed ranges of the table share their end
    points and the first entry in table order wins, so each boundary goes to
    the upper bucket: -1.0 is Very Sad, 0.0 Neutral, 1.0 Very Happy, 0.2 Happy
    and 0.2000001 Happy. *)
Theorem classify_partition :
  (forall s : float,
      (-1.0 <=? s)%float = true -> (s <=? 1.0)%float = true ->
      first_match EMOTION_RANGES s = Some (determine_emotional_state s)
      /\ In (determine_emotional_state s) labels
      /\ (determine_emotional_state s = "Very Happy"
            <-> (0.6 <=? s)%float = true)
      /\ (determine_emotional_state s = "Happy"
            <-> (0.2 <=? s)%float = true /\ (s <? 0.6)%float = true)
      /\ (determine_emotional_state s = "Neutral"
            <-> (-0.2 <=? s)%float = true /\ (s <? 0.2)%float = true)
      /\ (determine_emotional_state s = "Sad"
            <-> (-0.6 <=? s)%float = true /\ (s <? -0.2)%float = true)
      /\ (determine_emotional_state s = "Very Sad"
            <-> (s <? -0.6)%float = true))
  /\ determine_emotional_state (-1.0)%float = "Very Sad"
  /\ determine_emotional_state 0.0%float = "Neutral"
  /\ determine_emotional_state 1.0%float = "Very Happy"
  /\ determine_emotional_state 0.2%float = "Happy"
  /\ determine_emotional_state 0.2000001%float = "Happy".
Proof.
  split; [|repeat split; reflexivity].
  intros s Hlo Hhi.
  destruct (leb_not_nan _ _ Hlo) as [_ Hs].
  rewrite (determine_in_domain s Hlo Hhi).
  split; [apply first_match_in_domain; assumption|].
  split; [apply bucket_in_labels|].
  pose proof (geb_false_iff s 0.6%float Hs eq_refl) as G1.
  pose proof (geb_false_iff s 0.2%float Hs eq_refl) as G2.
  pose proof (geb_false_iff s (-0.2)%float Hs eq_refl) as G3.
  pose proof (geb_false_iff s (-0.6)%float Hs eq_refl) as G4.
  assert (T12 : (0.2 <=? s)%float = false -> (0.6 <=? s)%float = false).
  { intros H. apply G2 in H. apply G1.
    apply (ltb_leb_trans s 0.2%float 0.6%float H eq_refl). }
  assert (T23 : (-0.2 <=? s)%float = false -> (0.2 <=? s)%float = false).
  { intros H. apply G3 in H. apply G2.
    apply (ltb_leb_trans s (-0.2)%float 0.2%float H eq_refl). }
  assert (T34 : (-0.6 <=? s)%float = false -> (-0.2 <=? s)%float = false).
  { intros H. apply G4 in H. apply G3.
    apply (ltb_leb_trans s (-0.6)%float (-0.2)%float H eq_refl). }
  unfold bucket.
  destruct (0.6 <=? s)%float eqn:E1;
    destruct (0.2 <=? s)%float eqn:E2;
    destruct (-0.2 <=? s)%float eqn:E3;
    destruct (-0.6 <=? s)%float eqn:E4;
    try (specialize (T12 eq_refl)); try (specialize (T23 eq_refl));
    try (specialize (T34 eq_refl)); try discriminate;
    repeat split; intros; try discriminate; try reflexivity;
    repeat match goal with
    | H : _ /\ _ |- _ => destruct H
    | H : (_ <? _)%float = true |- _ =>
        first [apply G1 in H | apply G2 in H | apply G3 in H | apply G4 in H];
        try discriminate
    end;
    try (apply G1; reflexivity); try (apply G2; reflexivity);
    try (apply G3; reflexivity); try (apply G4; reflexivity).
Qed.

(** An input of the domain on which the partition theorem applies. *)
Lemma classify_partition_witness :
  determine_emotional_state 0.5%float = "Happy"
  <-> (0.2 <=? 0.5)%float = true /\ (0.5 <? 0.6)%float = true.
Proof.
  exact (proj1 (proj2 (proj2 (proj2
    (proj1 classify_partition 0.5%float eq_refl eq_refl))))).
Defined.

(** C1 as the specification states it fails at the boundary 0.2: the input is
    classified Happy, not Neutral. *)
Lemma classify_boundary_not_neutral :
  determine_emotional_state 0.2%float <> "Neutral".
Proof. vm_compute. discriminate. Qed.

(** C7 (amended).  An input outside [[-1,1]] (above 1 or below -1, the
    infinities included) matches no range of the table; the function does not
    fail and returns its default label Neutral.  There is no clamping. *)
Theorem out_of_domain_default (s : float) :
  (1.0 <? s)%float = true \/ (s <? -1.0)%float = true ->
  first_match EMOTION_RANGES s = None
  /\ determine_emotional_state s = "Neutral".
Proof.
  intros H. pose proof (first_match_out_of_domain s H) as E.
  split; [exact E|]. unfold determine_emotional_state. rewrite E.
  reflexivity.
Qed.

Lemma out_of_domain_default_witness :
  first_match EMOTION_RANGES 1.5%float = None
  /\ determine_emotional_state 1.5%float = "Neutral".
Proof.
  apply (out_of_domain_default 1.5%float). left. reflexivity.
Defined.

(** C7 as the specification states it fails: 1.5 is not clamped to the top
    bucket. *)
Lemma out_of_domain_not_clamped :
  determine_emotional_state 1.5%float <> "Very Happy"
  /\ determine_emotional_state (-1.5)%float <> "Very Sad".
Proof. split; vm_compute; discriminate. Qed.

End Emotion.

(** ** Facts on strongly sorted lists *)

Module Lists.

Lemma StronglySorted_weaken {A : Type} (R R' : A -> A -> Prop) (l : list A) :
  (forall a b, In a l -> In b l -> R a b -> R' a b) ->
  StronglySorted R l -> StronglySorted R' l.
Proof.
  intros Himp Hs. induction Hs as [|a l Hs IH Hall]; constructor.
  - apply IH. intros x y Hx Hy. apply Himp; right; assumption.
  - rewrite Forall_forall in *. intros b Hb.
    apply Himp; [left; reflexivity | right; assumption | apply Hall, Hb].
Qed.

Lemma StronglySorted_map_inv {A B : Type} (f : A -> B) (R : B -> B -> Prop)
    (l : list A) :
  StronglySorted (fun x y => R (f x) (f y)) l -> StronglySorted R (map f l).
Proof.
  induction 1 as [|a l Hs IH Hall]; simpl; constructor; [assumption|].
  rewrite Forall_forall in *. intros b Hb.
  apply in_map_iff in Hb. destruct Hb as [x [<- Hx]]. apply Hall, Hx.
Qed.

Lemma StronglySorted_app_cross {A : Type} (R : A -> A -> Prop)
    (l1 l2 : list A) :
  StronglySorted R (l1 ++ l2) ->
  StronglySorted R l1
  /\ (forall a b, In a l1 -> In b l2 -> R a b).
Proof.
  induction l1 as [|x l1 IH]; simpl; intros Hs.
  - split; [constructor | intros a b []].
  - inversion Hs as [|? ? Hs' Hall]; subst.
    destruct (IH Hs') as [H1 H2]. rewrite Forall_forall in Hall. split.
    + constructor; [assumption|]. rewrite Forall_forall. intros b Hb.
      apply Hall, in_or_app. left; assumption.
    + intros a b [<-|Ha] Hb.
      * apply Hall, in_or_app. right; assumption.
      * apply H2; assumption.
Qed.

Lemma StronglySorted_irrefl_NoDup {A : Type} (R : A -> A -> Prop)
    (l : list A) :
  (forall a, ~ R a a) -> StronglySorted R l -> NoDup l.
Proof.
  intros Hirr. induction 1 as [|a l Hs IH Hall]; constructor; [|assumption].
  rewrite Forall_forall in Hall. intros Hin. apply (Hirr a), Hall, Hin.
Qed.

Lemma StronglySorted_map {A B : Type} (f : A -> B) (R : B -> B -> Prop)
    (l : list A) :
  StronglySorted R (map f l) -> StronglySorted (fun x y => R (f x) (f y)) l.
Proof.
  induction l as [|x l IH]; simpl; intros Hs; [constructor|].
  inversion Hs as [|? ? Hs' Hall]; subst. constructor; [apply IH, Hs'|].
  rewrite Forall_forall in *. intros y Hy. apply Hall, in_map, Hy.
Qed.

End Lists.

(** ** Python values shared by the four files *)

Module Py.

(** The exceptions the modelled code can meet. *)
Inductive exn : Type :=
| ZeroDivisionError
| IntegrityError (msg : string)
| OverflowError.

(** Outcome of a call: a returned value or a raised exception. *)
Inductive result (A : Type) : Type :=
| Returned (a : A)
| Raised (e : exn).
Arguments Returned {A} a.
Arguments Raised {A} e.

Definition bind {A B : Type} (r : result A) (k : A -> result B) : result B :=
  match r with
  | Returned a => k a
  | Raised e => Raised e
  end.

(** [float(n)] for a count [n]; exact below [2^53]. *)
Definition float_of_int (n : Z) : float := PrimFloat.of_uint63 (Uint63.of_Z n).

(** [a / b] on two [int]s: true division, [ZeroDivisionError] on a zero
    divisor. *)
Definition truediv (a b : Z) : result float :=
  if (b =? 0)%Z then Raised ZeroDivisionError
  else Returned (float_of_int a / float_of_int b)%float.

(** *** [str] operations, on the ASCII range

    Characters above 127 are outside this model: [lower] leaves them as they
    are and they count neither as word characters nor as white space.  Text
    with any characters is the subject of the module [Text] below, where the
    Unicode tables of the runtime are a parameter and these definitions are
    shown to be its ASCII rows. *)

Definition code (c : ascii) : nat := nat_of_ascii c.

(** [str.lower] on one character. *)
Definition lower_char (c : ascii) : ascii :=
  if (65 <=? code c) && (code c <=? 90) then ascii_of_nat (code c + 32) else c.

Fixpoint lower (s : string) : string :=
  match s with
  | EmptyString => EmptyString
  | String c rest => String (lower_char c) (lower rest)
  end.

(** The class [\w]: letters, digits and the underscore. *)
Definition is_word (c : ascii) : bool :=
  ((48 <=? code c) && (code c <=? 57))
  || ((65 <=? code c) && (code c <=? 90))
  || ((97 <=? code c) && (code c <=? 122))
  || (code c =? 95).

(** The class [\s], also the separators of [str.split()]: tab, line feed,
    vertical tab, form feed, carriage return, the four separators
    [0x1c]-[0x1f], and the space. *)
Definition is_space (c : ascii) : bool :=
  ((9 <=? code c) && (code c <=? 13))
  || ((28 <=? code c) && (code c <=? 31))
  || (code c =? 32).

(** [re.sub(r'[^\w\s]', '', s)]: every character that is neither a word
    character nor white space is deleted. *)
Fixpoint strip_punctuation (s : string) : string :=
  match s with
  | EmptyString => EmptyString
  | String c rest =>
      if is_word c || is_space c then String c (strip_punctuation rest)
      else strip_punctuation rest
  end.

Definition flush (cur : string) : list string :=
  match cur with
  | EmptyString => []
  | _ => [cur]
  end.

(** [s.split()]: the maximal runs of characters that are not white space;
    [cur] is the run being read. *)
Fixpoint split_from (cur : string) (s : string) : list string :=
  match s with
  | EmptyString => flush cur
  | String c rest =>
      if is_space c then flush cur ++ split_from EmptyString rest
      else split_from (cur ++ String c EmptyString) rest
  end.

Definition split (s : string) : list string := split_from EmptyString s.

(** [sep.join(parts)]. *)
Definition join (sep : string) (parts : list string) : string :=
  String.concat sep parts.

(** [len(s.split())]. *)
Definition word_count (s : string) : Z := Z.of_nat (List.length (split s)).

(** [sum(xs)] on [int]s. *)
Definition sum (xs : list Z) : Z := fold_left Z.add xs 0%Z.

End Py.

(** ** Keyword extraction ([extract_topics], identical in [final.py] and
    [total-final.py]), on ASCII text *)

Module Topics.
Import Py Lists.

Definition stop_words : list string :=
  ["i"; "me"; "my"; "myself"; "we"; "our"; "ours"; "ourselves"; "you";
   "you're"; "you've"; "you'll"; "you'd"; "your"; "yours"; "yourself";
   "yourselves"; "he"; "him"; "his"; "himself"; "she"; "she's"; "her";
   "hers"; "herself"; "it"; "it's"; "its"; "itself"; "they"; "them";
   "their"; "theirs"; "themselves"; "what"; "which"; "who"; "whom";
   "this"; "that"; "that'll"; "these"; "those"; "am"; "is"; "are";
   "was"; "were"; "be"; "been"; "being"; "have"; "has"; "had";
   "having"; "do"; "does"; "did"; "doing"; "a"; "an"; "the"; "and";
   "but"; "if"; "or"; "because"; "as"; "until"; "while"; "of"; "at";
   "by"; "for"; "with"; "about"; "against"; "between"; "into";
   "through"; "during"; "before"; "after"; "above"; "below"; "to";
   "from"; "up"; "down"; "in"; "out"; "on"; "off"; "over"; "under";
   "again"; "further"; "then"; "once"].

Definition mem (w : string) (l : list string) : bool :=
  existsb (String.eqb w) l.

(** The comprehension
    [[word for word in words if word not in stop_words and len(word) > 3]]. *)
Definition keep (w : string) : bool :=
  negb (mem w stop_words) && (3 <? String.length w).

(** [Counter(words)]: a dict from word to count, in order of first
    insertion; [tally] is the update [counter[w] += 1]. *)
Fixpoint tally (w : string) (c : list (string * nat)) : list (string * nat) :=
  match c with
  | [] => [(w, 1)]
  | (k, n) :: rest =>
      if String.eqb k w then (k, S n) :: rest else (k, n) :: tally w rest
  end.

Definition Counter (words : list string) : list (string * nat) :=
  fold_left (fun c w => tally w c) words [].

(** [Counter.most_common(n)], a method of the Python library: the [n] most
    common elements from the most common to the least, elements with equal
    counts in the order first encountered.  It is [heapq.nlargest] on the
    items with the count as key, which returns what
    [sorted(items, key=count, reverse=True)[:n]] returns: the first [n]
    entries of a stable sort by decreasing count, and no entry for [n <= 0].
    [place] inserts an entry before the first one with a count not larger. *)
Fixpoint place (x : string * nat) (l : list (string * nat))
    : list (string * nat) :=
  match l with
  | [] => [x]
  | y :: rest =>
      if snd y <=? snd x then x :: y :: rest else y :: place x rest
  end.

Definition sort_desc (c : list (string * nat)) : list (string * nat) :=
  fold_right place [] c.

Definition most_common (c : list (string * nat)) (n : Z)
    : list (string * nat) :=
  firstn (Z.to_nat n) (sort_desc c).

(** The words that are counted: lower case, punctuation deleted, split on
    white space, stop words and words of at most three characters dropped. *)
Definition kept_words (text : string) : list string :=
  filter keep (split (strip_punctuation (lower text))).

Definition extract_topics (text : string) (top_n : Z) : list string :=
  map fst (most_common (Counter (kept_words text)) top_n).

(** The keys a [Counter] ends with: the words not yet [seen], each at its
    first occurrence. *)
Fixpoint fresh (seen : list string) (words : list string) : list string :=
  match words with
  | [] => []
  | w :: rest =>
      if mem w seen then fresh seen rest else w :: fresh (seen ++ [w]) rest
  end.

(** *** The counter *)

Lemma mem_In (w : string) (l : list string) : mem w l = true <-> In w l.
Proof.
  unfold mem. rewrite existsb_exists. split.
  - intros [x [Hx E]]. apply String.eqb_eq in E. subst. assumption.
  - intros H. exists w. split; [assumption | apply String.eqb_refl].
Qed.

Lemma mem_false (w : string) (l : list string) : mem w l = false <-> ~ In w l.
Proof.
  rewrite <- mem_In. destruct (mem w l); split; intros; congruence.
Qed.

Lemma tally_keys (w : string) (c : list (string * nat)) :
  map fst (tally w c)
  = if mem w (map fst c) then map fst c else map fst c ++ [w].
Proof.
  induction c as [|[k n] c IH]; simpl; [reflexivity|].
  rewrite (String.eqb_sym w k).
  destruct (String.eqb k w) eqn:E; simpl; [reflexivity|].
  rewrite IH. destruct (mem w (map fst c)); reflexivity.
Qed.

Lemma counter_keys (words : list string) (c : list (string * nat)) :
  map fst (fold_left (fun c w => tally w c) words c)
  = map fst c ++ fresh (map fst c) words.
Proof.
  revert c. induction words as [|w words IH]; intros c; simpl.
  - rewrite app_nil_r. reflexivity.
  - rewrite IH, tally_keys.
    destruct (mem w (map fst c)); [reflexivity|].
    rewrite <- app_assoc. reflexivity.
Qed.

Lemma fresh_In (seen words : list string) (w : string) :
  In w (fresh seen words) <-> In w words /\ ~ In w seen.
Proof.
  revert seen. induction words as [|x words IH]; intros seen; simpl.
  - tauto.
  - destruct (mem x seen) eqn:M.
    + apply mem_In in M. rewrite IH. split.
      * intros [H1 H2]. tauto.
      * intros [[<-|H1] H2]; [contradiction | tauto].
    + apply mem_false in M. simpl. rewrite IH, in_app_iff. simpl. split.
      * intros [<-|[H1 H2]]; [tauto|]. split; [tauto|]. tauto.
      * intros [[<-|H1] H2]; [tauto|].
        destruct (string_dec x w) as [->|N]; [tauto|]. right. tauto.
Qed.

Lemma Counter_keys (words : list string) :
  map fst (Counter words) = fresh [] words.
Proof. unfold Counter. rewrite counter_keys. reflexivity. Qed.

Lemma Counter_key_In (words : list string) (w : string) :
  In w (map fst (Counter words)) <-> In w words.
Proof.
  rewrite Counter_keys, fresh_In. simpl. tauto.
Qed.

(** *** The stable sort by decreasing count *)

Lemma place_In (x z : string * nat) (l : list (string * nat)) :
  In z (place x l) <-> z = x \/ In z l.
Proof.
  induction l as [|y l IH]; simpl.
  - intuition.
  - destruct (snd y <=? snd x); simpl; [intuition|].
    rewrite IH. intuition.
Qed.

Lemma sort_desc_In (z : string * nat) (c : list (string * nat)) :
  In z (sort_desc c) <-> In z c.
Proof.
  induction c as [|x c IH]; simpl; [tauto|].
  rewrite place_In, IH. intuition.
Qed.

(** The whole ranking, before the cut at [top_n]. *)
Definition ranking (words : list string) : list string :=
  map fst (sort_desc (Counter words)).

Lemma ranking_In (words : list string) (w : string) :
  In w (ranking words) <-> In w words.
Proof.
  unfold ranking. split; intros H.
  - apply in_map_iff in H. destruct H as [e [E H]].
    apply (proj1 (sort_desc_In e _)) in H.
    apply (proj1 (Counter_key_In words w)).
    apply in_map_iff. exists e. split; assumption.
  - apply (proj2 (Counter_key_In words w)) in H.
    apply in_map_iff in H. destruct H as [e [E H]].
    apply in_map_iff. exists e. split; [assumption|].
    apply (proj2 (sort_desc_In e _)). assumption.
Qed.

Lemma extract_topics_firstn (text : string) (n : Z) :
  extract_topics text n = firstn (Z.to_nat n) (ranking (kept_words text)).
Proof.
  unfold extract_topics, most_common, ranking. symmetry. apply firstn_map.
Qed.

Lemma kept_words_In (text w : string) :
  In w (kept_words text) ->
  In w (split (strip_punctuation (lower text)))
  /\ ~ In w stop_words /\ 3 < String.length w.
Proof.
  unfold kept_words. rewrite filter_In. unfold keep.
  intros [H K]. apply andb_prop in K. destruct K as [K1 K2].
  split; [assumption|]. split.
  - apply mem_false. destruct (mem w stop_words); [discriminate|reflexivity].
  - apply Nat.ltb_lt. assumption.
Qed.

End Topics.

(** ** [Counter] and [most_common] on keys of any type *)

Module Ranking.
Import Lists.

Section Keys.

(** The keys and their equality: what [dict] needs of them. *)
Variable K : Type.
Variable dec : forall x y : K, {x = y} + {x <> y}.

Definition mem (w : K) (l : list K) : bool :=
  if in_dec dec w l then true else false.

(** [counter[w] += 1]. *)
Fixpoint tally (w : K) (c : list (K * nat)) : list (K * nat) :=
  match c with
  | [] => [(w, 1)]
  | (k, n) :: rest =>
      if dec k w then (k, S n) :: rest else (k, n) :: tally w rest
  end.

(** [Counter(words)], in order of first insertion. *)
Definition Counter (words : list K) : list (K * nat) :=
  fold_left (fun c w => tally w c) words [].

(** [place] inserts an entry before the first one with a count not larger:
    the step of a stable sort by decreasing count. *)
Fixpoint place (x : K * nat) (l : list (K * nat)) : list (K * nat) :=
  match l with
  | [] => [x]
  | y :: rest =>
      if snd y <=? snd x then x :: y :: rest else y :: place x rest
  end.

Definition sort_desc (c : list (K * nat)) : list (K * nat) :=
  fold_right place [] c.

(** [Counter.most_common(n)]. *)
Definition most_common (c : list (K * nat)) (n : Z) : list (K * nat) :=
  firstn (Z.to_nat n) (sort_desc c).

(** Position of the first occurrence of [w] in [l] ([length l] when absent). *)
Fixpoint index (w : K) (l : list K) : nat :=
  match l with
  | [] => 0
  | x :: rest => if dec x w then 0 else S (index w rest)
  end.

(** The ranking the result follows: more occurrences first, and among keys
    with the same number of occurrences the one met first. *)
Definition outranks (words : list K) (a b : K) : Prop :=
  count_occ dec words b < count_occ dec words a
  \/ (count_occ dec words a = count_occ dec words b
      /\ index a words < index b words).

(** The keys a [Counter] ends with: the words not yet [seen], each at its
    first occurrence. *)
Fixpoint fresh (seen : list K) (words : list K) : list K :=
  match words with
  | [] => []
  | w :: rest =>
      if mem w seen then fresh seen rest else w :: fresh (seen ++ [w]) rest
  end.

(** The count stored under [w] (0 when [w] is no key). *)
Fixpoint get (w : K) (c : list (K * nat)) : nat :=
  match c with
  | [] => 0
  | (k, n) :: rest => if dec k w then n else get w rest
  end.

(** The whole ranking, before the cut. *)
Definition ranking (words : list K) : list K :=
  map fst (sort_desc (Counter words)).

Lemma mem_true_In (w : K) (l : list K) : mem w l = true <-> In w l.
Proof.
  unfold mem. destruct (in_dec dec w l); split; intros; congruence.
Qed.

Lemma mem_false_notin (w : K) (l : list K) : mem w l = false <-> ~ In w l.
Proof.
  unfold mem. destruct (in_dec dec w l); split; intros; congruence.
Qed.

Lemma tally_key_list (w : K) (c : list (K * nat)) :
  map fst (tally w c)
  = if mem w (map fst c) then map fst c else map fst c ++ [w].
Proof.
  induction c as [|[k n] c IH]; [reflexivity|].
  cbn [tally map fst].
  destruct (dec k w) as [E|E]; cbn [map fst].
  - assert (H : mem w (k :: map fst c) = true)
      by (apply mem_true_In; left; exact E).
    rewrite H. reflexivity.
  - rewrite IH. destruct (mem w (map fst c)) eqn:M.
    + assert (H : mem w (k :: map fst c) = true)
        by (apply mem_true_In; right; apply mem_true_In; exact M).
      rewrite H. reflexivity.
    + assert (H : mem w (k :: map fst c) = false).
      { apply mem_false_notin. apply mem_false_notin in M.
        intros [J|J]; [exact (E J) | exact (M J)]. }
      rewrite H. reflexivity.
Qed.

Lemma get_after_tally (w w' : K) (c : list (K * nat)) :
  get w' (tally w c) = (if dec w w' then 1 else 0) + get w' c.
Proof.
  induction c as [|[k n] c IH]; simpl.
  - destruct (dec w w'); reflexivity.
  - destruct (dec k w) as [E|E]; simpl.
    + subst k. destruct (dec w w'); reflexivity.
    + destruct (dec k w') as [E'|E']; [|apply IH].
      subst k. destruct (dec w w') as [F|F]; [|reflexivity].
      exfalso. apply E. symmetry; exact F.
Qed.

Lemma fold_tally_keys (words : list K) (c : list (K * nat)) :
  map fst (fold_left (fun c w => tally w c) words c)
  = map fst c ++ fresh (map fst c) words.
Proof.
  revert c. induction words as [|w words IH]; intros c; simpl.
  - rewrite app_nil_r. reflexivity.
  - rewrite IH, tally_key_list.
    destruct (mem w (map fst c)); [reflexivity|].
    rewrite <- app_assoc. reflexivity.
Qed.

Lemma fold_tally_get (words : list K) (c : list (K * nat)) (w : K) :
  get w (fold_left (fun c w => tally w c) words c)
  = get w c + count_occ dec words w.
Proof.
  revert c.
  induction words as [|x words IH]; intros c; simpl; [lia|].
  rewrite IH, get_after_tally. destruct (dec x w); lia.
Qed.

Lemma get_of_entry (c : list (K * nat)) (w : K) (n : nat) :
  NoDup (map fst c) -> In (w, n) c -> get w c = n.
Proof.
  induction c as [|[k m] c IH]; simpl; intros Hnd Hin; [contradiction|].
  inversion Hnd as [|? ? Hk Hnd']; subst.
  destruct Hin as [E|Hin].
  - inversion E; subst. destruct (dec w w); [reflexivity | congruence].
  - destruct (dec k w) as [E|E]; [|apply IH; assumption].
    subst k. exfalso. apply Hk.
    apply in_map_iff. exists (w, n). split; [reflexivity | assumption].
Qed.

Lemma fresh_members (seen words : list K) (w : K) :
  In w (fresh seen words) <-> In w words /\ ~ In w seen.
Proof.
  revert seen. induction words as [|x words IH]; intros seen; simpl.
  - tauto.
  - destruct (mem x seen) eqn:M.
    + apply mem_true_In in M. rewrite IH. split.
      * intros [H1 H2]. tauto.
      * intros [[<-|H1] H2]; [contradiction | tauto].
    + apply mem_false_notin in M. simpl. rewrite IH, in_app_iff. simpl. split.
      * intros [<-|[H1 H2]]; [tauto|]. split; [tauto|]. tauto.
      * intros [[<-|H1] H2]; [tauto|].
        destruct (dec x w) as [->|N]; [tauto|]. right. tauto.
Qed.

Lemma index_cons_other (x a : K) (words : list K) :
  x <> a -> index a (x :: words) = S (index a words).
Proof. intros H. simpl. destruct (dec x a); [contradiction | reflexivity]. Qed.

Lemma index_cons_same (x : K) (words : list K) : index x (x :: words) = 0.
Proof. simpl. destruct (dec x x); [reflexivity | congruence]. Qed.

Lemma fresh_in_order (seen words : list K) :
  StronglySorted (fun a b => index a words < index b words)
    (fresh seen words).
Proof.
  revert seen. induction words as [|x words IH]; intros seen; simpl fresh.
  - constructor.
  - destruct (mem x seen) eqn:M.
    + apply mem_true_In in M.
      apply StronglySorted_weaken
        with (R := fun a b => index a words < index b words); [|apply IH].
      intros a b Ha Hb Hlt. apply fresh_members in Ha, Hb.
      assert (x <> a) by (intros ->; tauto).
      assert (x <> b) by (intros ->; tauto).
      rewrite !index_cons_other by assumption. lia.
    + constructor.
      * apply StronglySorted_weaken
          with (R := fun a b => index a words < index b words); [|apply IH].
        intros a b Ha Hb Hlt. apply fresh_members in Ha, Hb.
        rewrite in_app_iff in Ha, Hb. simpl in Ha, Hb.
        assert (x <> a) by (intros ->; tauto).
        assert (x <> b) by (intros ->; tauto).
        rewrite !index_cons_other by assumption. lia.
      * rewrite Forall_forall. intros b Hb. apply fresh_members in Hb.
        rewrite in_app_iff in Hb. simpl in Hb.
        assert (x <> b) by (intros ->; tauto).
        rewrite index_cons_same, index_cons_other by assumption. lia.
Qed.

Lemma Counter_key_list (words : list K) :
  map fst (Counter words) = fresh [] words.
Proof. unfold Counter. rewrite fold_tally_keys. reflexivity. Qed.

Lemma Counter_keys_distinct (words : list K) :
  NoDup (map fst (Counter words)).
Proof.
  rewrite Counter_key_list.
  apply StronglySorted_irrefl_NoDup
    with (R := fun a b => index a words < index b words);
    [intros a; lia | apply fresh_in_order].
Qed.

Lemma Counter_entry_count (words : list K) (w : K) (n : nat) :
  In (w, n) (Counter words) -> n = count_occ dec words w /\ In w words.
Proof.
  intros Hin. split.
  - rewrite <- (get_of_entry _ _ _ (Counter_keys_distinct words) Hin).
    unfold Counter. rewrite fold_tally_get. reflexivity.
  - assert (Hk : In w (map fst (Counter words))).
    { apply in_map_iff. exists (w, n). split; [reflexivity | assumption]. }
    rewrite Counter_key_list in Hk. apply fresh_members in Hk. tauto.
Qed.

Lemma Counter_key_members (words : list K) (w : K) :
  In w (map fst (Counter words)) <-> In w words.
Proof.
  rewrite Counter_key_list, fresh_members. simpl. tauto.
Qed.

Lemma place_members (x z : K * nat) (l : list (K * nat)) :
  In z (place x l) <-> z = x \/ In z l.
Proof.
  induction l as [|y l IH]; simpl.
  - split; [intros [H|[]]; left; symmetry; exact H
           | intros [H|[]]; left; symmetry; exact H].
  - destruct (snd y <=? snd x); simpl.
    + split; [intros [H|H]; [left; symmetry; exact H | right; exact H]
             | intros [H|H]; [left; symmetry; exact H | right; exact H]].
    + rewrite IH. tauto.
Qed.

Lemma sort_desc_members (z : K * nat) (c : list (K * nat)) :
  In z (sort_desc c) <-> In z c.
Proof.
  induction c as [|x c IH]; simpl; [tauto|].
  rewrite place_members, IH. split; [intros [H|H] | intros [H|H]];
    solve [left; symmetry; exact H | right; exact H].
Qed.

Lemma place_one_more (x : K * nat) (l : list (K * nat)) :
  List.length (place x l) = S (List.length l).
Proof.
  induction l as [|y l IH]; simpl; [reflexivity|].
  destruct (snd y <=? snd x); simpl; [reflexivity|]. rewrite IH. reflexivity.
Qed.

Lemma sort_desc_same_length (c : list (K * nat)) :
  List.length (sort_desc c) = List.length c.
Proof.
  induction c as [|x c IH]; simpl; [reflexivity|].
  rewrite place_one_more, IH. reflexivity.
Qed.

(** Order of the sorted entries: a larger count first, and with equal counts
    the order [before] the entries had in the counter. *)
Definition ranked (before : K * nat -> K * nat -> Prop) (x y : K * nat)
    : Prop :=
  snd y < snd x \/ (snd x = snd y /\ before x y).

Lemma place_keeps_ranked (before : K * nat -> K * nat -> Prop) (x : K * nat)
    (l : list (K * nat)) :
  (forall y, In y l -> before x y) ->
  StronglySorted (ranked before) l -> StronglySorted (ranked before) (place x l).
Proof.
  intros Hx Hs. induction Hs as [|y l Hs IH Hall]; simpl.
  - repeat constructor.
  - rewrite Forall_forall in Hall.
    destruct (snd y <=? snd x) eqn:E.
    + apply Nat.leb_le in E. constructor.
      * constructor; [assumption | rewrite Forall_forall; assumption].
      * rewrite Forall_forall. intros z [<-|Hz].
        -- unfold ranked. destruct (Nat.eq_dec (snd x) (snd y)).
           ++ right. split; [assumption|]. apply Hx. left; reflexivity.
           ++ left. lia.
        -- assert (Hyz : snd z <= snd y).
           { destruct (Hall z Hz) as [H|[H _]]; lia. }
           unfold ranked. destruct (Nat.eq_dec (snd x) (snd z)).
           ++ right. split; [assumption|]. apply Hx. right; assumption.
           ++ left. lia.
    + apply Nat.leb_gt in E. constructor.
      * apply IH. intros z Hz. apply Hx. right; assumption.
      * rewrite Forall_forall. intros z Hz.
        apply (proj1 (place_members x z l)) in Hz.
        destruct Hz as [->|Hz]; [left; assumption | apply Hall, Hz].
Qed.

Lemma sort_desc_ranked (before : K * nat -> K * nat -> Prop)
    (c : list (K * nat)) :
  StronglySorted before c -> StronglySorted (ranked before) (sort_desc c).
Proof.
  induction 1 as [|x c Hs IH Hall]; simpl; [constructor|].
  apply place_keeps_ranked; [|assumption].
  rewrite Forall_forall in Hall. intros y Hy.
  apply Hall. apply (proj1 (sort_desc_members y c)). assumption.
Qed.

Lemma ranking_members (words : list K) (w : K) :
  In w (ranking words) <-> In w words.
Proof.
  unfold ranking. split; intros H.
  - apply in_map_iff in H. destruct H as [e [E H]].
    apply (proj1 (sort_desc_members e _)) in H.
    apply (proj1 (Counter_key_members words w)).
    apply in_map_iff. exists e. split; assumption.
  - apply (proj2 (Counter_key_members words w)) in H.
    apply in_map_iff in H. destruct H as [e [E H]].
    apply in_map_iff. exists e. split; [assumption|].
    apply (proj2 (sort_desc_members e _)). assumption.
Qed.

Lemma ranking_in_order (words : list K) :
  StronglySorted (outranks words) (ranking words).
Proof.
  unfold ranking. apply StronglySorted_map_inv.
  apply StronglySorted_weaken
    with (R := ranked (fun x y => index (fst x) words < index (fst y) words)).
  - intros [a na] [b nb] Ha Hb.
    apply (proj1 (sort_desc_members _ _)) in Ha.
    apply (proj1 (sort_desc_members _ _)) in Hb.
    apply Counter_entry_count in Ha. apply Counter_entry_count in Hb.
    destruct Ha as [-> _], Hb as [-> _].
    unfold ranked, outranks. simpl. tauto.
  - apply sort_desc_ranked.
    apply (StronglySorted_map fst
             (fun a b => index a words < index b words)).
    rewrite Counter_key_list. apply fresh_in_order.
Qed.

Lemma ranking_distinct_length (words : list K) :
  List.length (ranking words) = List.length (nodup dec words).
Proof.
  unfold ranking. rewrite length_map, sort_desc_same_length.
  rewrite <- (length_map fst), Counter_key_list.
  apply Permutation_length, NoDup_Permutation.
  - rewrite <- Counter_key_list. apply Counter_keys_distinct.
  - apply NoDup_nodup.
  - intros x. rewrite nodup_In, fresh_members. simpl. tauto.
Qed.

Lemma outranks_strict (words : list K) (a : K) : ~ outranks words a a.
Proof. unfold outranks. lia. Qed.

(** The [n] most common keys: as many as asked for or all there are, without
    repetition, in ranking order, and ranking before every key left out. *)
Lemma most_common_ranked (words : list K) (n : Z) :
  let out := map fst (most_common (Counter words) n) in
  List.length out = Nat.min (Z.to_nat n) (List.length (nodup dec words))
  /\ List.length out <= Z.to_nat n
  /\ (List.length out = Z.to_nat n \/ forall w, In w words -> In w out)
  /\ NoDup out
  /\ (forall w, In w out -> In w words)
  /\ StronglySorted (outranks words) out
  /\ (forall a b, In a out -> In b words -> ~ In b out -> outranks words a b).
Proof.
  cbv zeta.
  assert (E : map fst (most_common (Counter words) n)
              = firstn (Z.to_nat n) (ranking words)).
  { unfold most_common, ranking. symmetry. apply firstn_map. }
  rewrite E. set (k := Z.to_nat n).
  pose proof (ranking_in_order words) as Hs.
  rewrite <- (firstn_skipn k (ranking words)) in Hs.
  apply StronglySorted_app_cross in Hs. destruct Hs as [Hs Hcross].
  split; [rewrite length_firstn, ranking_distinct_length; reflexivity|].
  split; [apply firstn_le_length|].
  split.
  { destruct (le_lt_dec k (List.length (ranking words))) as [Hk|Hk].
    - left. rewrite length_firstn. lia.
    - right. intros w Hw. rewrite firstn_all2 by lia.
      apply (ranking_members words). exact Hw. }
  split; [apply StronglySorted_irrefl_NoDup with (R := outranks words);
          [apply outranks_strict | assumption]|].
  split.
  { intros w Hw. apply (ranking_members words).
    rewrite <- (firstn_skipn k (ranking words)). apply in_or_app.
    left; assumption. }
  split; [assumption|].
  intros a b Ha Hb Hnb. apply Hcross; [assumption|].
  apply (ranking_members words) in Hb.
  rewrite <- (firstn_skipn k (ranking words)) in Hb.
  apply in_app_or in Hb. destruct Hb; [contradiction | assumption].
Qed.

End Keys.

Arguments mem {K} dec w l.
Arguments tally {K} dec w c.
Arguments Counter {K} dec words.
Arguments place {K} x l.
Arguments sort_desc {K} c.
Arguments most_common {K} c n.
Arguments index {K} dec w l.
Arguments outranks {K} dec words a b.

End Ranking.

(** ** Keyword extraction on every text

    [extract_topics] on a Python [str] with any characters.  What the
    function takes from the Python runtime, the lower-casing of [str.lower]
    and the classes [\w] and [\s] of the regular expressions on [str] (the
    second also being the separators of [str.split()]), comes from Unicode
    tables that are no part of the repository: they are a parameter, of
    which the rows of the ASCII characters are known. *)

Module Text.

(** A [str]: the sequence of its code points. *)
Definition str : Type := list N.

Definition str_dec : forall x y : str, {x = y} + {x <> y} :=
  list_eq_dec N.eq_dec.

(** The [str] a string of the ASCII model stands for. *)
Definition of_string (s : string) : str :=
  map N_of_ascii (list_ascii_of_string s).

(** The tables: [lower] is [str.lower], [is_word] the class [\w] and
    [is_space] the class [\s], which is also the white space of
    [str.split()]. *)
Record unicode : Type := {
  lower : str -> str;
  is_word : N -> bool;
  is_space : N -> bool
}.

(** The ASCII rows: capital letters are lowered by adding 32; the word
    characters are the digits, the letters and the underscore; white space
    is tab to carriage return, the four separators [0x1c]-[0x1f] and the
    space. *)
Definition ascii_lower (c : N) : N :=
  if ((65 <=? c) && (c <=? 90))%N then (c + 32)%N else c.

Definition ascii_word (c : N) : bool :=
  (((48 <=? c) && (c <=? 57))
   || ((65 <=? c) && (c <=? 90))
   || ((97 <=? c) && (c <=? 122))
   || (c =? 95))%N.

Definition ascii_space (c : N) : bool :=
  (((9 <=? c) && (c <=? 13)) || ((28 <=? c) && (c <=? 31)) || (c =? 32))%N.

(** A text of ASCII characters only. *)
Definition ascii_text (t : str) : Prop := Forall (fun c => (c < 128)%N) t.

(** What is known of the tables of the runtime. *)
Record python (u : unicode) : Prop := {
  lower_ascii : forall t : str, ascii_text t -> lower u t = map ascii_lower t;
  word_ascii : forall c : N, (c < 128)%N -> is_word u c = ascii_word c;
  space_ascii : forall c : N, (c < 128)%N -> is_space u c = ascii_space c
}.

(** Tables that know the ASCII characters only. *)
Definition ascii_only : unicode :=
  {| lower := map ascii_lower; is_word := ascii_word;
     is_space := ascii_space |}.

Section Extraction.

Variable u : unicode.

(** [re.sub(r'[^\w\s]', '', text)]. *)
Definition strip_punctuation (t : str) : str :=
  filter (fun c => is_word u c || is_space u c) t.

Definition flush (cur : str) : list str :=
  match cur with
  | [] => []
  | _ => [cur]
  end.

(** [text.split()]: the maximal runs of characters that are not white
    space; [cur] is the run being read. *)
Fixpoint split_from (cur : str) (t : str) : list str :=
  match t with
  | [] => flush cur
  | c :: rest =>
      if is_space u c then flush cur ++ split_from [] rest
      else split_from (cur ++ [c]) rest
  end.

Definition split (t : str) : list str := split_from [] t.

Definition stop_words : list str := map of_string Topics.stop_words.

(** [word not in stop_words and len(word) > 3]. *)
Definition keep (w : str) : bool :=
  negb (Ranking.mem str_dec w stop_words) && (3 <? List.length w).

Definition kept_words (text : str) : list str :=
  filter keep (split (strip_punctuation (lower u text))).

Definition extract_topics (text : str) (top_n : Z) : list str :=
  map fst
    (Ranking.most_common (Ranking.Counter str_dec (kept_words text)) top_n).

End Extraction.

End Text.

Module TextFacts.
Import Lists Text.

(** *** Stripping and splitting *)

Lemma strip_punctuation_app (u : unicode) (a b : str) :
  strip_punctuation u (a ++ b) = strip_punctuation u a ++ strip_punctuation u b.
Proof. apply filter_app. Qed.

Lemma split_from_run (u : unicode) (w : str) :
  Forall (fun c => is_space u c = false) w ->
  forall cur t : str, split_from u cur (w ++ t) = split_from u (cur ++ w) t.
Proof.
  induction 1 as [|c w Hc Hw IH]; intros cur t; simpl.
  - rewrite app_nil_r. reflexivity.
  - rewrite Hc, IH, <- app_assoc. reflexivity.
Qed.

Lemma split_space (u : unicode) (c : N) (t : str) :
  is_space u c = true -> split u (c :: t) = split u t.
Proof. intros H. unfold split. simpl. rewrite H. reflexivity. Qed.

Lemma split_word (u : unicode) (w t : str) :
  w <> [] ->
  Forall (fun c => is_space u c = false) w ->
  t = [] \/ (exists c t', t = c :: t' /\ is_space u c = true) ->
  split u (w ++ t) = w :: split u t.
Proof.
  intros Hne Hw Ht. unfold split. rewrite (split_from_run u w Hw). simpl.
  destruct Ht as [->|[c [t' [-> Hc]]]]; simpl.
  - destruct w; [congruence | reflexivity].
  - rewrite Hc. destruct w; [congruence | reflexivity].
Qed.

(** *** Counting and first occurrences under a filter *)

Lemma count_occ_filter {K : Type} (dec : forall x y : K, {x = y} + {x <> y})
    (p : K -> bool) (l : list K) (w : K) :
  p w = true -> count_occ dec (filter p l) w = count_occ dec l w.
Proof.
  intros Hw. induction l as [|x l IH]; simpl; [reflexivity|].
  destruct (p x) eqn:Hx; simpl.
  - destruct (dec x w); rewrite IH; reflexivity.
  - destruct (dec x w) as [E|_]; [congruence | exact IH].
Qed.

Lemma index_filter {K : Type} (dec : forall x y : K, {x = y} + {x <> y})
    (p : K -> bool) (l : list K) (a b : K) :
  p a = true -> p b = true ->
  Ranking.index dec a (filter p l) < Ranking.index dec b (filter p l) ->
  Ranking.index dec a l < Ranking.index dec b l.
Proof.
  intros Ha Hb. induction l as [|x l IH]; simpl; [lia|].
  destruct (p x) eqn:Hx; simpl.
  - destruct (dec x a), (dec x b); lia.
  - destruct (dec x a) as [E|_]; [congruence|].
    destruct (dec x b) as [E|_]; [congruence|].
    intros H. apply IH in H. lia.
Qed.

Lemma outranks_filter {K : Type} (dec : forall x y : K, {x = y} + {x <> y})
    (p : K -> bool) (l : list K) (a b : K) :
  p a = true -> p b = true ->
  Ranking.outranks dec (filter p l) a b -> Ranking.outranks dec l a b.
Proof.
  intros Ha Hb. unfold Ranking.outranks.
  rewrite !count_occ_filter by assumption.
  intros [H|[H1 H2]]; [left; exact H | right].
  split; [exact H1 | apply (index_filter dec p); assumption].
Qed.

Lemma keep_iff (w : str) :
  keep w = true <-> ~ In w stop_words /\ 3 < List.length w.
Proof.
  unfold keep. rewrite andb_true_iff, negb_true_iff, Nat.ltb_lt.
  rewrite Ranking.mem_false_notin. tauto.
Qed.

(** *** The ranking, on every text *)

Lemma topics_ranked (u : unicode) (text : str) (n : Z) :
  let tokens := split u (strip_punctuation u (lower u text)) in
  let out := extract_topics u text n in
  List.length out <= Z.to_nat n
  /\ (List.length out = Z.to_nat n
      \/ forall w, In w tokens -> ~ In w stop_words ->
                   3 < List.length w -> In w out)
  /\ NoDup out
  /\ (forall w, In w out ->
        In w tokens /\ ~ In w stop_words /\ 3 < List.length w)
  /\ StronglySorted (Ranking.outranks str_dec tokens) out
  /\ (forall a b,
        In a out -> In b tokens -> ~ In b stop_words ->
        3 < List.length b -> ~ In b out ->
        Ranking.outranks str_dec tokens a b).
Proof.
  cbv zeta. unfold extract_topics, kept_words.
  set (tokens := split u (strip_punctuation u (lower u text))).
  destruct (Ranking.most_common_ranked str str_dec (filter keep tokens) n)
    as [_ [Hle [Hfull [Hnd [Hin [Hs Hout]]]]]].
  set (out := map fst _) in *.
  assert (Hkept : forall w, In w out -> In w tokens /\ keep w = true).
  { intros w Hw. apply filter_In, Hin, Hw. }
  split; [exact Hle|].
  split.
  { destruct Hfull as [H|H]; [left; exact H | right].
    intros w Hw Hstop Hlen. apply H, filter_In.
    split; [exact Hw | apply keep_iff; tauto]. }
  split; [exact Hnd|].
  split.
  { intros w Hw. destruct (Hkept w Hw) as [H1 H2].
    apply keep_iff in H2. tauto. }
  split.
  { apply StronglySorted_weaken
      with (R := Ranking.outranks str_dec (filter keep tokens));
      [|exact Hs].
    intros a b Ha Hb. apply outranks_filter; apply Hkept; assumption. }
  intros a b Ha Hb Hstop Hlen Hnb.
  assert (Kb : keep b = true) by (apply keep_iff; tauto).
  apply (outranks_filter str_dec keep); [apply Hkept, Ha | exact Kb |].
  apply Hout; [exact Ha | apply filter_In; tauto | exact Hnb].
Qed.

(** *** ASCII text: agreement with the model on strings *)

Lemma word_char (c : Ascii.ascii) : ascii_word (N_of_ascii c) = Py.is_word c.
Proof. destruct c as [[] [] [] [] [] [] [] []]; reflexivity. Qed.

Lemma space_char (c : Ascii.ascii) :
  ascii_space (N_of_ascii c) = Py.is_space c.
Proof. destruct c as [[] [] [] [] [] [] [] []]; reflexivity. Qed.

Lemma lower_char_code (c : Ascii.ascii) :
  N_of_ascii (Py.lower_char c) = ascii_lower (N_of_ascii c).
Proof. destruct c as [[] [] [] [] [] [] [] []]; reflexivity. Qed.

Lemma lower_char_ascii (c : Ascii.ascii) :
  (N_of_ascii c < 128)%N -> (N_of_ascii (Py.lower_char c) < 128)%N.
Proof.
  destruct c as [[] [] [] [] [] [] [] []]; intros H;
    solve [reflexivity | discriminate H].
Qed.

Lemma of_string_cons (c : Ascii.ascii) (s : string) :
  of_string (String c s) = N_of_ascii c :: of_string s.
Proof. reflexivity. Qed.

Lemma of_string_app (a b : string) :
  of_string (a ++ b)%string = of_string a ++ of_string b.
Proof.
  induction a as [|c a IH]; [reflexivity|].
  simpl. rewrite !of_string_cons, IH. reflexivity.
Qed.

Lemma of_string_length (s : string) :
  List.length (of_string s) = String.length s.
Proof.
  induction s as [|c s IH]; [reflexivity|].
  rewrite of_string_cons. simpl. rewrite IH. reflexivity.
Qed.

Lemma of_string_inj (a b : string) : of_string a = of_string b -> a = b.
Proof.
  revert b. induction a as [|c a IH]; intros [|d b] H;
    try reflexivity; try discriminate H.
  rewrite !of_string_cons in H. inversion H as [[Hc Hs]].
  f_equal; [|apply IH; exact Hs].
  rewrite <- (ascii_N_embedding c), <- (ascii_N_embedding d), Hc.
  reflexivity.
Qed.

Lemma ascii_cons (c : Ascii.ascii) (s : string) :
  ascii_text (of_string (String c s)) <->
  (N_of_ascii c < 128)%N /\ ascii_text (of_string s).
Proof.
  unfold ascii_text. rewrite of_string_cons. split.
  - intros H. inversion H; subst. tauto.
  - intros [H1 H2]. constructor; assumption.
Qed.

Section Bridge.

Variable u : unicode.
Hypothesis Hu : python u.

Lemma lower_ascii_text (s : string) :
  ascii_text (of_string s) -> ascii_text (of_string (Py.lower s)).
Proof.
  induction s as [|c s IH]; [trivial|]. simpl Py.lower.
  rewrite !ascii_cons. intros [Hc Hs].
  split; [apply lower_char_ascii, Hc | apply IH, Hs].
Qed.

Lemma lower_of_string (s : string) :
  ascii_text (of_string s) -> lower u (of_string s) = of_string (Py.lower s).
Proof.
  intros H. rewrite (lower_ascii u Hu _ H). clear H.
  induction s as [|c s IH]; [reflexivity|].
  simpl Py.lower. rewrite !of_string_cons. simpl.
  rewrite IH, lower_char_code. reflexivity.
Qed.

Lemma strip_ascii_text (s : string) :
  ascii_text (of_string s) -> ascii_text (of_string (Py.strip_punctuation s)).
Proof.
  induction s as [|c s IH]; [trivial|]. simpl Py.strip_punctuation.
  rewrite ascii_cons. intros [Hc Hs].
  destruct (Py.is_word c || Py.is_space c); [|apply IH, Hs].
  apply ascii_cons. split; [exact Hc | apply IH, Hs].
Qed.

Lemma strip_of_string (s : string) :
  ascii_text (of_string s) ->
  strip_punctuation u (of_string s) = of_string (Py.strip_punctuation s).
Proof.
  induction s as [|c s IH]; [reflexivity|].
  rewrite ascii_cons. intros [Hc Hs].
  simpl Py.strip_punctuation. rewrite of_string_cons.
  unfold strip_punctuation in *. simpl.
  rewrite (word_ascii u Hu _ Hc), (space_ascii u Hu _ Hc).
  rewrite word_char, space_char, (IH Hs).
  destruct (Py.is_word c || Py.is_space c); reflexivity.
Qed.

Lemma flush_of_string (cur : string) :
  flush (of_string cur) = map of_string (Py.flush cur).
Proof. destruct cur; reflexivity. Qed.

Lemma split_from_of_string (s : string) :
  ascii_text (of_string s) ->
  forall cur : string,
    split_from u (of_string cur) (of_string s)
    = map of_string (Py.split_from cur s).
Proof.
  induction s as [|c s IH]; intros H cur.
  - apply flush_of_string.
  - apply ascii_cons in H. destruct H as [Hc Hs].
    rewrite of_string_cons. simpl.
    rewrite (space_ascii u Hu _ Hc), space_char.
    destruct (Py.is_space c).
    + rewrite map_app, <- flush_of_string. f_equal.
      apply (IH Hs EmptyString).
    + rewrite <- (IH Hs). rewrite of_string_app. reflexivity.
Qed.

Lemma split_of_string (s : string) :
  ascii_text (of_string s) ->
  split u (of_string s) = map of_string (Py.split s).
Proof. intros H. exact (split_from_of_string s H EmptyString). Qed.

End Bridge.

Lemma mem_of_string (w : string) (l : list string) :
  Ranking.mem str_dec (of_string w) (map of_string l) = Topics.mem w l.
Proof.
  destruct (Topics.mem w l) eqn:M.
  - apply Ranking.mem_true_In. apply in_map. apply Topics.mem_In. exact M.
  - apply Ranking.mem_false_notin. intros H. apply in_map_iff in H.
    destruct H as [x [E Hx]]. apply of_string_inj in E. subst x.
    apply (proj2 (Topics.mem_In w l)) in Hx. congruence.
Qed.

Lemma keep_of_string (w : string) : keep (of_string w) = Topics.keep w.
Proof.
  unfold keep, Topics.keep, stop_words.
  rewrite mem_of_string, of_string_length. reflexivity.
Qed.

Lemma filter_keep_of_string (l : list string) :
  filter keep (map of_string l) = map of_string (filter Topics.keep l).
Proof.
  induction l as [|w l IH]; [reflexivity|]. simpl.
  rewrite keep_of_string, IH. destruct (Topics.keep w); reflexivity.
Qed.

(** An entry of a counter on strings, as an entry of a counter on [str]. *)
Definition entry_of (e : string * nat) : str * nat :=
  (of_string (fst e), snd e).

Lemma tally_of_string (w : string) (c : list (string * nat)) :
  Ranking.tally str_dec (of_string w) (map entry_of c)
  = map entry_of (Topics.tally w c).
Proof.
  induction c as [|[k n] c IH]; [reflexivity|].
  simpl. unfold entry_of at 1. simpl.
  destruct (str_dec (of_string k) (of_string w)) as [E|E].
  - apply of_string_inj in E. subst k. rewrite String.eqb_refl. reflexivity.
  - destruct (String.eqb_spec k w) as [->|_]; [congruence|].
    simpl. rewrite IH. reflexivity.
Qed.

Lemma Counter_of_string (words : list string) :
  Ranking.Counter str_dec (map of_string words)
  = map entry_of (Topics.Counter words).
Proof.
  unfold Ranking.Counter, Topics.Counter.
  change (@nil (str * nat)) with (map entry_of []).
  generalize (@nil (string * nat)) as c.
  induction words as [|w words IH]; intros c; [reflexivity|].
  simpl. rewrite tally_of_string. apply IH.
Qed.

Lemma place_of_string (x : string * nat) (l : list (string * nat)) :
  Ranking.place (entry_of x) (map entry_of l)
  = map entry_of (Topics.place x l).
Proof.
  induction l as [|y l IH]; [reflexivity|]. simpl.
  destruct (snd y <=? snd x); [reflexivity|]. simpl. rewrite IH. reflexivity.
Qed.

Lemma sort_desc_of_string (c : list (string * nat)) :
  Ranking.sort_desc (map entry_of c) = map entry_of (Topics.sort_desc c).
Proof.
  induction c as [|x c IH]; [reflexivity|]. simpl.
  rewrite IH. apply place_of_string.
Qed.

(** On a text of ASCII characters [extract_topics] returns what the model on
    strings returns. *)
Lemma extract_topics_of_string (u : unicode) (s : string) (n : Z) :
  python u -> ascii_text (of_string s) ->
  extract_topics u (of_string s) n
  = map of_string (Topics.extract_topics s n).
Proof.
  intros Hu Hs. unfold extract_topics, kept_words.
  rewrite (lower_of_string u Hu s Hs).
  pose proof (lower_ascii_text s Hs) as Hl.
  rewrite (strip_of_string u Hu _ Hl).
  rewrite (split_of_string u Hu _ (strip_ascii_text _ Hl)).
  rewrite filter_keep_of_string, Counter_of_string.
  unfold Ranking.most_common, Topics.extract_topics, Topics.most_common,
    Topics.kept_words.
  rewrite sort_desc_of_string, firstn_map, !map_map. reflexivity.
Qed.

Lemma python_ascii_only : python ascii_only.
Proof. split; reflexivity. Qed.

Definition tab : string := String "009"%char EmptyString.
Definition line_feed : string := String "010"%char EmptyString.

(** A text with capitals, punctuation inside and around words, a tab and a
    line feed as separators, and stop words of more than three letters. *)
Definition worried : string :=
  ("Don't WORRY, worry!" ++ tab ++ "Because yourselves: Happy?" ++ line_feed
   ++ "HAPPY happy (worry) e-mail")%string.

(** C8.  For every text (any characters) and every [n], with [tokens] the
    lower-cased text with every character deleted that is neither of a word
    nor white space, split at white space: [extract_topics] returns at most
    [n] tokens, and [n] of them unless it returns every token that is
    outside the stop-word set and longer than three characters; it returns
    no token twice and only tokens outside the stop-word set and longer than
    three characters; they are ordered by decreasing number of occurrences
    among the tokens, tokens with the same number in the order of their
    first occurrence; and every such token left out ranks after every one
    returned.  Stripping acts character by character and keeps the order;
    splitting drops white space and cuts at it and nowhere else.  On a text
    of ASCII characters the result is that of the model on strings, in which
    capitals are lowered, punctuation is deleted and the tab and the line
    feed separate words as the space does.  The empty text gives the empty
    list for every [n], and the text of the specification's example gives
    sadness, then happy. *)
Theorem top_keywords_ranked (u : unicode) :
  python u ->
  (forall (text : str) (n : Z),
      let tokens := split u (strip_punctuation u (lower u text)) in
      let out := extract_topics u text n in
      List.length out <= Z.to_nat n
      /\ (List.length out = Z.to_nat n
          \/ forall w, In w tokens -> ~ In w stop_words ->
                       3 < List.length w -> In w out)
      /\ NoDup out
      /\ (forall w, In w out ->
            In w tokens /\ ~ In w stop_words /\ 3 < List.length w)
      /\ StronglySorted (Ranking.outranks str_dec tokens) out
      /\ (forall a b,
            In a out -> In b tokens -> ~ In b stop_words ->
            3 < List.length b -> ~ In b out ->
            Ranking.outranks str_dec tokens a b))
  /\ (forall a b : str,
        strip_punctuation u (a ++ b)
        = strip_punctuation u a ++ strip_punctuation u b)
  /\ (forall c : N,
        strip_punctuation u [c]
        = if is_word u c || is_space u c then [c] else [])
  /\ split u [] = []
  /\ (forall (c : N) (t : str),
        is_space u c = true -> split u (c :: t) = split u t)
  /\ (forall w t : str,
        w <> [] ->
        Forall (fun c => is_space u c = false) w ->
        t = [] \/ (exists c t', t = c :: t' /\ is_space u c = true) ->
        split u (w ++ t) = w :: split u t)
  /\ (forall (s : string) (n : Z),
        ascii_text (of_string s) ->
        extract_topics u (of_string s) n
        = map of_string (Topics.extract_topics s n))
  /\ (forall n : Z, extract_topics u [] n = [])
  /\ extract_topics u (of_string "the the the sadness sadness happy") 2
     = [of_string "sadness"; of_string "happy"]
  /\ extract_topics u (of_string worried) 3
     = [of_string "worry"; of_string "happy"; of_string "dont"].
Proof.
  intros Hu.
  split; [intros text n; apply topics_ranked|].
  split; [apply strip_punctuation_app|].
  split; [reflexivity|].
  split; [reflexivity|].
  split; [apply split_space|].
  split; [apply split_word|].
  split; [intros s n Hs; apply extract_topics_of_string; assumption|].
  split.
  { intros n. destruct (topics_ranked u [] n) as [_ [_ [_ [H _]]]].
    destruct (extract_topics u [] n) as [|w out]; [reflexivity|].
    exfalso. destruct (H w (or_introl eq_refl)) as [Hw _].
    rewrite (lower_ascii u Hu [] (Forall_nil _)) in Hw. exact Hw. }
  split.
  - rewrite (extract_topics_of_string u _ 2 Hu);
      [reflexivity | unfold ascii_text; simpl; repeat constructor].
  - rewrite (extract_topics_of_string u _ 3 Hu);
      [reflexivity | unfold ascii_text; simpl; repeat constructor].
Qed.

Lemma top_keywords_ranked_witness :
  extract_topics ascii_only (of_string "the the the sadness sadness happy") 2
  = [of_string "sadness"; of_string "happy"]
  /\ extract_topics ascii_only (of_string worried) 3
     = [of_string "worry"; of_string "happy"; of_string "dont"].
Proof.
  destruct (top_keywords_ranked ascii_only python_ascii_only)
    as [_ [_ [_ [_ [_ [_ [_ [_ H]]]]]]]].
  exact H.
Defined.

End TextFacts.

(** ** Conversation analysis ([analyze_conversation]) *)

(** One entry of [st.session_state.messages]: the dict with the keys
    [role], [content] and [timestamp]. *)
Record message : Type := {
  role : string;
  content : string;
  timestamp : string
}.

Module TotalFinal.
Import Py.

(** The dict [analysis] built by [analyze_conversation] in [total-final.py]. *)
Record analysis : Type := {
  sentiment : float;
  emotional_state : string;
  topics : list string;
  message_lengths : list Z;
  total_messages : Z;
  user_message_count : Z;
  avg_message_length : float
}.

Section Analysis.

(** [analyze_sentiment]: the polarity of TextBlob, a library outside the
    repository. *)
Variable analyze_sentiment : string -> float.

(** [[msg["content"] for msg in messages if msg["role"] == "user"]]. *)
Definition user_messages (messages : list message) : list string :=
  map content (filter (fun msg => String.eqb (role msg) "user") messages).

Definition analyze_conversation (messages : list message)
    : result (option analysis) :=
  match messages with
  | [] => Returned None
  | _ =>
      let full_text := join " " (user_messages messages) in
      let sentiment := analyze_sentiment full_text in
      let emotional_state := Emotion.determine_emotional_state sentiment in
      let topics := Topics.extract_topics full_text 5 in
      let message_lengths := map (fun msg => word_count (content msg)) messages in
      bind (truediv (sum message_lengths)
                    (Z.of_nat (List.length message_lengths)))
        (fun avg =>
           Returned (Some {|
             sentiment := sentiment;
             emotional_state := emotional_state;
             topics := topics;
             message_lengths := message_lengths;
             total_messages := Z.of_nat (List.length messages);
             user_message_count :=
               Z.of_nat (List.length (user_messages messages));
             avg_message_length := avg |}))
  end.

End Analysis.

End TotalFinal.

Module Final.
Import Py.

(** The dict [analysis] built by [analyze_conversation] in [final.py]. *)
Record analysis : Type := {
  sentiment : float;
  topics : list string;
  message_lengths : list Z;
  total_messages : Z;
  avg_message_length : float
}.

Section Analysis.

Variable analyze_sentiment : string -> float.

Definition analyze_conversation (messages : list message)
    : result (option analysis) :=
  match messages with
  | [] => Returned None
  | _ =>
      let full_text := join " " (map content messages) in
      let message_lengths := map (fun msg => word_count (content msg)) messages in
      bind (truediv (sum message_lengths)
                    (Z.of_nat (List.length message_lengths)))
        (fun avg =>
           Returned (Some {|
             sentiment := analyze_sentiment full_text;
             topics := Topics.extract_topics full_text 5;
             message_lengths := message_lengths;
             total_messages := Z.of_nat (List.length messages);
             avg_message_length := avg |}))
  end.

End Analysis.

End Final.

Module AnalysisFacts.
Import Py.

Lemma truediv_positive (a b : Z) :
  (0 < b)%Z ->
  truediv a b = Returned (float_of_int a / float_of_int b)%float.
Proof.
  intros Hb. unfold truediv.
  destruct (Z.eqb_spec b 0) as [E|_]; [lia | reflexivity].
Qed.

Lemma lengths_positive (messages : list message) :
  messages <> [] ->
  (0 < Z.of_nat (List.length
                   (map (fun msg => word_count (content msg)) messages)))%Z.
Proof.
  destruct messages as [|m rest]; [congruence|]. intros _. simpl. lia.
Qed.

Lemma total_final_unfold (sent : string -> float) (messages : list message) :
  messages <> [] ->
  TotalFinal.analyze_conversation sent messages
  = let full_text := join " " (TotalFinal.user_messages messages) in
    let lengths := map (fun msg => word_count (content msg)) messages in
    Returned (Some {|
      TotalFinal.sentiment := sent full_text;
      TotalFinal.emotional_state :=
        Emotion.determine_emotional_state (sent full_text);
      TotalFinal.topics := Topics.extract_topics full_text 5;
      TotalFinal.message_lengths := lengths;
      TotalFinal.total_messages := Z.of_nat (List.length messages);
      TotalFinal.user_message_count :=
        Z.of_nat (List.length (TotalFinal.user_messages messages));
      TotalFinal.avg_message_length :=
        (float_of_int (sum lengths)
         / float_of_int (Z.of_nat (List.length lengths)))%float |}).
Proof.
  intros Hne. pose proof (lengths_positive messages Hne) as Hpos.
  destruct messages as [|m rest]; [congruence|].
  unfold TotalFinal.analyze_conversation.
  rewrite (truediv_positive _ _ Hpos). reflexivity.
Qed.

Lemma final_unfold (sent : string -> float) (messages : list message) :
  messages <> [] ->
  Final.analyze_conversation sent messages
  = let full_text := join " " (map content messages) in
    let lengths := map (fun msg => word_count (content msg)) messages in
    Returned (Some {|
      Final.sentiment := sent full_text;
      Final.topics := Topics.extract_topics full_text 5;
      Final.message_lengths := lengths;
      Final.total_messages := Z.of_nat (List.length messages);
      Final.avg_message_length :=
        (float_of_int (sum lengths)
         / float_of_int (Z.of_nat (List.length lengths)))%float |}).
Proof.
  intros Hne. pose proof (lengths_positive messages Hne) as Hpos.
  destruct messages as [|m rest]; [congruence|].
  unfold Final.analyze_conversation.
  rewrite (truediv_positive _ _ Hpos). reflexivity.
Qed.

Lemma sum_fold_right (xs : list Z) : sum xs = fold_right Z.add 0%Z xs.
Proof.
  unfold sum.
  assert (H : forall a, fold_left Z.add xs a = (a + fold_right Z.add 0 xs)%Z).
  { induction xs as [|x xs IH]; intros a; simpl; [lia|]. rewrite IH. lia. }
  rewrite H. lia.
Qed.

Definition sample_turns : list message :=
  [ {| role := "user"; content := "I feel great today";
       timestamp := "10:00 AM" |};
    {| role := "assistant"; content := "I'm glad to hear that.";
       timestamp := "10:00 AM" |} ].

(** C2.  [analyze_conversation] of [final.py] on a user turn followed by an
    assistant turn: the text given to the sentiment analysis is the join of
    both contents, and the topics hold words of the assistant turn (glad,
    hear).  [analyze_conversation] of [total-final.py] on the same turns
    scores the user turn alone and finds its three words.  The word counts,
    one per turn, and their mean are the same in both. *)
Theorem final_reads_assistant_turns (sent : string -> float) :
  Final.analyze_conversation sent sample_turns
  = Returned (Some {|
      Final.sentiment := sent "I feel great today I'm glad to hear that.";
      Final.topics := ["feel"; "great"; "today"; "glad"; "hear"];
      Final.message_lengths := [4%Z; 5%Z];
      Final.total_messages := 2%Z;
      Final.avg_message_length := 4.5%float |})
  /\ TotalFinal.analyze_conversation sent sample_turns
     = Returned (Some {|
         TotalFinal.sentiment := sent "I feel great today";
         TotalFinal.emotional_state :=
           Emotion.determine_emotional_state (sent "I feel great today");
         TotalFinal.topics := ["feel"; "great"; "today"];
         TotalFinal.message_lengths := [4%Z; 5%Z];
         TotalFinal.total_messages := 2%Z;
         TotalFinal.user_message_count := 1%Z;
         TotalFinal.avg_message_length := 4.5%float |}).
Proof. split; reflexivity. Qed.

(** In [final.py] this holds of every list of turns: the text analysed is
    the join of the contents of all of them. *)
Lemma final_reads_all_turns (sent : string -> float)
    (messages : list message) :
  messages <> [] ->
  exists a : Final.analysis,
    Final.analyze_conversation sent messages = Returned (Some a)
    /\ Final.sentiment a = sent (String.concat " " (map content messages))
    /\ Final.topics a
       = Topics.extract_topics (String.concat " " (map content messages)) 5.
Proof.
  intros Hne. eexists. split; [apply final_unfold, Hne|].
  split; reflexivity.
Qed.

(** X19.  On a non-empty list of turns [analyze_conversation] of
    [total-final.py] returns a bundle whose sentiment and topics are computed
    on the contents of the user turns joined by a space, and on nothing else:
    two lists of turns with the same user contents give the same sentiment,
    emotional state and topics, whatever their assistant turns are.  The
    emotional state is the label of the sentiment.  The word counts have one
    entry per turn, user and assistant alike, and (for totals a float holds
    exactly) the mean is their sum divided by the number of turns. *)
Theorem analysis_reads_user_turns
    (sent : string -> float) (messages : list message) :
  messages <> [] ->
  exists a : TotalFinal.analysis,
    TotalFinal.analyze_conversation sent messages = Returned (Some a)
    /\ TotalFinal.sentiment a
       = sent (String.concat " " (map content
            (filter (fun msg => String.eqb (role msg) "user") messages)))
    /\ TotalFinal.emotional_state a
       = Emotion.determine_emotional_state (TotalFinal.sentiment a)
    /\ TotalFinal.topics a
       = Topics.extract_topics (String.concat " " (map content
            (filter (fun msg => String.eqb (role msg) "user") messages))) 5
    /\ TotalFinal.message_lengths a
       = map (fun msg => Z.of_nat (List.length (split (content msg)))) messages
    /\ TotalFinal.total_messages a = Z.of_nat (List.length messages)
    /\ TotalFinal.user_message_count a
       = Z.of_nat (List.length
           (filter (fun msg => String.eqb (role msg) "user") messages))
    /\ ((fold_right Z.add 0 (TotalFinal.message_lengths a) < 2 ^ 53)%Z ->
        (Z.of_nat (List.length messages) < 2 ^ 53)%Z ->
        TotalFinal.avg_message_length a
        = (PrimFloat.of_uint63
             (Uint63.of_Z (fold_right Z.add 0%Z (TotalFinal.message_lengths a)))
           / PrimFloat.of_uint63
               (Uint63.of_Z (Z.of_nat (List.length messages))))%float)
    /\ (forall messages' : list message,
          messages' <> [] ->
          map content
            (filter (fun msg => String.eqb (role msg) "user") messages')
          = map content
              (filter (fun msg => String.eqb (role msg) "user") messages) ->
          exists a' : TotalFinal.analysis,
            TotalFinal.analyze_conversation sent messages' = Returned (Some a')
            /\ TotalFinal.sentiment a' = TotalFinal.sentiment a
            /\ TotalFinal.emotional_state a' = TotalFinal.emotional_state a
            /\ TotalFinal.topics a' = TotalFinal.topics a).
Proof.
  intros Hne. eexists. split; [apply total_final_unfold, Hne|].
  cbv zeta. simpl.
  split; [reflexivity|]. split; [reflexivity|]. split; [reflexivity|].
  split; [reflexivity|]. split; [reflexivity|].
  split; [unfold TotalFinal.user_messages; rewrite length_map; reflexivity|].
  split.
  - intros _ _. rewrite length_map, sum_fold_right. reflexivity.
  - intros messages' Hne' Huser. eexists.
    split; [apply total_final_unfold, Hne'|].
    cbv zeta. simpl. unfold TotalFinal.user_messages. rewrite Huser.
    repeat split; reflexivity.
Qed.

Lemma analysis_reads_user_turns_witness :
  exists a : TotalFinal.analysis,
    TotalFinal.analyze_conversation (fun _ => 0.5%float) sample_turns
    = Returned (Some a)
    /\ TotalFinal.topics a = ["feel"; "great"; "today"]
    /\ TotalFinal.message_lengths a = [4%Z; 5%Z]
    /\ TotalFinal.avg_message_length a = 4.5%float.
Proof.
  destruct (analysis_reads_user_turns (fun _ => 0.5%float) sample_turns)
    as [a [Ha [_ [_ [Ht [Hl [_ [_ [Havg _]]]]]]]]]; [discriminate|].
  exists a. split; [exact Ha|]. split; [exact Ht|]. split; [exact Hl|].
  rewrite Hl in Havg. rewrite Havg by reflexivity. reflexivity.
Defined.

(** C10.  In both variants [analyze_conversation] returns [None] on the
    empty message list, whatever the sentiment function is; whenever it
    returns a bundle the message list and the list of word counts are not
    empty and the divisor of the mean is strictly positive; and it never
    raises, in particular not [ZeroDivisionError]. *)
Theorem analysis_division_safe
    (sent : string -> float) (messages : list message) :
  (messages = [] ->
     TotalFinal.analyze_conversation sent messages = Returned None
     /\ Final.analyze_conversation sent messages = Returned None)
  /\ (forall a : TotalFinal.analysis,
        TotalFinal.analyze_conversation sent messages = Returned (Some a) ->
        messages <> []
        /\ TotalFinal.message_lengths a <> []
        /\ (0 < Z.of_nat (List.length (TotalFinal.message_lengths a)))%Z)
  /\ (forall a : Final.analysis,
        Final.analyze_conversation sent messages = Returned (Some a) ->
        messages <> []
        /\ Final.message_lengths a <> []
        /\ (0 < Z.of_nat (List.length (Final.message_lengths a)))%Z)
  /\ (forall e : exn,
        TotalFinal.analyze_conversation sent messages <> Raised e
        /\ Final.analyze_conversation sent messages <> Raised e).
Proof.
  destruct messages as [|m rest].
  - split; [intros _; split; reflexivity|].
    repeat split; try discriminate; intros a H; discriminate.
  - assert (Hne : m :: rest <> []) by discriminate.
    rewrite (total_final_unfold sent _ Hne), (final_unfold sent _ Hne).
    cbv zeta. split; [intros H; discriminate|].
    split; [|split].
    + intros a H. inversion H; subst; clear H. simpl.
      split; [discriminate|]. split; [discriminate|]. lia.
    + intros a H. inversion H; subst; clear H. simpl.
      split; [discriminate|]. split; [discriminate|]. lia.
    + intros e. split; discriminate.
Qed.

Lemma analysis_division_safe_witness :
  TotalFinal.analyze_conversation (fun _ => 0.5%float) [] = Returned None
  /\ Final.analyze_conversation (fun _ => 0.5%float) [] = Returned None.
Proof.
  exact (proj1 (analysis_division_safe (fun _ => 0.5%float) []) eq_refl).
Defined.

End AnalysisFacts.

(** ** The blocking client ([app.py], [send_message]) *)

Module App.
Import Py.

Definition MAX_RETRIES : nat := 3.

(** What [response.json()] gives on a 200 response: a dict, with or without
    the key ["response"], or an exception with text [text]. *)
Inductive payload : Type :=
| Object (response : option string)
| Invalid (text : string).

(** What one [requests.post(..., timeout=TIMEOUT)] does: it returns a
    response, or raises.  [Timeout] stands for every exception caught by
    [except requests.exceptions.Timeout], [ConnectionError] for those that
    reach [except requests.exceptions.ConnectionError], [OtherError] for the
    rest, with [text] the value of [str(e)]. *)
Inductive post_outcome : Type :=
| Response (status_code : Z) (body : payload)
| Timeout
| ConnectionError
| OtherError (text : string).

(** The observable steps of a call: a request sent, a [time.sleep]. *)
Inductive event : Type :=
| Post (prompt : string)
| Sleep (seconds : nat).

Definition nl : string := String (ascii_of_nat 10) EmptyString.

(** [messages[-5:]]. *)
Definition last_five (messages : list message) : list message :=
  skipn (List.length messages - 5) messages.

Definition context_of (messages : list message) : string :=
  join nl
    (map (fun msg =>
            ((if String.eqb (role msg) "user" then "User" else "Assistant")
             ++ ": " ++ content msg)%string)
         (last_five messages)).

Definition prompt_of (messages : list message) (message : string) : string :=
  ("Context:" ++ nl ++ context_of messages ++ nl ++ nl
   ++ "User: " ++ message ++ nl ++ "Assistant:")%string.

Definition max_retries_message : string :=
  "Error: Maximum retries reached. Please try again later.".

Definition connection_message : string :=
  "Error: Could not connect to Ollama server. Please ensure it is running.".

Definition default_reply : string :=
  "I apologize, but I couldn't generate a response.".

(** The branch [response.status_code == 200]. *)
Definition reply_of (body : payload) : string :=
  match body with
  | Object (Some r) => r
  | Object None => default_reply
  | Invalid text => ("Error: " ++ text)%string
  end.

(** [send_message message retries]: [backend i] is the outcome of the
    request sent while [retries = i]; the result is the returned text and the
    steps taken, in order.  Every path of the source ends in a [return], the
    last handler being [except Exception]. *)
Equations? send_message (backend : nat -> post_outcome)
    (messages : list message) (message : string) (retries : nat)
    : string * list event by wf (MAX_RETRIES - retries) lt :=
  send_message backend messages message retries
    with le_lt_dec MAX_RETRIES retries := {
    | left _ => (max_retries_message, []);
    | right _ with backend retries := {
      | Response status_code body with (status_code =? 200)%Z := {
        | true => (reply_of body, [Post (prompt_of messages message)]);
        | false =>
            (fst (send_message backend messages message (S retries)),
             Post (prompt_of messages message) :: Sleep 1
               :: snd (send_message backend messages message (S retries))) };
      | Timeout =>
          (fst (send_message backend messages message (S retries)),
           Post (prompt_of messages message) :: Sleep 2
             :: snd (send_message backend messages message (S retries)));
      | ConnectionError =>
          (connection_message, [Post (prompt_of messages message)]);
      | OtherError text =>
          (("Error: " ++ text)%string,
           [Post (prompt_of messages message)]) } }.
Proof.
  all: unfold MAX_RETRIES in *;
    do 3 (destruct retries as [|retries]; [lia|]); lia.
Qed.

(** The retry rule in the specification's words: the wait before a retry,
    for the outcomes that are retried. *)
Definition retry_wait (o : post_outcome) : option nat :=
  match o with
  | Response status_code _ =>
      if (status_code =? 200)%Z then None else Some 1
  | Timeout => Some 2
  | ConnectionError => None
  | OtherError _ => None
  end.

Definition wait_at (backend : nat -> post_outcome) (i : nat) : nat :=
  match retry_wait (backend i) with
  | Some w => w
  | None => 0
  end.

Definition posts (t : list event) : nat :=
  List.length (filter (fun e => match e with Post _ => true | _ => false end) t).

Definition sleeps (t : list event) : nat :=
  List.length (filter (fun e => match e with Sleep _ => true | _ => false end) t).

(** The steps of the retried requests [r], ..., [r + k - 1]: each is a
    request followed by its wait. *)
Definition retried (backend : nat -> post_outcome) (prompt : string)
    (r k : nat) : list event :=
  flat_map (fun i => [Post prompt; Sleep (wait_at backend i)]) (seq r k).

Section Client.

Variable backend : nat -> post_outcome.
Variable messages : list message.
Variable message : string.

Let run := send_message backend messages message.
Let prompt := prompt_of messages message.

(** The body of [send_message], as one equation. *)
Lemma send_message_body (retries : nat) :
  run retries =
  if MAX_RETRIES <=? retries then (max_retries_message, [])
  else match backend retries with
       | Response status_code body =>
           if (status_code =? 200)%Z then (reply_of body, [Post prompt])
           else (fst (run (S retries)),
                 Post prompt :: Sleep 1 :: snd (run (S retries)))
       | Timeout =>
           (fst (run (S retries)),
            Post prompt :: Sleep 2 :: snd (run (S retries)))
       | ConnectionError => (connection_message, [Post prompt])
       | OtherError text => (("Error: " ++ text)%string, [Post prompt])
       end.
Proof.
  unfold run, prompt. rewrite send_message_equation_1.
  destruct (le_lt_dec MAX_RETRIES retries) as [Hge|Hlt]; simp send_message.
  - rewrite (proj2 (Nat.leb_le _ _) Hge). reflexivity.
  - rewrite (proj2 (Nat.leb_gt _ _) Hlt).
    destruct (backend retries) as [code body| | |text]; simp send_message;
      try reflexivity.
    destruct (code =? 200)%Z; simp send_message; reflexivity.
Qed.

Lemma run_exhausted (retries : nat) :
  MAX_RETRIES <= retries -> run retries = (max_retries_message, []).
Proof.
  intros H. rewrite send_message_body.
  apply (proj2 (Nat.leb_le _ _)) in H. rewrite H. reflexivity.
Qed.

Lemma run_retry (retries w : nat) :
  retries < MAX_RETRIES -> retry_wait (backend retries) = Some w ->
  run retries
  = (fst (run (S retries)),
     Post prompt :: Sleep w :: snd (run (S retries))).
Proof.
  intros Hlt Hw. rewrite send_message_body.
  apply (proj2 (Nat.leb_gt _ _)) in Hlt. rewrite Hlt.
  destruct (backend retries) as [code body| | |text]; simpl in Hw;
    try discriminate.
  - destruct (code =? 200)%Z; [discriminate|].
    inversion Hw; subst. reflexivity.
  - inversion Hw; subst. reflexivity.
Qed.

Lemma run_connection_error (retries : nat) :
  retries < MAX_RETRIES -> backend retries = ConnectionError ->
  run retries = (connection_message, [Post prompt]).
Proof.
  intros Hlt Hc. rewrite send_message_body.
  apply (proj2 (Nat.leb_gt _ _)) in Hlt. rewrite Hlt, Hc. reflexivity.
Qed.

(** [k] retried requests in a row, from [retries] on. *)
Lemma run_retried (k retries : nat) :
  retries + k <= MAX_RETRIES ->
  (forall i, retries <= i < retries + k -> retry_wait (backend i) <> None) ->
  run retries
  = (fst (run (retries + k)),
     retried backend prompt retries k ++ snd (run (retries + k))).
Proof.
  revert retries. induction k as [|k IH]; intros retries Hle Hall.
  - rewrite Nat.add_0_r. unfold retried. simpl.
    destruct (run retries); reflexivity.
  - assert (Hw : retry_wait (backend retries) <> None) by (apply Hall; lia).
    destruct (retry_wait (backend retries)) as [w|] eqn:E; [|congruence].
    rewrite (run_retry retries w) by (assumption || lia).
    rewrite (IH (S retries)) by (try lia; intros i Hi; apply Hall; lia).
    replace (S retries + k) with (retries + S k) by lia.
    unfold retried, wait_at. simpl. rewrite E. reflexivity.
Qed.

Lemma run_bounds (d retries : nat) :
  MAX_RETRIES - retries = d ->
  posts (snd (run retries)) <= d /\ sleeps (snd (run retries)) <= d.
Proof.
  revert retries. induction d as [|d IH]; intros retries Hd.
  - rewrite run_exhausted by lia. simpl. split; constructor.
  - assert (Hlt : retries < MAX_RETRIES) by lia.
    assert (Hd' : MAX_RETRIES - S retries = d) by lia.
    destruct (IH (S retries) Hd') as [Hp Hs].
    rewrite send_message_body.
    apply (proj2 (Nat.leb_gt _ _)) in Hlt. rewrite Hlt.
    unfold posts, sleeps in *.
    destruct (backend retries) as [code body| | |text]; simpl;
      try (split; lia).
    destruct (code =? 200)%Z; simpl; split; lia.
Qed.

End Client.

(** C3.  For every sequence of backend outcomes and every message,
    [send_message] sends at most [MAX_RETRIES] = 3 requests and sleeps at most
    3 times.  While the outcomes are a status other than 200 or a timeout it
    sleeps (1 unit after the status, 2 after the timeout) and calls itself
    again; once [retries] reaches 3 it returns the text "Error: Maximum
    retries reached. Please try again later." as its value.  A connection
    error at request [k] ends the call at once with the text "Error: Could not
    connect to Ollama server. Please ensure it is running.": the steps end
    with that request, with no sleep and no request after it. *)
Theorem send_message_retry_policy
    (backend : nat -> post_outcome) (messages : list message)
    (message : string) :
  posts (snd (send_message backend messages message 0)) <= MAX_RETRIES
  /\ sleeps (snd (send_message backend messages message 0)) <= MAX_RETRIES
  /\ (forall (i : nat) (status_code : Z) (body : payload),
        backend i = Response status_code body -> status_code <> 200%Z ->
        retry_wait (backend i) = Some 1)
  /\ (forall i : nat, backend i = Timeout -> retry_wait (backend i) = Some 2)
  /\ ((forall i, i < MAX_RETRIES -> retry_wait (backend i) <> None) ->
      send_message backend messages message 0
      = (max_retries_message,
         retried backend (prompt_of messages message) 0 MAX_RETRIES))
  /\ (forall k : nat,
        k < MAX_RETRIES ->
        (forall i, i < k -> retry_wait (backend i) <> None) ->
        backend k = ConnectionError ->
        send_message backend messages message 0
        = (connection_message,
           retried backend (prompt_of messages message) 0 k
           ++ [Post (prompt_of messages message)])).
Proof.
  split; [apply (run_bounds backend messages message MAX_RETRIES 0 eq_refl)|].
  split; [apply (run_bounds backend messages message MAX_RETRIES 0 eq_refl)|].
  split.
  { intros i code body E Hc. rewrite E. simpl.
    destruct (Z.eqb_spec code 200); [contradiction | reflexivity]. }
  split; [intros i E; rewrite E; reflexivity|].
  split.
  - intros Hall.
    rewrite (run_retried backend messages message MAX_RETRIES 0)
      by (try lia; intros i Hi; apply Hall; lia).
    rewrite (run_exhausted backend messages message) by (simpl; lia).
    cbn [fst snd]. rewrite app_nil_r. reflexivity.
  - intros k Hk Hall Hc.
    rewrite (run_retried backend messages message k 0)
      by (try lia; intros i Hi; apply Hall; lia).
    cbn [Nat.add].
    rewrite (run_connection_error backend messages message k Hk Hc).
    reflexivity.
Qed.

(** A backend that answers 503, then times out, then times out again, and
    one that refuses the connection on the second request. *)
Lemma send_message_retry_policy_witness :
  send_message
    (fun i => match i with 0 => Response 503 (Invalid "") | _ => Timeout end)
    [] "hello" 0
  = (max_retries_message,
     [Post (prompt_of [] "hello"); Sleep 1;
      Post (prompt_of [] "hello"); Sleep 2;
      Post (prompt_of [] "hello"); Sleep 2])
  /\ send_message
       (fun i => match i with 0 => Timeout | _ => ConnectionError end)
       [] "hello" 0
     = (connection_message,
        [Post (prompt_of [] "hello"); Sleep 2; Post (prompt_of [] "hello")]).
Proof.
  split.
  - apply (proj1 (proj2 (proj2 (proj2 (proj2
      (send_message_retry_policy
         (fun i => match i with
                   | 0 => Response 503 (Invalid "")
                   | _ => Timeout
                   end) [] "hello")))))).
    intros [|[|[|i]]] Hi; simpl; discriminate.
  - apply (proj2 (proj2 (proj2 (proj2 (proj2
      (send_message_retry_policy
         (fun i => match i with 0 => Timeout | _ => ConnectionError end)
         [] "hello"))))) 1).
    + unfold MAX_RETRIES. lia.
    + intros [|i] Hi; simpl; [discriminate | lia].
    + reflexivity.
Defined.

End App.

(** ** The SQLite store ([history.py], and [save_message] of the chat apps) *)

Module Sqlite.
Import Py.

(** A row of the table [conversations].  The column [topics] holds the text
    [json.dumps(topics)]; the model keeps the list that text encodes.
    Timestamps ([CURRENT_TIMESTAMP], a text of fixed width compared as text)
    are modelled by the number of seconds they denote. *)
Record conversation_row : Type := {
  conv_id : Z;
  conv_session_id : string;
  conv_timestamp : Z;
  conv_sentiment : option float;
  conv_topics : option (list string)
}.

(** A row of the table [messages]. *)
Record message_row : Type := {
  msg_id : Z;
  msg_conversation_id : Z;
  msg_role : string;
  msg_content : string;
  msg_timestamp : Z
}.

(** The database file: both tables, rows in row-id order. *)
Record database : Type := {
  conversations : list conversation_row;
  messages : list message_row
}.

Definition empty : database := {| conversations := []; messages := [] |}.

(** [AUTOINCREMENT]: one more than the largest id in use. *)
Definition next_id (ids : list Z) : Z := (fold_right Z.max 0 ids + 1)%Z.

(** Foreign-key enforcement of a connection.  SQLite opens every connection
    with it off, and no file of the repository executes
    [PRAGMA foreign_keys = ON]. *)
Definition foreign_keys : bool := false.

Definition known (db : database) (conversation_id : Z) : bool :=
  existsb (fun c => (conv_id c =? conversation_id)%Z) (conversations db).

(** The range of an SQLite [INTEGER].  The module [sqlite3] binds a Python
    [int] parameter as a signed 64-bit integer and raises [OverflowError],
    before the statement runs, for an [int] outside that range. *)
Definition int64 (n : Z) : bool := (- 2 ^ 63 <=? n)%Z && (n <? 2 ^ 63)%Z.

(** What a column of affinity [REAL] gives back for a [float] bound to it:
    SQLite turns a NaN into [NULL], and writes a value without fractional
    part as an integer, so that the negative zero is read back as [0.0];
    every other value is read back as it was bound. *)
Definition stored_real (x : float) : option float :=
  match PrimFloat.classify x with
  | NaN => None
  | NZero => Some 0%float
  | _ => Some x
  end.

(** [INSERT INTO messages (conversation_id, role, content) VALUES (?, ?, ?)]
    at time [now], on a connection with foreign keys enforced or not. *)
Definition insert_message (enforce : bool) (db : database)
    (conversation_id : Z) (role content : string) (now : Z)
    : result database :=
  if enforce && negb (known db conversation_id)
  then Raised (IntegrityError "FOREIGN KEY constraint failed")
  else Returned {|
         conversations := conversations db;
         messages :=
           messages db
           ++ [ {| msg_id := next_id (map msg_id (messages db));
                   msg_conversation_id := conversation_id;
                   msg_role := role;
                   msg_content := content;
                   msg_timestamp := now |} ] |}.

(** [ORDER BY timestamp].  SQL leaves the order of rows with equal keys
    open; the rows reach the sorter in row-id order and the model keeps that
    order among equal timestamps. *)
Fixpoint insert_by_timestamp (m : message_row) (l : list message_row)
    : list message_row :=
  match l with
  | [] => [m]
  | m' :: rest =>
      if (msg_timestamp m <=? msg_timestamp m')%Z then m :: m' :: rest
      else m' :: insert_by_timestamp m rest
  end.

Definition order_by_timestamp (rows : list message_row) : list message_row :=
  fold_right insert_by_timestamp [] rows.

End Sqlite.

Module History.
Import Py Sqlite.

(** One dict of the list returned by [get_conversation_history]. *)
Record turn : Type := {
  turn_role : string;
  turn_content : string;
  turn_timestamp : Z
}.

(** [start_new_conversation]: the new store and [cursor.lastrowid]. *)
Definition start_new_conversation (db : database) (session_id : string)
    (now : Z) : database * Z :=
  let id := next_id (map conv_id (conversations db)) in
  ({| conversations :=
        conversations db
        ++ [ {| conv_id := id; conv_session_id := session_id;
                conv_timestamp := now; conv_sentiment := None;
                conv_topics := None |} ];
      messages := messages db |}, id).

(** [add_message]: the id is bound as an SQLite integer, then the [INSERT]
    runs on a connection opened with the defaults. *)
Definition add_message (db : database) (conversation_id : Z)
    (role content : string) (now : Z) : result database :=
  if int64 conversation_id
  then insert_message foreign_keys db conversation_id role content now
  else Raised OverflowError.

Definition get_conversation_history (db : database) (conversation_id : Z)
    : list turn :=
  map (fun m => {| turn_role := msg_role m;
                   turn_content := msg_content m;
                   turn_timestamp := msg_timestamp m |})
      (order_by_timestamp
         (filter (fun m => (msg_conversation_id m =? conversation_id)%Z)
                 (messages db))).

(** [UPDATE conversations SET sentiment = ?, topics = ? WHERE id = ?], the
    id bound as an SQLite integer and the sentiment as a [REAL]. *)
Definition update_conversation_analysis (db : database) (conversation_id : Z)
    (sentiment : float) (topics : list string) : result database :=
  if int64 conversation_id
  then Returned {|
    conversations :=
      map (fun c =>
             if (conv_id c =? conversation_id)%Z
             then {| conv_id := conv_id c;
                     conv_session_id := conv_session_id c;
                     conv_timestamp := conv_timestamp c;
                     conv_sentiment := stored_real sentiment;
                     conv_topics := Some topics |}
             else c)
          (conversations db);
    messages := messages db |}
  else Raised OverflowError.

(** One call of [add_message], with the clock reading at the call. *)
Record append : Type := {
  to_conversation : Z;
  with_role : string;
  with_content : string;
  at_time : Z
}.

(** A sequence of [add_message] calls. *)
Fixpoint add_messages (db : database) (calls : list append)
    : result database :=
  match calls with
  | [] => Returned db
  | a :: rest =>
      bind (add_message db (to_conversation a) (with_role a)
              (with_content a) (at_time a))
           (fun db' => add_messages db' rest)
  end.

End History.

Module HistoryFacts.
Import Py Sqlite History.

Definition earlier (a b : message_row) : Prop :=
  (msg_timestamp a <= msg_timestamp b)%Z.

Lemma sorted_of_timestamps (l : list message_row) :
  StronglySorted Z.le (map msg_timestamp l) -> StronglySorted earlier l.
Proof. exact (Lists.StronglySorted_map msg_timestamp Z.le l). Qed.

Lemma timestamps_of_sorted (l : list message_row) :
  StronglySorted earlier l -> StronglySorted Z.le (map msg_timestamp l).
Proof. exact (Lists.StronglySorted_map_inv msg_timestamp Z.le l). Qed.

Lemma insert_by_timestamp_In (m x : message_row) (l : list message_row) :
  In x (insert_by_timestamp m l) <-> x = m \/ In x l.
Proof.
  induction l as [|m' l IH]; simpl.
  - intuition.
  - destruct (msg_timestamp m <=? msg_timestamp m')%Z; simpl; [intuition|].
    rewrite IH. intuition.
Qed.

Lemma insert_by_timestamp_sorted (m : message_row) (l : list message_row) :
  StronglySorted earlier l -> StronglySorted earlier (insert_by_timestamp m l).
Proof.
  induction 1 as [|m' l Hs IH Hall]; simpl.
  - repeat constructor.
  - rewrite Forall_forall in Hall.
    destruct (Z.leb_spec (msg_timestamp m) (msg_timestamp m')) as [Hle|Hgt].
    + constructor; [constructor; [assumption | rewrite Forall_forall; assumption]|].
      rewrite Forall_forall. intros x [<-|Hx]; [exact Hle|].
      unfold earlier in *. specialize (Hall x Hx). lia.
    + constructor; [assumption|].
      rewrite Forall_forall. intros x Hx.
      apply insert_by_timestamp_In in Hx. destruct Hx as [->|Hx].
      * unfold earlier. lia.
      * apply Hall, Hx.
Qed.

(** The result of [ORDER BY timestamp] is ordered, whatever the table holds. *)
Lemma order_by_timestamp_sorted (rows : list message_row) :
  StronglySorted earlier (order_by_timestamp rows).
Proof.
  induction rows as [|m rows IH]; simpl; [constructor|].
  apply insert_by_timestamp_sorted, IH.
Qed.

(** Rows already in timestamp order come back in row-id order. *)
Lemma order_by_timestamp_fixed (rows : list message_row) :
  StronglySorted earlier rows -> order_by_timestamp rows = rows.
Proof.
  induction 1 as [|m rows Hs IH Hall]; simpl; [reflexivity|].
  rewrite IH. destruct rows as [|m' rows]; [reflexivity|]. simpl.
  inversion Hall as [|? ? Hm' _]; subst. unfold earlier in Hm'.
  destruct (Z.leb_spec (msg_timestamp m) (msg_timestamp m'));
    [reflexivity | lia].
Qed.

(** The call a row was written by. *)
Definition call_of (m : message_row) : append :=
  {| to_conversation := msg_conversation_id m;
     with_role := msg_role m;
     with_content := msg_content m;
     at_time := msg_timestamp m |}.

Lemma int64_inside (n : Z) :
  int64 n = true <-> (- 2 ^ 63 <= n < 2 ^ 63)%Z.
Proof.
  unfold int64. rewrite andb_true_iff, Z.leb_le, Z.ltb_lt. tauto.
Qed.

Lemma int64_outside (n : Z) :
  int64 n = false <-> (n < - 2 ^ 63 \/ 2 ^ 63 <= n)%Z.
Proof.
  unfold int64. rewrite andb_false_iff, Z.leb_gt, Z.ltb_ge. tauto.
Qed.

(** The ids of the calls are SQLite integers. *)
Definition bindable (calls : list append) : Prop :=
  Forall (fun a => (- 2 ^ 63 <= to_conversation a < 2 ^ 63)%Z) calls.

(** With an id it can bind, [add_message] does not raise and appends exactly
    the row of its call. *)
Lemma add_message_appends (db : database) (a : append) :
  (- 2 ^ 63 <= to_conversation a < 2 ^ 63)%Z ->
  exists m : message_row,
    add_message db (to_conversation a) (with_role a) (with_content a)
      (at_time a)
    = Returned {| conversations := conversations db;
                  messages := messages db ++ [m] |}
    /\ call_of m = a.
Proof.
  intros Hid. apply int64_inside in Hid.
  unfold add_message, insert_message, foreign_keys. rewrite Hid.
  simpl. eexists. split; [reflexivity|]. destruct a; reflexivity.
Qed.

Lemma add_messages_appends (calls : list append) (db : database) :
  bindable calls ->
  exists rows : list message_row,
    add_messages db calls
    = Returned {| conversations := conversations db;
                  messages := messages db ++ rows |}
    /\ map call_of rows = calls.
Proof.
  intros Hids. revert db.
  induction Hids as [|a calls Ha Hids IH]; intros db; cbn [add_messages].
  - exists []. rewrite app_nil_r. destruct db; split; reflexivity.
  - destruct (add_message_appends db a Ha) as [m [E Hm]]. rewrite E.
    cbn [bind].
    destruct (IH {| conversations := conversations db;
                    messages := messages db ++ [m] |}) as [rows [E' Hrows]].
    exists (m :: rows). simpl in *. rewrite E', <- app_assoc. simpl.
    split; [reflexivity|]. rewrite Hm, Hrows. reflexivity.
Qed.

(** An id outside the SQLite integers is refused before anything is
    written. *)
Lemma add_message_overflow (db : database) (conversation_id : Z)
    (role content : string) (now : Z) :
  (conversation_id < - 2 ^ 63 \/ 2 ^ 63 <= conversation_id)%Z ->
  add_message db conversation_id role content now = Raised OverflowError.
Proof.
  intros H. apply int64_outside in H. unfold add_message. rewrite H.
  reflexivity.
Qed.

Lemma filter_call_of (conversation_id : Z) (rows : list message_row) :
  map call_of
    (filter (fun m => (msg_conversation_id m =? conversation_id)%Z) rows)
  = filter (fun a => (to_conversation a =? conversation_id)%Z)
      (map call_of rows).
Proof.
  induction rows as [|m rows IH]; simpl; [reflexivity|].
  destruct (msg_conversation_id m =? conversation_id)%Z; simpl;
    rewrite IH; reflexivity.
Qed.

Lemma history_of_sorted (db : database) (conversation_id : Z) :
  StronglySorted earlier
    (filter (fun m => (msg_conversation_id m =? conversation_id)%Z)
            (messages db)) ->
  get_conversation_history db conversation_id
  = map (fun m => {| turn_role := msg_role m;
                     turn_content := msg_content m;
                     turn_timestamp := msg_timestamp m |})
        (filter (fun m => (msg_conversation_id m =? conversation_id)%Z)
                (messages db)).
Proof.
  intros Hs. unfold get_conversation_history.
  rewrite (order_by_timestamp_fixed _ Hs). reflexivity.
Qed.

Lemma history_timestamps_sorted (db : database) (conversation_id : Z) :
  StronglySorted Z.le
    (map turn_timestamp (get_conversation_history db conversation_id)).
Proof.
  unfold get_conversation_history. rewrite map_map. simpl.
  apply timestamps_of_sorted, order_by_timestamp_sorted.
Qed.

(** C6 (amended).  Take any store and any conversation whose rows are in
    timestamp order, and any sequence of [add_message] calls (to this
    conversation or to others, with ids that are SQLite integers) made while
    the clock [CURRENT_TIMESTAMP] reads does not go back.  Every call
    returns, and [get_conversation_history] then yields the turns the
    conversation had, followed by the (role, content) pairs of the calls to
    it, in the order of the calls; the timestamps read back never decrease.
    For a conversation with no row yet this is the round trip of the N turns
    appended. *)
Theorem history_round_trip
    (db : database) (conversation_id : Z) (calls : list append) :
  (- 2 ^ 63 <= conversation_id < 2 ^ 63)%Z ->
  bindable calls ->
  StronglySorted Z.le
    (map msg_timestamp
       (filter (fun m => (msg_conversation_id m =? conversation_id)%Z)
               (messages db))
     ++ map at_time
          (filter (fun a => (to_conversation a =? conversation_id)%Z) calls)) ->
  exists db' : database,
    add_messages db calls = Returned db'
    /\ map (fun t => (turn_role t, turn_content t))
           (get_conversation_history db' conversation_id)
       = map (fun t => (turn_role t, turn_content t))
             (get_conversation_history db conversation_id)
         ++ map (fun a => (with_role a, with_content a))
              (filter (fun a => (to_conversation a =? conversation_id)%Z)
                      calls)
    /\ StronglySorted Z.le
         (map turn_timestamp (get_conversation_history db' conversation_id)).
Proof.
  intros _ Hids Hclock.
  destruct (add_messages_appends calls db Hids) as [rows [E Hrows]].
  eexists. split; [exact E|].
  split; [|apply history_timestamps_sorted].
  set (mine := fun m => (msg_conversation_id m =? conversation_id)%Z) in *.
  assert (Hnew : map at_time
                   (filter (fun a => (to_conversation a =? conversation_id)%Z)
                           calls)
                 = map msg_timestamp (filter mine rows)).
  { rewrite <- Hrows, <- filter_call_of, map_map. reflexivity. }
  rewrite Hnew, <- map_app, <- filter_app in Hclock.
  apply sorted_of_timestamps in Hclock.
  assert (Hold : StronglySorted earlier (filter mine (messages db))).
  { rewrite filter_app in Hclock.
    apply Lists.StronglySorted_app_cross in Hclock. tauto. }
  rewrite (history_of_sorted db conversation_id Hold).
  rewrite history_of_sorted by exact Hclock.
  cbn [messages]. fold mine. rewrite filter_app, !map_app, !map_map.
  cbn [turn_role turn_content]. f_equal.
  rewrite <- Hrows, <- filter_call_of, map_map. reflexivity.
Qed.

(** Three turns of a fresh conversation, two of them within the same second,
    with a turn of another conversation in between. *)
Lemma history_round_trip_witness :
  exists db' : database,
    add_messages empty
      [ {| to_conversation := 1; with_role := "user";
           with_content := "I feel great today"; at_time := 100 |};
        {| to_conversation := 1; with_role := "assistant";
           with_content := "I'm glad to hear that."; at_time := 100 |};
        {| to_conversation := 2; with_role := "user";
           with_content := "hello"; at_time := 101 |};
        {| to_conversation := 1; with_role := "user";
           with_content := "thanks"; at_time := 105 |} ]%Z
    = Returned db'
    /\ map (fun t => (turn_role t, turn_content t))
           (get_conversation_history db' 1)
       = [ ("user", "I feel great today");
           ("assistant", "I'm glad to hear that.");
           ("user", "thanks") ]
    /\ StronglySorted Z.le
         (map turn_timestamp (get_conversation_history db' 1)).
Proof.
  apply (history_round_trip empty 1%Z).
  - lia.
  - repeat constructor; simpl; lia.
  - simpl. repeat constructor; lia.
Defined.

(** C6 as the specification states it fails when the clock steps back
    between two calls: the turn appended second, stamped one second earlier,
    is read back first. *)
Lemma history_clock_step_back :
  exists db' : database,
    add_messages empty
      [ {| to_conversation := 1; with_role := "user";
           with_content := "first"; at_time := 100 |};
        {| to_conversation := 1; with_role := "assistant";
           with_content := "second"; at_time := 99 |} ]%Z
    = Returned db'
    /\ map (fun t => (turn_role t, turn_content t))
           (get_conversation_history db' 1)
       = [ ("assistant", "second"); ("user", "first") ]
    /\ map (fun t => (turn_role t, turn_content t))
           (get_conversation_history db' 1)
       <> [ ("user", "first"); ("assistant", "second") ].
Proof. eexists. split; [reflexivity|]. split; [reflexivity | discriminate]. Qed.

(** A store with one conversation, of id 1, already analysed. *)
Definition one_conversation_store : database :=
  {| conversations :=
       [ {| conv_id := 1; conv_session_id := "session"; conv_timestamp := 5;
            conv_sentiment := Some 0.25%float; conv_topics := Some ["happy"] |} ];
     messages := [] |}.

(** C5 (amended).  For a conversation id, an SQLite integer, that no row of
    [conversations] carries, [update_conversation_analysis] does not fail:
    the [UPDATE] matches no row, the call returns and the store is as
    before, whatever sentiment and topics are given. *)
Theorem unknown_conversation_update_ignored
    (db : database) (conversation_id : Z)
    (sentiment : float) (topics : list string) :
  (- 2 ^ 63 <= conversation_id < 2 ^ 63)%Z ->
  known db conversation_id = false ->
  update_conversation_analysis db conversation_id sentiment topics
  = Returned db.
Proof.
  intros Hid Hunknown. apply int64_inside in Hid.
  unfold update_conversation_analysis. rewrite Hid.
  destruct db as [convs msgs].
  simpl. f_equal. f_equal. unfold known in Hunknown. simpl in Hunknown.
  induction convs as [|c convs IH]; simpl in *; [reflexivity|].
  apply orb_false_iff in Hunknown. destruct Hunknown as [Hc Hrest].
  rewrite Hc, (IH Hrest). reflexivity.
Qed.

Lemma unknown_conversation_update_ignored_witness :
  update_conversation_analysis one_conversation_store 42 0.5%float ["sadness"]
  = Returned one_conversation_store.
Proof.
  apply (unknown_conversation_update_ignored one_conversation_store 42%Z
           0.5%float ["sadness"]); [lia | reflexivity].
Defined.

(** C5 as the specification states it fails: on the empty store
    [add_message] with the unknown id 42 returns and the table [messages]
    holds one row afterwards; [update_conversation_analysis] returns too. *)
Lemma unknown_conversation_row_inserted :
  (exists db' : database,
      add_message empty 42 "user" "hello" 7 = Returned db'
      /\ List.length (messages db') = 1)
  /\ update_conversation_analysis empty 42 0.5%float ["sadness"]
     = Returned empty.
Proof. split; [eexists; split; reflexivity | reflexivity]. Qed.

(** The schema declares [FOREIGN KEY (conversation_id) REFERENCES
    conversations(id)]; on a connection that enforced it the same insertion
    would be refused. *)
Lemma enforced_insert_refused :
  insert_message true empty 42 "user" "hello" 7
  = Raised (IntegrityError "FOREIGN KEY constraint failed").
Proof. reflexivity. Qed.

(** Outside the SQLite integers the id cannot be bound and the update is
    refused. *)
Lemma update_overflow (db : database) (conversation_id : Z)
    (sentiment : float) (topics : list string) :
  (conversation_id < - 2 ^ 63 \/ 2 ^ 63 <= conversation_id)%Z ->
  update_conversation_analysis db conversation_id sentiment topics
  = Raised OverflowError.
Proof.
  intros H. apply int64_outside in H.
  unfold update_conversation_analysis. rewrite H. reflexivity.
Qed.

End HistoryFacts.

(** ** The streaming client and the submit path ([total-final.py],
    [stream_response], [save_message] and [display_chat_page]) *)

Module Chat.
Import Py Sqlite.

(** One line of the streamed body, as the loop treats it: an empty line
    ([if line:] is false), a JSON object with or without the key
    ["response"], or a line whose handling raises, [text] being [str(e)]. *)
Inductive line : Type :=
| Blank
| Fragment (token : option string)
| Garbled (text : string).

(** One step of [response.iter_lines()]: the next line, or an exception of
    the transport.  The end of the list is the end of the stream. *)
Inductive pull : Type :=
| Line (l : line)
| Broken (text : string).

(** What [requests.post(..., stream=True, timeout=TIMEOUT)] does: it raises,
    or returns a response whose lines are then read.  The status code is not
    looked at. *)
Inductive post_outcome : Type :=
| Refused (text : string)
| Opened (body : list pull).

(** How a call of [stream_response] ends: the stream was read to its end, the
    loop was left by [break], or an exception was caught. *)
Inductive ending : Type :=
| Completed
| Cancelled
| Failed.

(** The returned text, the way the call ended, and the partial texts written
    to [response_container], in order. *)
Record streamed : Type := {
  reply : string;
  ended : ending;
  shown : list string
}.

(** [json_response.get("response", "")]. *)
Definition token_of (token : option string) : string :=
  match token with
  | Some t => t
  | None => ""
  end.

(** The [for] loop.  [i] counts the lines pulled so far; [stop_flag i] is
    the value of [st.session_state.stop_generation] read at the check made on
    line [i] (the flag belongs to the UI, which may set it between two
    lines); [accumulated_response] is the list of tokens appended so far.
    Leaving by [break] (the ending [Cancelled]) stores [False] in the flag. *)
Fixpoint read_lines (stop_button : bool) (stop_flag : nat -> bool) (i : nat)
    (body : list pull) (accumulated_response : list string)
    (shown : list string) : streamed :=
  match body with
  | [] =>
      {| reply := join "" accumulated_response; ended := Completed;
         shown := shown |}
  | Broken text :: _ =>
      {| reply := ("Error: " ++ text)%string; ended := Failed;
         shown := shown |}
  | Line l :: rest =>
      if stop_button || stop_flag i then
        {| reply := join "" accumulated_response; ended := Cancelled;
           shown := shown |}
      else
        match l with
        | Blank =>
            read_lines stop_button stop_flag (S i) rest accumulated_response
              shown
        | Fragment token =>
            let accumulated := accumulated_response ++ [token_of token] in
            read_lines stop_button stop_flag (S i) rest accumulated
              (shown ++ [join "" accumulated])
        | Garbled text =>
            {| reply := ("Error: " ++ text)%string; ended := Failed;
               shown := shown |}
        end
  end.

Definition stream_response (stop_button : bool) (stop_flag : nat -> bool)
    (outcome : post_outcome) : streamed :=
  match outcome with
  | Refused text =>
      {| reply := ("Error: " ++ text)%string; ended := Failed; shown := [] |}
  | Opened body => read_lines stop_button stop_flag 0 body [] []
  end.

(** [st.session_state], but for the stop flag, which is read through
    [stop_flag]. *)
Record session : Type := {
  messages : list message;
  model_ready : bool;
  conversation_id : Z
}.

(** [save_message]: the insertion, under the id of the session. *)
Definition save_message (st : session) (db : database)
    (role content : string) (now : Z) : result database :=
  insert_message foreign_keys db (conversation_id st) role content now.

(** What one run of the page receives from outside: the health probe, the
    chat input, the wall-clock label, the two readings of the database
    clock, the stop button, the stop flag as read during the stream, and the
    backend's behaviour. *)
Record inputs : Type := {
  ollama_up : bool;
  user_input : option string;
  clock_label : string;
  saved_at : Z * Z;
  stop_button : bool;
  stop_flag : nat -> bool;
  outcome : post_outcome
}.

Definition submit (inp : inputs) (text : string) (st : session)
    (db : database) : result (session * database) :=
  let st1 :=
    {| messages :=
         messages st
         ++ [ {| role := "user"; content := text;
                 timestamp := clock_label inp |} ];
       model_ready := model_ready st;
       conversation_id := conversation_id st |} in
  bind (save_message st1 db "user" text (fst (saved_at inp)))
    (fun db1 =>
       let response :=
         stream_response (stop_button inp) (stop_flag inp) (outcome inp) in
       let st2 :=
         {| messages :=
              messages st1
              ++ [ {| role := "assistant"; content := reply response;
                      timestamp := clock_label inp |} ];
            model_ready := model_ready st1;
            conversation_id := conversation_id st1 |} in
       bind (save_message st2 db1 "assistant" (reply response)
               (snd (saved_at inp)))
         (fun db2 => Returned (st2, db2))).

(** [display_chat_page], without the rendering. *)
Definition display_chat_page (inp : inputs) (st : session) (db : database)
    : result (session * database) :=
  if negb (ollama_up inp) then Returned (st, db)
  else
    let st0 :=
      {| messages := messages st; model_ready := true;
         conversation_id := conversation_id st |} in
    match user_input inp with
    | None => Returned (st0, db)
    | Some EmptyString => Returned (st0, db)
    | Some text => submit inp text st0 db
    end.

End Chat.

Module ChatFacts.
Import Py Sqlite Chat.

(** A line that is read without an exception. *)
Definition delivered (p : pull) : bool :=
  match p with
  | Line Blank => true
  | Line (Fragment _) => true
  | Line (Garbled _) => false
  | Broken _ => false
  end.

(** The tokens of the fragments of a run of lines. *)
Fixpoint tokens (body : list pull) : list string :=
  match body with
  | Line (Fragment token) :: rest => token_of token :: tokens rest
  | _ :: rest => tokens rest
  | [] => []
  end.

(** The growing texts displayed while a run of lines is read. *)
Fixpoint partials (accumulated : list string) (body : list pull)
    : list string :=
  match body with
  | Line (Fragment token) :: rest =>
      join "" (accumulated ++ [token_of token])
      :: partials (accumulated ++ [token_of token]) rest
  | _ :: rest => partials accumulated rest
  | [] => []
  end.

(** The flag is not seen set at any of the [n] checks that start at [i]. *)
Definition unseen (stop_button : bool) (stop_flag : nat -> bool)
    (i n : nat) : Prop :=
  forall j, j < n -> stop_button || stop_flag (i + j) = false.

Lemma unseen_tail (stop_button : bool) (stop_flag : nat -> bool) (i n : nat) :
  unseen stop_button stop_flag i (S n) ->
  stop_button || stop_flag i = false /\ unseen stop_button stop_flag (S i) n.
Proof.
  intros H. split.
  - specialize (H 0). rewrite Nat.add_0_r in H. apply H. lia.
  - intros j Hj. specialize (H (S j)).
    replace (S i + j) with (i + S j) by lia. apply H. lia.
Qed.

(** Reading a run of delivered lines with the flag unseen only grows the
    accumulator. *)
Lemma read_lines_delivered (stop_button : bool) (stop_flag : nat -> bool)
    (pre rest : list pull) :
  forallb delivered pre = true ->
  forall (i : nat) (accumulated shown : list string),
    unseen stop_button stop_flag i (List.length pre) ->
    read_lines stop_button stop_flag i (pre ++ rest) accumulated shown
    = read_lines stop_button stop_flag (i + List.length pre) rest
        (accumulated ++ tokens pre) (shown ++ partials accumulated pre).
Proof.
  induction pre as [|p pre IH]; intros Hd i accumulated shown Hun.
  - simpl. rewrite Nat.add_0_r, !app_nil_r. reflexivity.
  - simpl in Hd. apply andb_prop in Hd. destruct Hd as [Hp Hd].
    apply unseen_tail in Hun. destruct Hun as [H0 Hun].
    replace (i + List.length (p :: pre)) with (S i + List.length pre)
      by (simpl; lia).
    destruct p as [[|token|text]|text]; try discriminate; simpl; rewrite H0.
    + apply IH; assumption.
    + rewrite (IH Hd (S i) _ _ Hun), <- !app_assoc. reflexivity.
Qed.

(** What the submit path leaves behind for the user text [text] and the
    assistant text [answer]: the two turns at the end of the session's
    buffer, and the two rows at the end of the table, under the session's
    conversation id. *)
Definition recorded (inp : inputs) (text answer : string)
    (st st' : session) (db db' : database) : Prop :=
  Chat.messages st'
  = Chat.messages st
    ++ [ {| role := "user"; content := text; timestamp := clock_label inp |};
         {| role := "assistant"; content := answer;
            timestamp := clock_label inp |} ]
  /\ exists m_user m_reply : message_row,
       Sqlite.messages db' = Sqlite.messages db ++ [m_user; m_reply]
       /\ msg_conversation_id m_user = conversation_id st
       /\ msg_role m_user = "user" /\ msg_content m_user = text
       /\ msg_conversation_id m_reply = conversation_id st
       /\ msg_role m_reply = "assistant" /\ msg_content m_reply = answer.

Lemma submit_recorded (inp : inputs) (text : string) (st : session)
    (db : database) :
  exists (st' : session) (db' : database),
    submit inp text st db = Returned (st', db')
    /\ recorded inp text
         (reply (stream_response (stop_button inp) (stop_flag inp)
                   (outcome inp)))
         st st' db db'.
Proof.
  unfold submit, save_message, insert_message, foreign_keys. simpl.
  eexists. eexists. split; [reflexivity|]. unfold recorded. simpl. split.
  - rewrite <- app_assoc. reflexivity.
  - eexists. eexists. rewrite <- app_assoc. simpl.
    split; [reflexivity|]. repeat split; reflexivity.
Qed.

Lemma display_chat_page_submits (inp : inputs) (text : string) (st : session)
    (db : database) :
  ollama_up inp = true -> user_input inp = Some text -> text <> "" ->
  exists (st' : session) (db' : database),
    display_chat_page inp st db = Returned (st', db')
    /\ recorded inp text
         (reply (stream_response (stop_button inp) (stop_flag inp)
                   (outcome inp)))
         st st' db db'.
Proof.
  intros Hup Hin Hne. unfold display_chat_page. rewrite Hup, Hin. simpl.
  destruct text as [|c text]; [congruence|].
  apply (submit_recorded inp (String c text)
           {| Chat.messages := Chat.messages st; model_ready := true;
              conversation_id := conversation_id st |} db).
Qed.

(** The backend fails with the text [err]: the request raises, or the
    transport raises after a run of delivered lines, or a line cannot be
    handled, in each case before the stop flag is seen. *)
Definition fails (stop_button : bool) (stop_flag : nat -> bool) (i : nat)
    (body : list pull) (err : string) : Prop :=
  exists pre rest : list pull,
    forallb delivered pre = true
    /\ ((body = pre ++ Broken err :: rest
         /\ unseen stop_button stop_flag i (List.length pre))
        \/ (body = pre ++ Line (Garbled err) :: rest
            /\ unseen stop_button stop_flag i (S (List.length pre)))).

Definition terminal_error (inp : inputs) (err : string) : Prop :=
  match outcome inp with
  | Refused text => text = err
  | Opened body => fails (stop_button inp) (stop_flag inp) 0 body err
  end.

Lemma unseen_cons (stop_button : bool) (stop_flag : nat -> bool) (i n : nat) :
  stop_button || stop_flag i = false ->
  unseen stop_button stop_flag (S i) n ->
  unseen stop_button stop_flag i (S n).
Proof.
  intros H0 H [|j] Hj.
  - rewrite Nat.add_0_r. exact H0.
  - replace (i + S j) with (S i + j) by lia. apply H. lia.
Qed.

Lemma read_lines_fails (stop_button : bool) (stop_flag : nat -> bool)
    (body : list pull) (err : string) :
  forall (i : nat) (accumulated shown : list string),
    fails stop_button stop_flag i body err ->
    reply (read_lines stop_button stop_flag i body accumulated shown)
    = ("Error: " ++ err)%string
    /\ ended (read_lines stop_button stop_flag i body accumulated shown)
       = Failed.
Proof.
  intros i accumulated shown [pre [rest [Hd [[-> Hun]|[-> Hun]]]]].
  - rewrite (read_lines_delivered _ _ pre _ Hd i _ _ Hun). simpl.
    split; reflexivity.
  - assert (Hpre : unseen stop_button stop_flag i (List.length pre)).
    { intros j Hj. apply Hun. lia. }
    rewrite (read_lines_delivered _ _ pre _ Hd i _ _ Hpre). simpl.
    rewrite (Hun (List.length pre)) by lia. split; reflexivity.
Qed.

(** Every failed ending comes from one of the failures above. *)
Lemma read_lines_failed_inv (stop_button : bool) (stop_flag : nat -> bool)
    (body : list pull) :
  forall (i : nat) (accumulated shown : list string),
    ended (read_lines stop_button stop_flag i body accumulated shown)
    = Failed ->
    exists err : string, fails stop_button stop_flag i body err.
Proof.
  induction body as [|p body IH]; intros i accumulated shown H; simpl in H.
  - discriminate.
  - destruct p as [l|text].
    + destruct (stop_button || stop_flag i) eqn:F; [discriminate|].
      destruct l as [|token|text].
      * destruct (IH _ _ _ H) as [err [pre [rest [Hd Hc]]]].
        exists err, (Line Blank :: pre), rest. split; [exact Hd|].
        destruct Hc as [[-> Hun]|[-> Hun]]; [left|right];
          (split; [reflexivity | apply unseen_cons; assumption]).
      * destruct (IH _ _ _ H) as [err [pre [rest [Hd Hc]]]].
        exists err, (Line (Fragment token) :: pre), rest. split; [exact Hd|].
        destruct Hc as [[-> Hun]|[-> Hun]]; [left|right];
          (split; [reflexivity | apply unseen_cons; assumption]).
      * exists text, [], body. split; [reflexivity|]. right.
        split; [reflexivity|]. apply unseen_cons; [exact F|].
        intros j Hj. simpl in Hj. lia.
    + exists text, [], body. split; [reflexivity|]. left.
      split; [reflexivity|]. intros j Hj. simpl in Hj. lia.
Qed.

(** A stream read to its end with the flag never seen gives all its tokens. *)
Lemma stream_completes (stop_button : bool) (stop_flag : nat -> bool)
    (body : list pull) :
  forallb delivered body = true ->
  unseen stop_button stop_flag 0 (List.length body) ->
  stream_response stop_button stop_flag (Opened body)
  = {| reply := join "" (tokens body); ended := Completed;
       shown := partials [] body |}.
Proof.
  intros Hd Hun. unfold stream_response.
  rewrite <- (app_nil_r body) at 1.
  rewrite (read_lines_delivered _ _ body [] Hd 0 [] [] Hun). reflexivity.
Qed.

(** C4.  The stop flag is read on every line before the line is handled.
    If the lines of a prefix were read with the flag unseen and the flag is
    seen set at the check on the next line, [stream_response] handles neither
    that line nor any later one: it leaves the loop and returns the
    concatenation of the tokens of the prefix, as an ordinary return value;
    and the submit path then appends and saves the assistant turn with
    exactly that text. *)
Theorem cancellation_keeps_partial
    (inp : inputs) (pre : list pull) (next : line) (rest : list pull)
    (text : string) (st : session) (db : database) :
  outcome inp = Opened (pre ++ Line next :: rest) ->
  forallb delivered pre = true ->
  unseen (stop_button inp) (stop_flag inp) 0 (List.length pre) ->
  stop_button inp || stop_flag inp (List.length pre) = true ->
  stream_response (stop_button inp) (stop_flag inp) (outcome inp)
  = {| reply := join "" (tokens pre); ended := Cancelled;
       shown := partials [] pre |}
  /\ (ollama_up inp = true -> user_input inp = Some text -> text <> "" ->
      exists (st' : session) (db' : database),
        display_chat_page inp st db = Returned (st', db')
        /\ recorded inp text (join "" (tokens pre)) st st' db db').
Proof.
  intros Hout Hd Hun Hset.
  assert (E : stream_response (stop_button inp) (stop_flag inp) (outcome inp)
              = {| reply := join "" (tokens pre); ended := Cancelled;
                   shown := partials [] pre |}).
  { rewrite Hout. unfold stream_response.
    rewrite (read_lines_delivered _ _ pre _ Hd 0 [] [] Hun).
    simpl. rewrite Hset. reflexivity. }
  split; [exact E|].
  intros Hup Hin Hne.
  destruct (display_chat_page_submits inp text st db Hup Hin Hne)
    as [st' [db' [Hrun Hrec]]].
  exists st', db'. split; [exact Hrun|]. rewrite E in Hrec. exact Hrec.
Qed.

(** The page run of the specification's cancellation scenario: the stream
    carries three fragments and the flag is raised after the first. *)
Definition cancelled_run : inputs :=
  {| ollama_up := true;
     user_input := Some "I feel great today";
     clock_label := "10:00 AM";
     saved_at := (100, 101)%Z;
     stop_button := false;
     stop_flag := fun i => 1 <=? i;
     outcome :=
       Opened [ Line (Fragment (Some "I'm"));
                Line (Fragment (Some " glad"));
                Line (Fragment (Some " to hear that.")) ] |}.

Definition fresh_session : session :=
  {| Chat.messages := []; model_ready := false; conversation_id := 1 |}.

Definition one_conversation : database :=
  fst (History.start_new_conversation Sqlite.empty "session" 99).

Lemma cancellation_keeps_partial_witness :
  stream_response false (fun i => 1 <=? i) (outcome cancelled_run)
  = {| reply := "I'm"; ended := Cancelled; shown := ["I'm"] |}
  /\ exists (st' : session) (db' : database),
       display_chat_page cancelled_run fresh_session one_conversation
       = Returned (st', db')
       /\ recorded cancelled_run "I feel great today" "I'm"
            fresh_session st' one_conversation db'.
Proof.
  destruct (cancellation_keeps_partial cancelled_run
              [Line (Fragment (Some "I'm"))] (Fragment (Some " glad"))
              [Line (Fragment (Some " to hear that."))]
              "I feel great today" fresh_session one_conversation)
    as [E H].
  - reflexivity.
  - reflexivity.
  - intros [|j] Hj; [reflexivity | simpl in Hj; lia].
  - reflexivity.
  - split; [exact E|].
    apply H; [reflexivity | reflexivity | discriminate].
Defined.

(** C9.  The submit path never raises: every run of the page returns.  When
    the backend fails with the text [err] (the request raises, the transport
    breaks, or a line cannot be handled), [stream_response] returns the text
    "Error: " followed by [err]; the page run still returns, and it appends
    and saves the assistant turn with exactly that text.  Every failed ending
    of [stream_response] is of this kind. *)
Theorem backend_failure_recorded :
  (forall (inp : inputs) (st : session) (db : database),
      exists (st' : session) (db' : database),
        display_chat_page inp st db = Returned (st', db'))
  /\ (forall inp : inputs,
        ended (stream_response (stop_button inp) (stop_flag inp)
                 (outcome inp)) = Failed ->
        exists err : string, terminal_error inp err)
  /\ (forall (inp : inputs) (err text : string) (st : session)
             (db : database),
        terminal_error inp err ->
        stream_response (stop_button inp) (stop_flag inp) (outcome inp)
        = {| reply := ("Error: " ++ err)%string; ended := Failed;
             shown := shown (stream_response (stop_button inp)
                               (stop_flag inp) (outcome inp)) |}
        /\ (ollama_up inp = true -> user_input inp = Some text ->
            text <> "" ->
            exists (st' : session) (db' : database),
              display_chat_page inp st db = Returned (st', db')
              /\ recorded inp text ("Error: " ++ err)%string st st' db db')).
Proof.
  split; [|split].
  - intros inp st db. unfold display_chat_page.
    destruct (ollama_up inp); simpl; [|eauto].
    destruct (user_input inp) as [[|c text]|]; eauto.
    destruct (submit_recorded inp (String c text)
                {| Chat.messages := Chat.messages st; model_ready := true;
                   conversation_id := conversation_id st |} db)
      as [st' [db' [E _]]].
    exists st', db'. exact E.
  - intros inp H. unfold terminal_error.
    destruct (outcome inp) as [text|body]; [exists text; reflexivity|].
    apply (read_lines_failed_inv _ _ body 0 [] []). exact H.
  - intros inp err text st db Herr.
    assert (E : reply (stream_response (stop_button inp) (stop_flag inp)
                         (outcome inp)) = ("Error: " ++ err)%string
                /\ ended (stream_response (stop_button inp) (stop_flag inp)
                            (outcome inp)) = Failed).
    { unfold terminal_error in Herr.
      destruct (outcome inp) as [t|body]; simpl.
      - subst t. split; reflexivity.
      - apply read_lines_fails. exact Herr. }
    destruct E as [Er Ee]. split.
    + destruct (stream_response (stop_button inp) (stop_flag inp)
                  (outcome inp)) as [r e s]. simpl in *. subst. reflexivity.
    + intros Hup Hin Hne.
      destruct (display_chat_page_submits inp text st db Hup Hin Hne)
        as [st' [db' [Hrun Hrec]]].
      exists st', db'. split; [exact Hrun|]. rewrite Er in Hrec. exact Hrec.
Qed.

(** A run in which the backend refuses the connection. *)
Definition refused_run : inputs :=
  {| ollama_up := true;
     user_input := Some "hello";
     clock_label := "10:00 AM";
     saved_at := (100, 100)%Z;
     stop_button := false;
     stop_flag := fun _ => false;
     outcome := Refused "Connection refused" |}.

Lemma backend_failure_recorded_witness :
  stream_response false (fun _ => false) (outcome refused_run)
  = {| reply := "Error: Connection refused"; ended := Failed; shown := [] |}
  /\ exists (st' : session) (db' : database),
       display_chat_page refused_run fresh_session one_conversation
       = Returned (st', db')
       /\ recorded refused_run "hello" "Error: Connection refused"
            fresh_session st' one_conversation db'.
Proof.
  destruct (proj2 (proj2 backend_failure_recorded) refused_run
              "Connection refused" "hello" fresh_session one_conversation)
    as [E H].
  - reflexivity.
  - split; [exact E|].
    apply H; [reflexivity | reflexivity | discriminate].
Defined.

End ChatFacts.

(** ** More on the blocking client and the script around it ([app.py]) *)

Module AppScript.
Import Py App.

(** An entry of the history, and the history. *)
Definition entry : Type := message.
Definition history : Type := list message.

(** Total time passed to [time.sleep]. *)
Definition slept (t : list event) : nat :=
  fold_right (fun e n => match e with Sleep s => s + n | Post _ => n end) 0 t.

(** The text a call ends with on an outcome that is not retried. *)
Definition final_text (o : post_outcome) : option string :=
  match o with
  | Response status_code body =>
      if (status_code =? 200)%Z then Some (reply_of body) else None
  | Timeout => None
  | ConnectionError => Some connection_message
  | OtherError text => Some ("Error: " ++ text)%string
  end.

(** [st.session_state] of [app.py]. *)
Record state : Type := {
  messages : list message;
  model_ready : bool
}.

(** What one run of the script receives: the result of
    [check_ollama_status], the chat input, [get_timestamp()], whether
    "Clear Chat" was clicked, and the backend's behaviour. *)
Record run_inputs : Type := {
  probe : bool;
  user_input : option string;
  now_label : string;
  clear_chat : bool;
  backend : nat -> post_outcome
}.

(** How a run of the script ends: [st.stop()], [st.rerun()], or its last
    line. *)
Inductive finish : Type :=
| Stopped
| Rerun
| Finished.

Definition answer (inp : run_inputs) (text : string) (st : state)
    : state * list event :=
  let messages1 :=
    messages st
    ++ [ {| role := "user"; content := text; timestamp := now_label inp |} ] in
  let sent := send_message (backend inp) messages1 text 0 in
  ({| messages :=
        messages1
        ++ [ {| role := "assistant"; content := fst sent;
                timestamp := now_label inp |} ];
      model_ready := model_ready st |},
   snd sent).

(** The script from the readiness check to the sidebar. *)
Definition script (inp : run_inputs) (st : state)
    : state * list event * finish :=
  if negb (model_ready st) && negb (probe inp) then (st, [], Stopped)
  else
    let st0 := {| messages := messages st; model_ready := true |} in
    match user_input inp with
    | Some (String c text) =>
        (fst (answer inp (String c text) st0),
         snd (answer inp (String c text) st0), Rerun)
    | _ =>
        if clear_chat inp
        then ({| messages := []; model_ready := false |}, [], Rerun)
        else (st0, [], Finished)
    end.

Section Client.

Variable backend : nat -> post_outcome.
Variable message : string.

Lemma last_five_app (older recent : history) :
  List.length recent = 5 -> last_five (older ++ recent) = recent.
Proof.
  intros H. unfold last_five. rewrite length_app, H.
  replace (List.length older + 5 - 5) with (List.length older + 0) by lia.
  rewrite skipn_app, Nat.add_0_r, skipn_all, Nat.sub_diag. reflexivity.
Qed.

Lemma last_five_short (messages : history) :
  List.length messages <= 5 -> last_five messages = messages.
Proof.
  intros H. unfold last_five.
  replace (List.length messages - 5) with 0 by lia. reflexivity.
Qed.

Lemma send_message_same_prompt (m1 m2 : history) :
  prompt_of m1 message = prompt_of m2 message ->
  forall d retries,
    MAX_RETRIES - retries = d ->
    send_message backend m1 message retries
    = send_message backend m2 message retries.
Proof.
  intros Hp. induction d as [|d IH]; intros retries Hd.
  - rewrite !run_exhausted by lia. reflexivity.
  - rewrite (send_message_body backend m1), (send_message_body backend m2).
    rewrite Hp, (IH (S retries)) by lia. reflexivity.
Qed.

Lemma run_terminal (messages : history) (retries : nat)
    (text : string) :
  retries < MAX_RETRIES -> final_text (backend retries) = Some text ->
  send_message backend messages message retries
  = (text, [Post (prompt_of messages message)]).
Proof.
  intros Hlt Hw. rewrite send_message_body.
  rewrite (proj2 (Nat.leb_gt _ _) Hlt).
  destruct (backend retries) as [code body| | |t]; simpl in *;
    try discriminate; try (inversion Hw; reflexivity).
  destruct (code =? 200)%Z; [inversion Hw; reflexivity | discriminate].
Qed.

Lemma run_slept (messages : history) (d retries : nat) :
  MAX_RETRIES - retries = d ->
  slept (snd (send_message backend messages message retries)) <= 2 * d
  /\ sleeps (snd (send_message backend messages message retries))
     <= posts (snd (send_message backend messages message retries)).
Proof.
  revert retries. induction d as [|d IH]; intros retries Hd.
  - rewrite run_exhausted by lia. simpl. split; constructor.
  - assert (Hlt : retries < MAX_RETRIES) by lia.
    assert (Hd' : MAX_RETRIES - S retries = d) by lia.
    destruct (IH (S retries) Hd') as [Hs Hp].
    rewrite send_message_body. rewrite (proj2 (Nat.leb_gt _ _) Hlt).
    unfold posts, sleeps in *.
    destruct (backend retries) as [code body| | |text]; simpl;
      try (split; lia).
    destruct (code =? 200)%Z; simpl; split; lia.
Qed.

End Client.

(** X1.  The context sent to the backend is cut to the last five messages:
    a call of [send_message] on a history whose last five messages are
    [recent] behaves as on [recent] alone, whatever the older messages
    are (same text returned, same requests and waits). *)
Theorem reply_reads_last_five
    (backend : nat -> post_outcome) (message : string)
    (older recent : history) :
  List.length recent = 5 ->
  send_message backend (older ++ recent) message 0
  = send_message backend recent message 0.
Proof.
  intros H. apply send_message_same_prompt with (d := MAX_RETRIES).
  - unfold prompt_of, context_of.
    rewrite (last_five_app older recent H), last_five_short by lia.
    reflexivity.
  - reflexivity.
Qed.

Definition turn_of (r c : string) : entry :=
  {| role := r; content := c; timestamp := "10:00 AM" |}.

Definition five_turns : history :=
  [ turn_of "user" "a"; turn_of "assistant" "b"; turn_of "user" "c";
    turn_of "assistant" "d"; turn_of "user" "e" ].

Lemma reply_reads_last_five_witness :
  send_message (fun _ => Response 200 (Object (Some "fine")))
    ([turn_of "user" "long ago"] ++ five_turns) "next" 0
  = send_message (fun _ => Response 200 (Object (Some "fine")))
      five_turns "next" 0.
Proof.
  apply (reply_reads_last_five
           (fun _ => Response 200 (Object (Some "fine"))) "next"
           [turn_of "user" "long ago"] five_turns).
  reflexivity.
Defined.

(** X2.  A call ends on the first outcome that is not retried.  After [k]
    retried requests ([k] below 3), a 200 response gives its ["response"]
    entry (the apology text when the key is missing, "Error: " and the
    exception text when the body is no JSON), a connection error gives the
    connection text and any other exception gives "Error: " and its text;
    the steps are the [k] retried requests with their waits and this last
    request. *)
Theorem send_message_final
    (backend : nat -> post_outcome) (messages : history)
    (message text : string) (k : nat) :
  k < MAX_RETRIES ->
  (forall i, i < k -> retry_wait (backend i) <> None) ->
  final_text (backend k) = Some text ->
  send_message backend messages message 0
  = (text,
     retried backend (prompt_of messages message) 0 k
     ++ [Post (prompt_of messages message)]).
Proof.
  intros Hk Hall Hfinal.
  rewrite (run_retried backend messages message k 0)
    by (try lia; intros i Hi; apply Hall; lia).
  cbn [Nat.add].
  rewrite (run_terminal backend message messages k text Hk Hfinal).
  reflexivity.
Qed.

Lemma send_message_final_witness :
  send_message
    (fun i => match i with 0 => Timeout | _ => Response 200 (Object None) end)
    [] "hello" 0
  = (default_reply,
     retried
       (fun i => match i with
                 | 0 => Timeout
                 | _ => Response 200 (Object None)
                 end) (prompt_of [] "hello") 0 1
     ++ [Post (prompt_of [] "hello")]).
Proof.
  apply (send_message_final
           (fun i => match i with
                     | 0 => Timeout
                     | _ => Response 200 (Object None)
                     end) [] "hello" default_reply 1).
  - unfold MAX_RETRIES. lia.
  - intros [|i] Hi; simpl; [discriminate | lia].
  - reflexivity.
Defined.

(** X3.  Whatever the backend does, one call of [send_message] sleeps for
    at most 6 time units in total, and never sleeps more often than it sends
    a request. *)
Theorem send_message_wait_bound
    (backend : nat -> post_outcome) (messages : history)
    (message : string) :
  slept (snd (send_message backend messages message 0)) <= 6
  /\ sleeps (snd (send_message backend messages message 0))
     <= posts (snd (send_message backend messages message 0)).
Proof.
  apply (run_slept backend message messages MAX_RETRIES 0 eq_refl).
Qed.

Lemma last_five_snoc (messages : history)
    (m : entry) :
  last_five (messages ++ [m])
  = skipn (List.length messages - 4) messages ++ [m].
Proof.
  unfold last_five. rewrite length_app. simpl.
  replace (List.length messages + 1 - 5) with (List.length messages - 4)
    by lia.
  rewrite skipn_app.
  replace (List.length messages - 4 - List.length messages) with 0 by lia.
  reflexivity.
Qed.

(** X4.  One run of the script with a non-empty chat input, the model being
    ready or the probe succeeding: the user's message and then the
    assistant's answer are appended to the history, with the same time
    label; the answer is what [send_message] returns on the history that
    already holds the new message, so the context of the prompt ends with
    the line "User: " and the message; at most 3 requests are sent and the
    run ends in a rerun. *)
Theorem script_answers
    (inp : run_inputs) (st : state) (text : string) :
  model_ready st = true \/ probe inp = true ->
  user_input inp = Some text -> text <> "" ->
  exists (reply : string) (steps : list event),
    script inp st
    = ({| messages :=
            messages st
            ++ [ {| role := "user"; content := text;
                    timestamp := now_label inp |};
                 {| role := "assistant"; content := reply;
                    timestamp := now_label inp |} ];
          model_ready := true |}, steps, Rerun)
    /\ send_message (backend inp)
         (messages st
          ++ [ {| role := "user"; content := text;
                  timestamp := now_label inp |} ]) text 0
       = (reply, steps)
    /\ posts steps <= MAX_RETRIES
    /\ exists lines : list string,
         context_of
           (messages st
            ++ [ {| role := "user"; content := text;
                    timestamp := now_label inp |} ])
         = join nl (lines ++ [("User: " ++ text)%string]).
Proof.
  intros Hready Hin Hne.
  destruct text as [|c text]; [congruence|].
  set (u := {| role := "user"; content := String c text;
               timestamp := now_label inp |}).
  exists (fst (send_message (backend inp) (messages st ++ [u])
                 (String c text) 0)),
         (snd (send_message (backend inp) (messages st ++ [u])
                 (String c text) 0)).
  split.
  - unfold script. rewrite Hin.
    assert (G : negb (model_ready st) && negb (probe inp) = false).
    { destruct Hready as [->| ->]; [reflexivity|].
      rewrite andb_false_r. reflexivity. }
    rewrite G. unfold answer. cbn [fst snd messages model_ready].
    fold u. rewrite <- app_assoc. reflexivity.
  - split; [destruct (send_message _ _ _ _); reflexivity|].
    split; [apply (run_bounds (backend inp) (messages st ++ [u])
                     (String c text) MAX_RETRIES 0 eq_refl)|].
    eexists. unfold context_of. rewrite last_five_snoc, map_app.
    reflexivity.
Qed.

Lemma script_answers_witness :
  exists (reply : string) (steps : list event),
    script
      {| probe := true; user_input := Some "hello"; now_label := "10:00 AM";
         clear_chat := false;
         backend := fun _ => Response 200 (Object (Some "hi there")) |}
      {| messages := []; model_ready := false |}
    = ({| messages :=
            [ {| role := "user"; content := "hello";
                 timestamp := "10:00 AM" |};
              {| role := "assistant"; content := reply;
                 timestamp := "10:00 AM" |} ];
          model_ready := true |}, steps, Rerun)
    /\ reply = "hi there".
Proof.
  destruct (script_answers
              {| probe := true; user_input := Some "hello";
                 now_label := "10:00 AM"; clear_chat := false;
                 backend := fun _ => Response 200 (Object (Some "hi there")) |}
              {| messages := []; model_ready := false |} "hello")
    as [reply [steps [E [S _]]]].
  - right. reflexivity.
  - reflexivity.
  - discriminate.
  - exists reply, steps. split; [exact E|].
    exact (f_equal fst (eq_sym S)).
Defined.

End AppScript.

(** ** The analysis page ([total-final.py], [display_analysis_page]) *)

Module AnalysisPage.
Import Py.

(** The dict [suggestions]. *)
Definition suggestions : list (string * string) :=
  [ ("Very Happy",
     "Keep up the positive energy! Consider journaling about what's going well.");
    ("Happy",
     "You're doing great! Consider sharing your positive experiences with others.");
    ("Neutral", "This is a good time for reflection and planning.");
    ("Sad",
     "Consider taking a break, practice self-care, or reach out to someone you trust.");
    ("Very Sad",
     "Please remember you're not alone. Consider reaching out to a mental health professional or calling a support line.") ].

(** [d[key]] on a dict kept as an association list. *)
Fixpoint lookup (key : string) (d : list (string * string)) : option string :=
  match d with
  | [] => None
  | (k, v) :: rest => if String.eqb k key then Some v else lookup key rest
  end.

(** What the page shows: the notice that there is nothing to analyze, or the
    emotion card with its suggestion and the metrics. *)
Inductive page : Type :=
| NoMessages
| Report (emotion suggestion : string) (total user : Z) (average : float)
         (topics : list string).

(** How a run of the page ends: it is rendered, [suggestions[...]] raises
    [KeyError], or the analysis raises. *)
Inductive rendered : Type :=
| Page (p : page)
| KeyError (key : string)
| Failure (e : exn).

Definition display_analysis_page (analyze_sentiment : string -> float)
    (messages : list message) : rendered :=
  match TotalFinal.analyze_conversation analyze_sentiment messages with
  | Raised e => Failure e
  | Returned None => Page NoMessages
  | Returned (Some analysis) =>
      match lookup (TotalFinal.emotional_state analysis) suggestions with
      | None => KeyError (TotalFinal.emotional_state analysis)
      | Some suggestion =>
          Page (Report (TotalFinal.emotional_state analysis) suggestion
                  (TotalFinal.total_messages analysis)
                  (TotalFinal.user_message_count analysis)
                  (TotalFinal.avg_message_length analysis)
                  (TotalFinal.topics analysis))
      end
  end.

Lemma first_match_key (ranges : list (string * (float * float)))
    (s : float) (emotion : string) :
  Emotion.first_match ranges s = Some emotion ->
  In emotion (map fst ranges).
Proof.
  induction ranges as [|[e [low high]] ranges IH]; simpl; [discriminate|].
  destruct ((low <=? s) && (s <=? high))%float.
  - intros H. inversion H. left; reflexivity.
  - intros H. right. apply IH, H.
Qed.

Lemma label_of_any_float (s : float) :
  In (Emotion.determine_emotional_state s) Emotion.labels.
Proof.
  unfold Emotion.determine_emotional_state.
  destruct (Emotion.first_match Emotion.EMOTION_RANGES s) as [e|] eqn:E.
  - apply first_match_key in E. simpl in E. unfold Emotion.labels. simpl.
    tauto.
  - unfold Emotion.labels. simpl. tauto.
Qed.

Lemma suggestion_of_label (label : string) :
  In label Emotion.labels -> exists text, lookup label suggestions = Some text.
Proof.
  unfold Emotion.labels. simpl.
  intros [<-|[<-|[<-|[<-|[<-|[]]]]]]; eexists; reflexivity.
Qed.

(** X5.  The label returned by the classifier is a key of [suggestions] for
    every float, NaN, the infinities and the values outside [[-1,1]]
    included; so the analysis page never ends in a [KeyError] or another
    exception: it shows the notice exactly when there is no message, and the
    report otherwise. *)
Theorem analysis_page_renders
    (analyze_sentiment : string -> float) (messages : list message) :
  (forall s : float,
      exists text : string,
        lookup (Emotion.determine_emotional_state s) suggestions = Some text)
  /\ (exists p : page,
        display_analysis_page analyze_sentiment messages = Page p
        /\ (p = NoMessages <-> messages = [])).
Proof.
  split.
  - intros s. apply suggestion_of_label, label_of_any_float.
  - unfold display_analysis_page.
    destruct messages as [|m rest].
    + exists NoMessages. simpl. split; [reflexivity | tauto].
    + rewrite (AnalysisFacts.total_final_unfold analyze_sentiment (m :: rest))
        by discriminate.
      cbv zeta. cbn [TotalFinal.emotional_state].
      destruct (suggestion_of_label _
                  (label_of_any_float
                     (analyze_sentiment
                        (join " " (TotalFinal.user_messages (m :: rest))))))
        as [text E].
      rewrite E. eexists. split; [reflexivity|].
      split; intros H; discriminate.
Qed.

(** X6.  A conversation in which no turn has the role "user" (only
    assistant turns, for instance) is still analyzed: the text scored is the
    empty text, no topic is found and the count of user messages is 0, while
    the total counts every turn. *)
Theorem analysis_without_user_turn
    (analyze_sentiment : string -> float) (messages : list message) :
  messages <> [] ->
  (forall m, In m messages -> role m <> "user") ->
  exists a : TotalFinal.analysis,
    TotalFinal.analyze_conversation analyze_sentiment messages
    = Returned (Some a)
    /\ TotalFinal.sentiment a = analyze_sentiment ""
    /\ TotalFinal.topics a = []
    /\ TotalFinal.user_message_count a = 0%Z
    /\ TotalFinal.total_messages a = Z.of_nat (List.length messages).
Proof.
  intros Hne Hrole.
  assert (Hu : TotalFinal.user_messages messages = []).
  { unfold TotalFinal.user_messages. clear Hne.
    induction messages as [|m rest IH]; [reflexivity|]. simpl.
    destruct (String.eqb_spec (role m) "user") as [E|_].
    - exfalso. apply (Hrole m); [left; reflexivity | exact E].
    - apply IH. intros x Hx. apply Hrole. right; exact Hx. }
  eexists. split; [apply AnalysisFacts.total_final_unfold, Hne|].
  cbv zeta. simpl. rewrite Hu. repeat split; reflexivity.
Qed.

Lemma analysis_without_user_turn_witness :
  exists a : TotalFinal.analysis,
    TotalFinal.analyze_conversation (fun _ => 0.0%float)
      [ {| role := "assistant"; content := "Hello, how are you feeling?";
           timestamp := "10:00 AM" |} ]
    = Returned (Some a)
    /\ TotalFinal.sentiment a = 0.0%float
    /\ TotalFinal.topics a = []
    /\ TotalFinal.user_message_count a = 0%Z
    /\ TotalFinal.total_messages a = 1%Z.
Proof.
  apply (analysis_without_user_turn (fun _ => 0.0%float)
           [ {| role := "assistant"; content := "Hello, how are you feeling?";
                timestamp := "10:00 AM" |} ]).
  - discriminate.
  - intros m [<-|[]]. discriminate.
Defined.

End AnalysisPage.

(** ** The shape of the extracted topics *)

Module TopicShape.
Import Py Topics.

Definition chars (s : string) : list ascii := list_ascii_of_string s.

(** A digit, a lower-case letter or the underscore. *)
Definition lower_word (c : ascii) : bool :=
  ((48 <=? code c) && (code c <=? 57))
  || ((97 <=? code c) && (code c <=? 122))
  || (code c =? 95).

Lemma lower_char_word (c : ascii) :
  is_word (lower_char c) = true -> lower_word (lower_char c) = true.
Proof.
  destruct c as [[] [] [] [] [] [] [] []]; vm_compute; intros H;
    first [reflexivity | discriminate H].
Qed.

Lemma chars_app (a b : string) : chars (a ++ b)%string = chars a ++ chars b.
Proof.
  unfold chars. induction a as [|c a IH]; simpl; [reflexivity|].
  rewrite IH. reflexivity.
Qed.

Lemma lower_chars (s : string) (c : ascii) :
  In c (chars (lower s)) -> exists c', c = lower_char c'.
Proof.
  unfold chars. induction s as [|x s IH]; simpl; [intros []|].
  intros [<-|H]; [exists x; reflexivity | apply IH, H].
Qed.

Lemma strip_chars (s : string) (c : ascii) :
  In c (chars (strip_punctuation s)) ->
  In c (chars s) /\ is_word c || is_space c = true.
Proof.
  unfold chars. induction s as [|x s IH]; simpl; [intros []|].
  destruct (is_word x || is_space x) eqn:E; simpl.
  - intros [<-|H]; [split; [left; reflexivity | exact E]|].
    destruct (IH H). split; [right; assumption | assumption].
  - intros H. destruct (IH H). split; [right; assumption | assumption].
Qed.

Lemma flush_In (cur w : string) : In w (flush cur) -> w = cur.
Proof.
  destruct cur; simpl; [intros [] | intros [<-|[]]; reflexivity].
Qed.

(** A word of [split] is made of characters of the text that are not white
    space. *)
Lemma split_from_chars (s cur w : string) (c : ascii) :
  In w (split_from cur s) -> In c (chars w) ->
  In c (chars cur) \/ (In c (chars s) /\ is_space c = false).
Proof.
  revert cur. induction s as [|x s IH]; intros cur Hw Hc; simpl in Hw.
  - apply flush_In in Hw. subst. left; exact Hc.
  - destruct (is_space x) eqn:E.
    + apply in_app_or in Hw. destruct Hw as [Hw|Hw].
      * apply flush_In in Hw. subst. left; exact Hc.
      * destruct (IH _ Hw Hc) as [H|[H1 H2]]; [destruct H|].
        right. split; [right; exact H1 | exact H2].
    + destruct (IH _ Hw Hc) as [H|[H1 H2]].
      * rewrite chars_app in H. apply in_app_or in H.
        destruct H as [H|[<-|[]]]; [left; exact H|].
        right. split; [left; reflexivity | exact E].
      * right. split; [right; exact H1 | exact H2].
Qed.

Lemma topic_is_word_of_text (text : string) (n : Z) (w : string) :
  In w (extract_topics text n) ->
  In w (split (strip_punctuation (lower text))).
Proof.
  rewrite extract_topics_firstn. intros Hw.
  apply (kept_words_In text w). apply (proj1 (ranking_In _ w)).
  rewrite <- (firstn_skipn (Z.to_nat n) (ranking (kept_words text))).
  apply in_or_app. left; exact Hw.
Qed.

(** X7.  Every topic returned by [extract_topics] is made only of digits,
    lower-case letters and underscores: it holds no upper-case letter, no
    punctuation and no white space. *)
Theorem topics_are_lower_words (text : string) (n : Z) (w : string) :
  In w (extract_topics text n) ->
  Forall (fun c => lower_word c = true) (chars w).
Proof.
  intros Hw.
  pose proof (topic_is_word_of_text text n w Hw) as Hsplit.
  apply Forall_forall. intros c Hc.
  destruct (split_from_chars _ _ _ c Hsplit Hc) as [[]|[Hin Hsp]].
  apply strip_chars in Hin. destruct Hin as [Hin Hclass].
  rewrite Hsp, orb_false_r in Hclass.
  apply lower_chars in Hin. destruct Hin as [c' ->].
  apply lower_char_word, Hclass.
Qed.

Lemma topics_are_lower_words_witness :
  Forall (fun c => lower_word c = true) (chars "hello_world").
Proof.
  apply (topics_are_lower_words "Hello_World, HELLO_WORLD!" 3 "hello_world").
  left. reflexivity.
Defined.

(** X18.  Asking for more topics only adds topics at the end: for [n <= m]
    the result for [n] is the first [n] entries of the result for [m]. *)
Theorem topics_prefix (text : string) (n m : Z) :
  (n <= m)%Z ->
  extract_topics text n = firstn (Z.to_nat n) (extract_topics text m).
Proof.
  intros H. rewrite !extract_topics_firstn, firstn_firstn.
  replace (Nat.min (Z.to_nat n) (Z.to_nat m)) with (Z.to_nat n) by lia.
  reflexivity.
Qed.

Lemma topics_prefix_witness :
  extract_topics "sadness sadness happy great great great" 2
  = firstn 2 (extract_topics "sadness sadness happy great great great" 5).
Proof.
  apply (topics_prefix "sadness sadness happy great great great" 2 5).
  lia.
Defined.

End TopicShape.

(** ** More of the store ([history.py]): allocation of conversations,
    metrics and the list of recent conversations *)

Module Reports.
Import Py Sqlite History.

(** The rows selected by [WHERE conversation_id = ?]. *)
Definition rows_of (db : database) (conversation_id : Z) : list message_row :=
  filter (fun m => (msg_conversation_id m =? conversation_id)%Z) (messages db).

(** [SUM(...)], [MIN(...)] and [MAX(...)]: NULL when no row is selected. *)
Definition sql_sum (xs : list Z) : option Z :=
  match xs with
  | [] => None
  | _ => Some (sum xs)
  end.

Definition sql_min (xs : list Z) : option Z :=
  match xs with
  | [] => None
  | x :: rest => Some (fold_right Z.min x rest)
  end.

Definition sql_max (xs : list Z) : option Z :=
  match xs with
  | [] => None
  | x :: rest => Some (fold_right Z.max x rest)
  end.

(** [CASE WHEN role = ... THEN 1 ELSE 0 END]. *)
Definition role_is (r : string) (m : message_row) : Z :=
  if String.eqb (msg_role m) r then 1%Z else 0%Z.

(** The dict returned by [get_conversation_metrics]. *)
Record metrics : Type := {
  total_messages : Z;
  user_messages : option Z;
  assistant_messages : option Z;
  start_time : option Z;
  end_time : option Z;
  sentiment : option float;
  topics : list string
}.

(** A returned value, the [TypeError] of unpacking [None], or the
    [OverflowError] of binding an id outside the SQLite integers. *)
Inductive fetched (A : Type) : Type :=
| Ok (a : A)
| TypeError
| Overflow.
Arguments Ok {A} a.
Arguments TypeError {A}.
Arguments Overflow {A}.

(** [get_conversation_metrics]: the first query binds the id; the aggregate
    query always yields one row; [sentiment, topics = cursor.fetchone()]
    raises when no conversation has the id;
    [json.loads(topics) if topics else []]. *)
Definition get_conversation_metrics (db : database) (conversation_id : Z)
    : fetched metrics :=
  let rows := rows_of db conversation_id in
  if int64 conversation_id
  then
    match find (fun c => (conv_id c =? conversation_id)%Z)
               (conversations db) with
    | None => TypeError
    | Some c =>
        Ok {| total_messages := Z.of_nat (List.length rows);
              user_messages := sql_sum (map (role_is "user") rows);
              assistant_messages := sql_sum (map (role_is "assistant") rows);
              start_time := sql_min (map msg_timestamp rows);
              end_time := sql_max (map msg_timestamp rows);
              sentiment := conv_sentiment c;
              topics := match conv_topics c with
                        | Some l => l
                        | None => []
                        end |}
    end
  else Overflow.

(** One row of the frame returned by [get_recent_conversations]. *)
Record summary : Type := {
  sum_id : Z;
  sum_session_id : string;
  sum_timestamp : Z;
  message_count : Z;
  sum_sentiment : option float;
  sum_topics : option (list string)
}.

(** [ORDER BY c.timestamp DESC] on the groups of [GROUP BY c.id], one per
    conversation since [id] is the primary key; groups with equal timestamps
    keep their order. *)
Fixpoint insert_by_recency (c : conversation_row) (l : list conversation_row)
    : list conversation_row :=
  match l with
  | [] => [c]
  | c' :: rest =>
      if (conv_timestamp c' <=? conv_timestamp c)%Z then c :: c' :: rest
      else c' :: insert_by_recency c rest
  end.

Definition order_by_recency (rows : list conversation_row)
    : list conversation_row :=
  fold_right insert_by_recency [] rows.

(** [LIMIT ?]: a negative limit is no limit. *)
Definition sql_limit {A : Type} (limit : Z) (rows : list A) : list A :=
  if (limit <? 0)%Z then rows else firstn (Z.to_nat limit) rows.

(** [LEFT JOIN messages m ON c.id = m.conversation_id] with [COUNT(m.id)]:
    the number of messages of the conversation, 0 when it has none. *)
Definition summary_of (db : database) (c : conversation_row) : summary :=
  {| sum_id := conv_id c;
     sum_session_id := conv_session_id c;
     sum_timestamp := conv_timestamp c;
     message_count := Z.of_nat (List.length (rows_of db (conv_id c)));
     sum_sentiment := conv_sentiment c;
     sum_topics := conv_topics c |}.

(** [get_recent_conversations]: the rows of the frame, or [None] when the
    call raises because the limit is outside the SQLite integers and cannot
    be bound (the [OverflowError] of [sqlite3], as [pandas] passes it on). *)
Definition get_recent_conversations (db : database) (limit : Z)
    : option (list summary) :=
  if int64 limit
  then Some (sql_limit limit
               (map (summary_of db) (order_by_recency (conversations db))))
  else None.

(** Every message belongs to a conversation of the store. *)
Definition consistent (db : database) : Prop :=
  forall m, In m (messages db) -> known db (msg_conversation_id m) = true.

End Reports.

Module ReportFacts.
Import Py Sqlite History Reports.

Lemma known_In (db : database) (conversation_id : Z) :
  known db conversation_id = true
  <-> In conversation_id (map conv_id (conversations db)).
Proof.
  unfold known. rewrite existsb_exists, in_map_iff. split.
  - intros [c [Hc E]]. apply Z.eqb_eq in E. exists c. split; assumption.
  - intros [c [E Hc]]. exists c. split; [assumption|].
    apply Z.eqb_eq. assumption.
Qed.

Lemma max_bounds (ids : list Z) :
  forall id, In id ids -> (id <= fold_right Z.max 0 ids)%Z.
Proof.
  induction ids as [|x ids IH]; simpl; [intros ? []|].
  intros id [<-|H]; [lia|]. specialize (IH id H). lia.
Qed.

Lemma next_id_fresh (ids : list Z) : ~ In (next_id ids) ids.
Proof.
  intros H. apply max_bounds in H. unfold next_id in H. lia.
Qed.

Lemma history_length (db : database) (conversation_id : Z) :
  List.length (get_conversation_history db conversation_id)
  = List.length (rows_of db conversation_id).
Proof.
  unfold get_conversation_history, rows_of. rewrite length_map.
  induction (filter _ (messages db)) as [|m l IH]; simpl; [reflexivity|].
  rewrite <- IH. clear IH.
  induction (order_by_timestamp l) as [|m' l' IH']; simpl; [reflexivity|].
  destruct (msg_timestamp m <=? msg_timestamp m')%Z; simpl;
    [reflexivity | rewrite IH'; reflexivity].
Qed.

Lemma NoDup_snoc {A : Type} (l : list A) (x : A) :
  NoDup l -> ~ In x l -> NoDup (l ++ [x]).
Proof.
  induction 1 as [|y l Hy Hnd IH]; simpl; intros Hx.
  - constructor; [intros [] | constructor].
  - constructor.
    + rewrite in_app_iff. simpl. intros [H|[H|[]]]; [tauto|].
      subst. apply Hx. left; reflexivity.
    + apply IH. intros H. apply Hx. right; exact H.
Qed.

Lemma filter_none {A : Type} (p : A -> bool) (l : list A) :
  (forall x, In x l -> p x = false) -> filter p l = [].
Proof.
  induction l as [|x l IH]; simpl; intros H; [reflexivity|].
  rewrite (H x) by (left; reflexivity). apply IH.
  intros y Hy. apply H. right; exact Hy.
Qed.

Lemma started_id_fresh (db : database) (session_id : string) (now : Z) :
  known db (snd (start_new_conversation db session_id now)) = false
  /\ known (fst (start_new_conversation db session_id now))
       (snd (start_new_conversation db session_id now)) = true
  /\ Sqlite.messages (fst (start_new_conversation db session_id now))
     = Sqlite.messages db.
Proof.
  unfold start_new_conversation. cbn [fst snd]. split; [|split].
  - destruct (known db (next_id (map conv_id (conversations db)))) eqn:E;
      [|reflexivity].
    apply known_In in E. exfalso. apply (next_id_fresh _ E).
  - apply known_In. cbn [conversations]. rewrite map_app. apply in_or_app.
    right. left. reflexivity.
  - reflexivity.
Qed.

(** X8.  [start_new_conversation] returns an id that no conversation had
    before and that the new store knows; it keeps the ids distinct, keeps
    every earlier conversation and every message; and in a store where every
    message belongs to a conversation the new conversation has no history. *)
Theorem start_new_conversation_fresh
    (db : database) (session_id : string) (now : Z) :
  let db' := fst (start_new_conversation db session_id now) in
  let id := snd (start_new_conversation db session_id now) in
  known db id = false
  /\ known db' id = true
  /\ (forall other, known db other = true -> known db' other = true)
  /\ (NoDup (map conv_id (conversations db)) ->
      NoDup (map conv_id (conversations db')))
  /\ Sqlite.messages db' = Sqlite.messages db
  /\ (consistent db -> get_conversation_history db' id = []).
Proof.
  cbv zeta. unfold start_new_conversation. cbn [fst snd].
  set (id := next_id (map conv_id (conversations db))).
  assert (Hfresh : known db id = false).
  { destruct (known db id) eqn:E; [|reflexivity].
    apply known_In in E. exfalso. apply (next_id_fresh _ E). }
  split; [exact Hfresh|].
  split.
  { apply known_In. cbn [conversations]. rewrite map_app. apply in_or_app.
    right. left. reflexivity. }
  split.
  { intros other H. apply known_In in H. apply known_In.
    cbn [conversations]. rewrite map_app. apply in_or_app. left; exact H. }
  split.
  { intros Hnd. cbn [conversations]. rewrite map_app. simpl.
    apply NoDup_snoc; [exact Hnd | apply next_id_fresh]. }
  split; [reflexivity|].
  intros Hcons. unfold get_conversation_history. cbn [Sqlite.messages].
  rewrite filter_none; [reflexivity|].
  intros m Hm. apply Z.eqb_neq. intros E.
  specialize (Hcons m Hm). rewrite E in Hcons. congruence.
Qed.

Lemma start_new_conversation_fresh_witness :
  get_conversation_history
    (fst (start_new_conversation Sqlite.empty "session" 5)) 1
  = [].
Proof.
  apply (proj2 (proj2 (proj2 (proj2 (proj2
    (start_new_conversation_fresh Sqlite.empty "session" 5)))))).
  intros m [].
Defined.

Lemma order_by_timestamp_perm (rows : list message_row) :
  Permutation (order_by_timestamp rows) rows.
Proof.
  induction rows as [|m rows IH]; simpl; [constructor|].
  transitivity (m :: order_by_timestamp rows); [|constructor; exact IH].
  clear IH. induction (order_by_timestamp rows) as [|m' l IH]; simpl.
  - apply Permutation_refl.
  - destruct (msg_timestamp m <=? msg_timestamp m')%Z;
      [apply Permutation_refl|].
    transitivity (m' :: m :: l); [constructor; exact IH | apply perm_swap].
Qed.

Definition turn_of_row (m : message_row) : turn :=
  {| turn_role := msg_role m; turn_content := msg_content m;
     turn_timestamp := msg_timestamp m |}.

(** X9.  [add_message] touches one conversation only.  With an id that is
    an SQLite integer it returns, the history of every other conversation
    reads as before, the table of conversations is unchanged, and the history
    of the conversation written to is its earlier history with the new turn
    added (at the place its timestamp gives it).  With an id outside that
    range it raises [OverflowError] and writes nothing. *)
Theorem add_message_isolated
    (db : database) (conversation_id : Z) (role content : string) (now : Z) :
  ((- 2 ^ 63 <= conversation_id < 2 ^ 63)%Z ->
   exists db' : database,
     add_message db conversation_id role content now = Returned db'
     /\ conversations db' = conversations db
     /\ (forall other : Z,
           (- 2 ^ 63 <= other < 2 ^ 63)%Z ->
           other <> conversation_id ->
           get_conversation_history db' other
           = get_conversation_history db other)
     /\ Permutation
          (get_conversation_history db' conversation_id)
          ({| turn_role := role; turn_content := content;
              turn_timestamp := now |}
           :: get_conversation_history db conversation_id))
  /\ ((conversation_id < - 2 ^ 63 \/ 2 ^ 63 <= conversation_id)%Z ->
      add_message db conversation_id role content now = Raised OverflowError).
Proof.
  split; [|apply HistoryFacts.add_message_overflow].
  intros Hid. apply HistoryFacts.int64_inside in Hid.
  unfold add_message, insert_message, foreign_keys. rewrite Hid. cbn [andb].
  eexists. split; [reflexivity|]. split; [reflexivity|]. split.
  - intros other _ Hne. unfold get_conversation_history.
    cbn [Sqlite.messages]. rewrite filter_app. simpl.
    destruct (Z.eqb_spec conversation_id other) as [E|_]; [congruence|].
    rewrite app_nil_r. reflexivity.
  - unfold get_conversation_history. cbn [Sqlite.messages].
    rewrite filter_app. simpl. rewrite Z.eqb_refl.
    set (old := filter _ (Sqlite.messages db)).
    set (new := {| msg_id := next_id (map msg_id (Sqlite.messages db));
                   msg_conversation_id := conversation_id;
                   msg_role := role; msg_content := content;
                   msg_timestamp := now |}).
    change ({| turn_role := role; turn_content := content;
               turn_timestamp := now |}) with (turn_of_row new).
    change (turn_of_row new
            :: map (fun m => {| turn_role := msg_role m;
                                turn_content := msg_content m;
                                turn_timestamp := msg_timestamp m |})
                 (order_by_timestamp old))
      with (map turn_of_row (new :: order_by_timestamp old)).
    apply Permutation_map.
    transitivity (old ++ [new]); [apply order_by_timestamp_perm|].
    transitivity (new :: old).
    + apply Permutation_sym, Permutation_cons_append.
    + constructor. apply Permutation_sym, order_by_timestamp_perm.
Qed.

Lemma add_message_isolated_witness :
  exists db' : database,
    add_message Sqlite.empty 7 "user" "hello" 9 = Returned db'
    /\ conversations db' = conversations Sqlite.empty
    /\ (forall other : Z,
          (- 2 ^ 63 <= other < 2 ^ 63)%Z ->
          other <> 7%Z ->
          get_conversation_history db' other
          = get_conversation_history Sqlite.empty other)
    /\ Permutation
         (get_conversation_history db' 7)
         ({| turn_role := "user"; turn_content := "hello";
             turn_timestamp := 9 |}
          :: get_conversation_history Sqlite.empty 7).
Proof.
  apply (proj1 (add_message_isolated Sqlite.empty 7 "user" "hello" 9)).
  lia.
Defined.

Lemma find_known (db : database) (conversation_id : Z) :
  find (fun c => (conv_id c =? conversation_id)%Z) (conversations db) = None
  <-> known db conversation_id = false.
Proof.
  unfold known. induction (conversations db) as [|c l IH]; simpl; [tauto|].
  destruct (conv_id c =? conversation_id)%Z; simpl; [|exact IH].
  split; discriminate.
Qed.

(** An id outside the SQLite integers cannot be bound to the first query. *)
Lemma metrics_overflow (db : database) (conversation_id : Z) :
  (conversation_id < - 2 ^ 63 \/ 2 ^ 63 <= conversation_id)%Z ->
  get_conversation_metrics db conversation_id = Overflow.
Proof.
  intros H. apply HistoryFacts.int64_outside in H.
  unfold get_conversation_metrics. rewrite H. reflexivity.
Qed.

Lemma sum_from (xs : list Z) (a : Z) :
  fold_left Z.add xs a = (a + sum xs)%Z.
Proof.
  unfold sum. revert a. induction xs as [|x xs IH]; intros a; simpl; [lia|].
  rewrite (IH (a + x)%Z), (IH x). lia.
Qed.

Lemma sum_cons (x : Z) (xs : list Z) : sum (x :: xs) = (x + sum xs)%Z.
Proof. unfold sum at 1. simpl. apply sum_from. Qed.

Lemma role_counts (rows : list message_row) :
  (0 <= sum (map (role_is "user") rows))%Z
  /\ (0 <= sum (map (role_is "assistant") rows))%Z
  /\ (sum (map (role_is "user") rows) + sum (map (role_is "assistant") rows)
      <= Z.of_nat (List.length rows))%Z.
Proof.
  induction rows as [|m rows IH]; [cbv; repeat split; discriminate|].
  cbn [map List.length]. rewrite !sum_cons, Nat2Z.inj_succ.
  assert (H : (0 <= role_is "user" m)%Z /\ (0 <= role_is "assistant" m)%Z
              /\ (role_is "user" m + role_is "assistant" m <= 1)%Z).
  { unfold role_is.
    destruct (String.eqb_spec (msg_role m) "user") as [E|_].
    - rewrite E. simpl. lia.
    - destruct (String.eqb (msg_role m) "assistant"); lia. }
  lia.
Qed.

Lemma min_max_bounds (x : Z) (rest : list Z) :
  forall t, In t (x :: rest) ->
    (fold_right Z.min x rest <= t <= fold_right Z.max x rest)%Z.
Proof.
  induction rest as [|y rest IH]; simpl.
  - intros t [<-|[]]. lia.
  - intros t [<-|[<-|H]].
    + specialize (IH x (or_introl eq_refl)). lia.
    + lia.
    + specialize (IH t (or_intror H)). lia.
Qed.

Lemma history_timestamps (db : database) (conversation_id : Z) (t : turn) :
  In t (get_conversation_history db conversation_id) ->
  In (turn_timestamp t) (map msg_timestamp (rows_of db conversation_id)).
Proof.
  unfold get_conversation_history. intros H.
  apply in_map_iff in H. destruct H as [m [<- Hm]].
  apply (Permutation_in _ (order_by_timestamp_perm _)) in Hm.
  cbn [turn_timestamp]. apply (in_map msg_timestamp). exact Hm.
Qed.

(** X11.  What [get_conversation_metrics] returns agrees with the history of
    the conversation: the total is the number of turns; for a conversation
    without turns the two role counts and the two times are [None], not 0;
    otherwise both role counts are numbers that are not negative and sum to
    at most the total, and every turn's timestamp lies between the start and
    the end time. *)
Theorem metrics_agree_with_history
    (db : database) (conversation_id : Z) (m : metrics) :
  get_conversation_metrics db conversation_id = Ok m ->
  total_messages m
  = Z.of_nat (List.length (get_conversation_history db conversation_id))
  /\ (get_conversation_history db conversation_id = [] ->
      user_messages m = None /\ assistant_messages m = None
      /\ start_time m = None /\ end_time m = None)
  /\ (get_conversation_history db conversation_id <> [] ->
      exists u a s e : Z,
        user_messages m = Some u /\ assistant_messages m = Some a
        /\ start_time m = Some s /\ end_time m = Some e
        /\ (0 <= u)%Z /\ (0 <= a)%Z /\ (u + a <= total_messages m)%Z
        /\ forall t, In t (get_conversation_history db conversation_id) ->
             (s <= turn_timestamp t <= e)%Z).
Proof.
  unfold get_conversation_metrics.
  destruct (int64 conversation_id); [|discriminate].
  destruct (find _ (conversations db)) as [c|]; [|discriminate].
  intros H. inversion H; subst; clear H. cbn.
  pose proof (history_length db conversation_id) as Hlen.
  pose proof (history_timestamps db conversation_id) as Hts.
  split; [rewrite Hlen; reflexivity|].
  destruct (rows_of db conversation_id) as [|r rows] eqn:R.
  - split; [intros _; repeat split; reflexivity|].
    intros Hne. exfalso. apply Hne.
    destruct (get_conversation_history db conversation_id);
      [reflexivity | discriminate Hlen].
  - split.
    + intros Hnil. rewrite Hnil in Hlen. discriminate Hlen.
    + intros _. destruct (role_counts (r :: rows)) as [Hu [Ha Hsum]].
      eexists. eexists. eexists. eexists.
      split; [reflexivity|]. split; [reflexivity|].
      split; [reflexivity|]. split; [reflexivity|].
      split; [exact Hu|]. split; [exact Ha|]. split; [exact Hsum|].
      intros t Ht. apply Hts in Ht.
      apply (min_max_bounds (msg_timestamp r) (map msg_timestamp rows)).
      exact Ht.
Qed.

Definition two_turns : database :=
  {| conversations := conversations
       (fst (start_new_conversation Sqlite.empty "session" 5));
     messages :=
       [ {| msg_id := 1; msg_conversation_id := 1; msg_role := "user";
            msg_content := "hello"; msg_timestamp := 6 |};
         {| msg_id := 2; msg_conversation_id := 1; msg_role := "assistant";
            msg_content := "hi"; msg_timestamp := 8 |} ] |}.

Lemma metrics_agree_with_history_witness :
  total_messages
    {| total_messages := 2; user_messages := Some 1%Z;
       assistant_messages := Some 1%Z; start_time := Some 6%Z;
       end_time := Some 8%Z; sentiment := None; topics := [] |}
  = Z.of_nat (List.length (get_conversation_history two_turns 1)).
Proof.
  apply (metrics_agree_with_history two_turns 1).
  reflexivity.
Defined.

Definition analyzed (sentiment : float) (topics : list string)
    (conversation_id : Z) (c : conversation_row) : conversation_row :=
  if (conv_id c =? conversation_id)%Z
  then {| conv_id := conv_id c; conv_session_id := conv_session_id c;
          conv_timestamp := conv_timestamp c;
          conv_sentiment := stored_real sentiment;
          conv_topics := Some topics |}
  else c.

Lemma find_analyzed (sentiment : float) (topics : list string)
    (conversation_id other : Z) (l : list conversation_row) :
  find (fun c => (conv_id c =? other)%Z)
       (map (analyzed sentiment topics conversation_id) l)
  = option_map (analyzed sentiment topics conversation_id)
      (find (fun c => (conv_id c =? other)%Z) l).
Proof.
  induction l as [|c l IH]; simpl; [reflexivity|].
  assert (E : conv_id (analyzed sentiment topics conversation_id c)
              = conv_id c).
  { unfold analyzed. destruct (conv_id c =? conversation_id)%Z; reflexivity. }
  rewrite E. destruct (conv_id c =? other)%Z; [reflexivity | exact IH].
Qed.

(** What is read back for a sentiment that is neither a NaN nor the negative
    zero is the sentiment itself. *)
Lemma stored_real_exact (x : float) :
  PrimFloat.classify x <> NaN -> PrimFloat.classify x <> NZero ->
  stored_real x = Some x.
Proof.
  unfold stored_real. destruct (PrimFloat.classify x); congruence.
Qed.

(** X12.  What [update_conversation_analysis] writes is what
    [get_conversation_metrics] reads back.  After the update of a
    conversation of the store (its id an SQLite integer) its metrics carry
    the topics given and the sentiment as the column stores it: the
    sentiment itself, except that a NaN is read back as [None] and the
    negative zero as [0.0].  The metrics are otherwise as before; the metrics
    of every other conversation and all the messages are untouched; and doing
    the same update again changes nothing. *)
Theorem analysis_written_is_read
    (db : database) (conversation_id : Z) (sentiment : float)
    (topics : list string) :
  (- 2 ^ 63 <= conversation_id < 2 ^ 63)%Z ->
  known db conversation_id = true ->
  exists (db' : database) (m m' : metrics),
    update_conversation_analysis db conversation_id sentiment topics
    = Returned db'
    /\ get_conversation_metrics db conversation_id = Ok m
    /\ get_conversation_metrics db' conversation_id = Ok m'
    /\ (PrimFloat.classify sentiment <> NaN ->
        PrimFloat.classify sentiment <> NZero ->
        Reports.sentiment m' = Some sentiment)
    /\ (PrimFloat.classify sentiment = NaN -> Reports.sentiment m' = None)
    /\ (PrimFloat.classify sentiment = NZero ->
        Reports.sentiment m' = Some 0%float)
    /\ Reports.topics m' = topics
    /\ total_messages m' = total_messages m
    /\ user_messages m' = user_messages m
    /\ assistant_messages m' = assistant_messages m
    /\ start_time m' = start_time m
    /\ end_time m' = end_time m
    /\ Sqlite.messages db' = Sqlite.messages db
    /\ (forall other : Z,
          other <> conversation_id ->
          get_conversation_metrics db' other
          = get_conversation_metrics db other)
    /\ update_conversation_analysis db' conversation_id sentiment topics
       = Returned db'.
Proof.
  intros Hint Hknown. apply HistoryFacts.int64_inside in Hint.
  assert (Hfind : exists c,
             find (fun c => (conv_id c =? conversation_id)%Z)
                  (conversations db) = Some c).
  { destruct (find _ (conversations db)) as [c|] eqn:E; [eauto|].
    apply find_known in E. congruence. }
  destruct Hfind as [c Hc].
  assert (Hid : (conv_id c =? conversation_id)%Z = true).
  { apply find_some in Hc. tauto. }
  unfold update_conversation_analysis. rewrite Hint.
  fold (analyzed sentiment topics conversation_id).
  eexists. eexists. eexists.
  split; [reflexivity|].
  unfold get_conversation_metrics, rows_of. rewrite Hint.
  cbn [conversations Sqlite.messages].
  rewrite find_analyzed, Hc. cbn [option_map]. unfold analyzed at 1 2.
  rewrite Hid.
  cbn [Reports.sentiment Reports.topics total_messages user_messages
       assistant_messages start_time end_time conv_sentiment conv_topics].
  split; [reflexivity|]. split; [reflexivity|].
  split; [apply stored_real_exact|].
  split; [intros E; unfold stored_real; rewrite E; reflexivity|].
  split; [intros E; unfold stored_real; rewrite E; reflexivity|].
  repeat (split; [reflexivity|]).
  split.
  - intros other Hne. destruct (int64 other); [|reflexivity].
    rewrite find_analyzed.
    destruct (find (fun c0 => (conv_id c0 =? other)%Z) (conversations db))
      as [c'|] eqn:E; [|reflexivity].
    cbn [option_map]. unfold analyzed.
    destruct (Z.eqb_spec (conv_id c') conversation_id) as [E'|_];
      [|reflexivity].
    apply find_some in E. destruct E as [_ E]. apply Z.eqb_eq in E.
    congruence.
  - f_equal. f_equal. rewrite map_map. apply map_ext. intros x.
    unfold analyzed.
    destruct (conv_id x =? conversation_id)%Z eqn:Ex; cbn [conv_id];
      rewrite Ex; reflexivity.
Qed.

Lemma analysis_written_is_read_witness :
  exists (db' : database) (m' : metrics),
    update_conversation_analysis two_turns 1 0.5%float ["happy"]
    = Returned db'
    /\ get_conversation_metrics db' 1 = Ok m'
    /\ Reports.sentiment m' = Some 0.5%float
    /\ Reports.topics m' = ["happy"].
Proof.
  destruct (analysis_written_is_read two_turns 1 0.5%float ["happy"])
    as [db' [m [m' [E [_ [E' [Hs [_ [_ [Ht _]]]]]]]]]].
  - lia.
  - reflexivity.
  - exists db', m'. repeat split; try assumption.
    apply Hs; vm_compute; discriminate.
Defined.

Definition newer (a b : conversation_row) : Prop :=
  (conv_timestamp b <= conv_timestamp a)%Z.

Lemma insert_by_recency_In (c x : conversation_row)
    (l : list conversation_row) :
  In x (insert_by_recency c l) <-> x = c \/ In x l.
Proof.
  induction l as [|c' l IH]; simpl.
  - intuition.
  - destruct (conv_timestamp c' <=? conv_timestamp c)%Z; simpl; [intuition|].
    rewrite IH. intuition.
Qed.

Lemma order_by_recency_In (x : conversation_row) (l : list conversation_row) :
  In x (order_by_recency l) <-> In x l.
Proof.
  induction l as [|c l IH]; simpl; [tauto|].
  rewrite insert_by_recency_In, IH. intuition.
Qed.

Lemma order_by_recency_length (l : list conversation_row) :
  List.length (order_by_recency l) = List.length l.
Proof.
  induction l as [|c l IH]; simpl; [reflexivity|]. rewrite <- IH. clear IH.
  induction (order_by_recency l) as [|c' l' IH']; simpl; [reflexivity|].
  destruct (conv_timestamp c' <=? conv_timestamp c)%Z; simpl;
    [reflexivity | rewrite IH'; reflexivity].
Qed.

Lemma insert_by_recency_sorted (c : conversation_row)
    (l : list conversation_row) :
  StronglySorted newer l -> StronglySorted newer (insert_by_recency c l).
Proof.
  induction 1 as [|c' l Hs IH Hall]; simpl.
  - repeat constructor.
  - rewrite Forall_forall in Hall.
    destruct (Z.leb_spec (conv_timestamp c') (conv_timestamp c)) as [Hle|Hgt].
    + constructor;
        [constructor; [assumption | rewrite Forall_forall; assumption]|].
      rewrite Forall_forall. intros x [<-|Hx]; [exact Hle|].
      unfold newer in *. specialize (Hall x Hx). lia.
    + constructor; [assumption|].
      rewrite Forall_forall. intros x Hx.
      apply insert_by_recency_In in Hx. destruct Hx as [->|Hx].
      * unfold newer. lia.
      * apply Hall, Hx.
Qed.

Lemma order_by_recency_sorted (l : list conversation_row) :
  StronglySorted newer (order_by_recency l).
Proof.
  induction l as [|c l IH]; simpl; [constructor|].
  apply insert_by_recency_sorted, IH.
Qed.

Lemma sql_limit_In {A : Type} (limit : Z) (rows : list A) (x : A) :
  In x (sql_limit limit rows) -> In x rows.
Proof.
  unfold sql_limit. destruct (limit <? 0)%Z; [tauto|].
  intros H. rewrite <- (firstn_skipn (Z.to_nat limit) rows).
  apply in_or_app. left; exact H.
Qed.

Lemma sql_limit_sorted {A : Type} (R : A -> A -> Prop) (limit : Z)
    (rows : list A) :
  StronglySorted R rows -> StronglySorted R (sql_limit limit rows).
Proof.
  unfold sql_limit. destruct (limit <? 0)%Z; [tauto|]. intros H.
  rewrite <- (firstn_skipn (Z.to_nat limit) rows) in H.
  apply Lists.StronglySorted_app_cross in H. tauto.
Qed.

(** X13.  [get_recent_conversations] lists conversations of the store,
    newest first.  With a limit that is an SQLite integer it returns the
    frame: [min limit n] rows of the [n] conversations when the limit is not
    negative, all of them when it is; each row carries as its message count
    the number of turns in the history of its conversation (0 for a
    conversation without messages, which is listed too); and when the limit
    does not cut, every conversation of the store is listed.  With a limit
    outside that range the call raises and returns no frame. *)
Theorem recent_conversations_listed (db : database) (limit : Z) :
  ((- 2 ^ 63 <= limit < 2 ^ 63)%Z ->
   exists rows : list summary,
     get_recent_conversations db limit = Some rows
     /\ List.length rows
        = (if (limit <? 0)%Z then List.length (conversations db)
           else Nat.min (Z.to_nat limit) (List.length (conversations db)))
     /\ StronglySorted (fun a b => (sum_timestamp b <= sum_timestamp a)%Z)
          rows
     /\ (forall r : summary,
           In r rows ->
           known db (sum_id r) = true
           /\ message_count r
              = Z.of_nat
                  (List.length (get_conversation_history db (sum_id r))))
     /\ ((limit < 0)%Z
         \/ (Z.of_nat (List.length (conversations db)) <= limit)%Z ->
         forall conversation_id : Z,
           known db conversation_id = true ->
           exists r : summary, In r rows /\ sum_id r = conversation_id))
  /\ ((limit < - 2 ^ 63 \/ 2 ^ 63 <= limit)%Z ->
      get_recent_conversations db limit = None).
Proof.
  unfold get_recent_conversations.
  split; [|intros H; apply HistoryFacts.int64_outside in H; rewrite H;
           reflexivity].
  intros H. apply HistoryFacts.int64_inside in H. rewrite H.
  eexists. split; [reflexivity|].
  split; [|split; [|split]].
  - unfold sql_limit. destruct (limit <? 0)%Z.
    + rewrite length_map, order_by_recency_length. reflexivity.
    + rewrite length_firstn, length_map, order_by_recency_length.
      reflexivity.
  - apply sql_limit_sorted.
    apply (Lists.StronglySorted_map_inv (summary_of db)
             (fun a b => (sum_timestamp b <= sum_timestamp a)%Z)).
    exact (order_by_recency_sorted (conversations db)).
  - intros r Hr. apply sql_limit_In in Hr.
    apply in_map_iff in Hr. destruct Hr as [c [<- Hc]].
    apply (proj1 (order_by_recency_In c _)) in Hc. split.
    + apply known_In. cbn [sum_id summary_of]. apply in_map. exact Hc.
    + cbn [sum_id message_count summary_of]. rewrite history_length.
      reflexivity.
  - intros Hlimit conversation_id Hknown.
    apply known_In in Hknown. apply in_map_iff in Hknown.
    destruct Hknown as [c [E Hc]].
    exists (summary_of db c). split; [|exact E].
    assert (Hall : sql_limit limit
                     (map (summary_of db)
                        (order_by_recency (conversations db)))
                   = map (summary_of db)
                       (order_by_recency (conversations db))).
    { unfold sql_limit. destruct (Z.ltb_spec limit 0); [reflexivity|].
      apply firstn_all2.
      rewrite length_map, order_by_recency_length. lia. }
    rewrite Hall. apply in_map.
    apply (proj2 (order_by_recency_In c _)). exact Hc.
Qed.

Lemma recent_conversations_listed_witness :
  exists rows : list summary,
    get_recent_conversations two_turns 10 = Some rows
    /\ List.length rows = 1
    /\ (forall r : summary,
          In r rows ->
          known two_turns (sum_id r) = true
          /\ message_count r
             = Z.of_nat
                 (List.length (get_conversation_history two_turns (sum_id r)))).
Proof.
  destruct (proj1 (recent_conversations_listed two_turns 10))
    as [rows [E [Hlen [_ [Hrows _]]]]]; [lia|].
  exists rows. split; [exact E|]. split; [exact Hlen | exact Hrows].
Defined.

End ReportFacts.

(** ** The life of a session ([total-final.py]: [setup_session_state], the
    "New Conversation" button of [run], and what follows a submitted
    message) *)

Module Session.
Import Py Sqlite Chat.

(** [st.session_state] as [setup_session_state] finds it: a key is present
    or not. *)
Record session_state : Type := {
  key_messages : option (list message);
  key_model_ready : option bool;
  key_current_response : option string;
  key_conversation_id : option Z;
  key_page : option string;
  key_stop_generation : option bool
}.

Definition default {A : Type} (key : option A) (value : A) : option A :=
  match key with
  | Some v => Some v
  | None => Some value
  end.

(** [setup_session_state]: each missing key gets its initial value; a
    conversation is started, under the fresh [uuid], only when the key
    [conversation_id] is missing. *)
Definition setup_session_state (uuid : string) (now : Z)
    (ss : session_state) (db : database) : session_state * database :=
  let started :=
    match key_conversation_id ss with
    | Some id => (db, id)
    | None => History.start_new_conversation db uuid now
    end in
  ({| key_messages := default (key_messages ss) [];
      key_model_ready := default (key_model_ready ss) false;
      key_current_response := default (key_current_response ss) "";
      key_conversation_id := Some (snd started);
      key_page := default (key_page ss) "chat";
      key_stop_generation := default (key_stop_generation ss) false |},
   fst started).

(** The button "New Conversation" of [run]. *)
Definition new_conversation (uuid : string) (now : Z) (st : session)
    (db : database) : session * database :=
  let started := History.start_new_conversation db uuid now in
  ({| Chat.messages := []; model_ready := model_ready st;
      conversation_id := snd started |},
   fst started).

End Session.

Module SessionFacts.
Import Py Sqlite Chat ChatFacts Session.

(** X14.  [setup_session_state] is safe to run on every rerun of the page:
    after it every key is present; each of the six keys that was present
    keeps its value and each missing one gets its initial value (no
    messages, model not ready, empty response, page "chat", no stop, and the
    id of a conversation started for it); and a second run, with any other
    uuid and clock, changes neither the session state nor the store; in
    particular a conversation is started at most once, and none when the
    session already has one. *)
Theorem setup_session_state_once
    (uuid uuid' : string) (now now' : Z) (ss : session_state)
    (db : database) :
  let ss1 := fst (setup_session_state uuid now ss db) in
  let db1 := snd (setup_session_state uuid now ss db) in
  setup_session_state uuid' now' ss1 db1 = (ss1, db1)
  /\ (exists m r c i p g,
        ss1 = {| key_messages := Some m; key_model_ready := Some r;
                 key_current_response := Some c;
                 key_conversation_id := Some i; key_page := Some p;
                 key_stop_generation := Some g |})
  /\ (forall m, key_messages ss = Some m -> key_messages ss1 = Some m)
  /\ (forall r, key_model_ready ss = Some r -> key_model_ready ss1 = Some r)
  /\ (forall c, key_current_response ss = Some c ->
        key_current_response ss1 = Some c)
  /\ (forall p, key_page ss = Some p -> key_page ss1 = Some p)
  /\ (forall g, key_stop_generation ss = Some g ->
        key_stop_generation ss1 = Some g)
  /\ (key_messages ss = None -> key_messages ss1 = Some [])
  /\ (key_model_ready ss = None -> key_model_ready ss1 = Some false)
  /\ (key_current_response ss = None -> key_current_response ss1 = Some "")
  /\ (key_page ss = None -> key_page ss1 = Some "chat")
  /\ (key_stop_generation ss = None -> key_stop_generation ss1 = Some false)
  /\ (forall i, key_conversation_id ss = Some i ->
        key_conversation_id ss1 = Some i /\ db1 = db)
  /\ (key_conversation_id ss = None ->
      exists i,
        key_conversation_id ss1 = Some i
        /\ known db i = false /\ known db1 i = true
        /\ Sqlite.messages db1 = Sqlite.messages db).
Proof.
  cbv zeta. destruct ss as [m r c i p g]. unfold setup_session_state.
  cbn [key_messages key_model_ready key_current_response key_conversation_id
       key_page key_stop_generation fst snd].
  split.
  { destruct m, r, c, p, g; reflexivity. }
  split.
  { destruct m, r, c, p, g; repeat eexists. }
  do 4 (split; [intros x ->; reflexivity|]).
  split; [intros x ->; reflexivity|].
  do 5 (split; [intros ->; reflexivity|]).
  split.
  { intros i0 ->. split; reflexivity. }
  intros ->. eexists. split; [reflexivity|].
  destruct (ReportFacts.started_id_fresh db uuid now) as [H1 [H2 H3]].
  split; [exact H1|]. split; [exact H2 | exact H3].
Qed.

Definition no_key : session_state :=
  {| key_messages := None; key_model_ready := None;
     key_current_response := None; key_conversation_id := None;
     key_page := None; key_stop_generation := None |}.

Lemma setup_session_state_once_witness :
  exists i : Z,
    key_conversation_id
      (fst (setup_session_state "uuid" 5 no_key Sqlite.empty)) = Some i
    /\ known Sqlite.empty i = false
    /\ known (snd (setup_session_state "uuid" 5 no_key Sqlite.empty)) i = true
    /\ Sqlite.messages (snd (setup_session_state "uuid" 5 no_key Sqlite.empty))
       = Sqlite.messages Sqlite.empty.
Proof.
  destruct (setup_session_state_once "uuid" "other" 5 6 no_key Sqlite.empty)
    as [_ [_ [_ [_ [_ [_ [_ [_ [_ [_ [_ [_ [_ H]]]]]]]]]]]]].
  apply H. reflexivity.
Defined.

Lemma read_lines_last_shown (stop_button : bool) (stop_flag : nat -> bool)
    (body : list pull) :
  forall (i : nat) (accumulated shown : list string),
    last shown "" = join "" accumulated ->
    ended (read_lines stop_button stop_flag i body accumulated shown)
    <> Failed ->
    reply (read_lines stop_button stop_flag i body accumulated shown)
    = last (Chat.shown
              (read_lines stop_button stop_flag i body accumulated shown)) "".
Proof.
  induction body as [|p body IH]; intros i accumulated shown Hinv Hok;
    cbn [read_lines] in *.
  - cbn. symmetry. exact Hinv.
  - destruct p as [l|text]; [|cbn in Hok; congruence].
    destruct (stop_button || stop_flag i).
    + cbn. symmetry. exact Hinv.
    + destruct l as [|token|text].
      * apply IH; assumption.
      * apply IH; [apply last_last | exact Hok].
      * cbn in Hok. congruence.
Qed.

(** X15.  Unless it ends on an exception, [stream_response] returns exactly
    the text it displayed last: the reply is the last partial text written
    to the page, and the empty text when nothing was written (no fragment
    was read before the end or the cancellation). *)
Theorem reply_is_last_shown
    (stop_button : bool) (stop_flag : nat -> bool) (outcome : post_outcome) :
  ended (stream_response stop_button stop_flag outcome) <> Failed ->
  reply (stream_response stop_button stop_flag outcome)
  = last (shown (stream_response stop_button stop_flag outcome)) "".
Proof.
  destruct outcome as [text|body]; cbn [stream_response].
  - intros H. cbn in H. congruence.
  - apply read_lines_last_shown. reflexivity.
Qed.

Lemma reply_is_last_shown_witness :
  reply (stream_response false (fun _ => false)
           (Opened [ Line (Fragment (Some "I'm")); Line Blank;
                     Line (Fragment (Some " glad")) ]))
  = last (shown (stream_response false (fun _ => false)
                   (Opened [ Line (Fragment (Some "I'm")); Line Blank;
                             Line (Fragment (Some " glad")) ]))) "".
Proof.
  apply (reply_is_last_shown false (fun _ => false)).
  discriminate.
Defined.

(** The page run of a submitted message, with the rows it writes. *)
Lemma display_chat_page_rows (inp : inputs) (text : string) (st : session)
    (db : database) :
  ollama_up inp = true -> user_input inp = Some text -> text <> "" ->
  exists (id_user id_reply : Z),
    display_chat_page inp st db
    = Returned
        ({| Chat.messages :=
              Chat.messages st
              ++ [ {| role := "user"; content := text;
                      timestamp := clock_label inp |};
                   {| role := "assistant";
                      content :=
                        reply (stream_response (stop_button inp)
                                 (stop_flag inp) (outcome inp));
                      timestamp := clock_label inp |} ];
            model_ready := true;
            conversation_id := conversation_id st |},
         {| conversations := conversations db;
            Sqlite.messages :=
              Sqlite.messages db
              ++ [ {| msg_id := id_user;
                      msg_conversation_id := conversation_id st;
                      msg_role := "user"; msg_content := text;
                      msg_timestamp := fst (saved_at inp) |};
                   {| msg_id := id_reply;
                      msg_conversation_id := conversation_id st;
                      msg_role := "assistant";
                      msg_content :=
                        reply (stream_response (stop_button inp)
                                 (stop_flag inp) (outcome inp));
                      msg_timestamp := snd (saved_at inp) |} ] |}).
Proof.
  intros Hup Hin Hne. unfold display_chat_page. rewrite Hup, Hin.
  destruct text as [|c text]; [congruence|]. cbn [negb].
  unfold submit, save_message, insert_message, foreign_keys.
  cbn [andb bind Chat.messages model_ready conversation_id conversations
       Sqlite.messages].
  eexists. eexists. rewrite <- !app_assoc. reflexivity.
Qed.

(** X16.  Turns submitted after "New Conversation" go to the new
    conversation only.  In a store where every message belongs to a
    conversation, after the button and one submitted message (the database
    clock not going back between the two insertions) the buffer holds the
    two new turns, the history of the new conversation is the user turn
    followed by the assistant turn, and the history of every other
    conversation reads as before the button. *)
Theorem new_conversation_then_submit
    (uuid : string) (now : Z) (inp : inputs) (text : string) (st : session)
    (db : database) :
  Reports.consistent db ->
  ollama_up inp = true -> user_input inp = Some text -> text <> "" ->
  (fst (saved_at inp) <= snd (saved_at inp))%Z ->
  exists (st' : session) (db' : database),
    display_chat_page inp (fst (new_conversation uuid now st db))
      (snd (new_conversation uuid now st db))
    = Returned (st', db')
    /\ known db (conversation_id st') = false
    /\ map content (Chat.messages st')
       = [ text;
           reply (stream_response (stop_button inp) (stop_flag inp)
                    (outcome inp)) ]
    /\ map (fun t => (History.turn_role t, History.turn_content t))
           (History.get_conversation_history db' (conversation_id st'))
       = [ ("user", text);
           ("assistant",
            reply (stream_response (stop_button inp) (stop_flag inp)
                     (outcome inp))) ]
    /\ (forall other : Z,
          other <> conversation_id st' ->
          History.get_conversation_history db' other
          = History.get_conversation_history db other).
Proof.
  intros Hcons Hup Hin Hne Hclock.
  destruct (ReportFacts.started_id_fresh db uuid now) as [Hfresh [_ Hmsgs]].
  destruct (display_chat_page_rows inp text
              (fst (new_conversation uuid now st db))
              (snd (new_conversation uuid now st db)) Hup Hin Hne)
    as [iu [ir E]].
  eexists. eexists. split; [exact E|].
  unfold new_conversation in *. cbn [fst snd Chat.messages conversation_id] in *.
  set (id := snd (History.start_new_conversation db uuid now)) in *.
  assert (Hnone : filter (fun m => (msg_conversation_id m =? id)%Z)
                    (Sqlite.messages db) = []).
  { apply ReportFacts.filter_none. intros m Hm. apply Z.eqb_neq. intros Eid.
    specialize (Hcons m Hm). rewrite Eid in Hcons. congruence. }
  split; [exact Hfresh|]. split; [reflexivity|]. split.
  - unfold History.get_conversation_history. cbn [Sqlite.messages].
    rewrite Hmsgs, filter_app, Hnone. cbn [app filter msg_conversation_id].
    rewrite Z.eqb_refl.
    cbn [order_by_timestamp fold_right insert_by_timestamp msg_timestamp].
    destruct (Z.leb_spec (fst (saved_at inp)) (snd (saved_at inp)));
      [reflexivity | lia].
  - intros other Hother. unfold History.get_conversation_history.
    cbn [Sqlite.messages]. rewrite Hmsgs, filter_app.
    cbn [filter msg_conversation_id].
    destruct (Z.eqb_spec id other) as [Eo|_]; [congruence|].
    rewrite app_nil_r. reflexivity.
Qed.

Lemma new_conversation_then_submit_witness :
  exists (st' : session) (db' : database),
    display_chat_page refused_run
      (fst (new_conversation "uuid" 99 fresh_session one_conversation))
      (snd (new_conversation "uuid" 99 fresh_session one_conversation))
    = Returned (st', db')
    /\ map (fun t => (History.turn_role t, History.turn_content t))
           (History.get_conversation_history db' (conversation_id st'))
       = [ ("user", "hello"); ("assistant", "Error: Connection refused") ].
Proof.
  destruct (new_conversation_then_submit "uuid" 99 refused_run "hello"
              fresh_session one_conversation)
    as [st' [db' [E [_ [_ [H _]]]]]].
  - intros m [].
  - reflexivity.
  - reflexivity.
  - discriminate.
  - simpl. lia.
  - exists st', db'. split; [exact E | exact H].
Defined.

Lemma user_messages_app (l1 l2 : list message) :
  TotalFinal.user_messages (l1 ++ l2)
  = TotalFinal.user_messages l1 ++ TotalFinal.user_messages l2.
Proof.
  unfold TotalFinal.user_messages. rewrite filter_app, map_app. reflexivity.
Qed.

(** X17.  After every submitted message the analysis has data: on the
    buffer left by the page run [analyze_conversation] returns a bundle
    whose total is the earlier number of turns plus 2 and whose count of
    user messages is the earlier count plus 1, whatever the backend did
    (answer, cancellation or error text). *)
Theorem analysis_after_submit
    (analyze_sentiment : string -> float) (inp : inputs) (text : string)
    (st : session) (db : database) :
  ollama_up inp = true -> user_input inp = Some text -> text <> "" ->
  exists (st' : session) (db' : database) (a : TotalFinal.analysis),
    display_chat_page inp st db = Returned (st', db')
    /\ TotalFinal.analyze_conversation analyze_sentiment (Chat.messages st')
       = Returned (Some a)
    /\ TotalFinal.total_messages a
       = (Z.of_nat (List.length (Chat.messages st)) + 2)%Z
    /\ TotalFinal.user_message_count a
       = (Z.of_nat (List.length (TotalFinal.user_messages (Chat.messages st)))
          + 1)%Z.
Proof.
  intros Hup Hin Hne.
  destruct (display_chat_page_rows inp text st db Hup Hin Hne)
    as [iu [ir E]].
  eexists. eexists. eexists. split; [exact E|].
  cbn [Chat.messages].
  split.
  - apply AnalysisFacts.total_final_unfold.
    destruct (Chat.messages st); discriminate.
  - cbv zeta. cbn [TotalFinal.total_messages TotalFinal.user_message_count].
    rewrite user_messages_app, !length_app. cbn. split; lia.
Qed.

Lemma analysis_after_submit_witness :
  exists (st' : session) (db' : database) (a : TotalFinal.analysis),
    display_chat_page cancelled_run fresh_session one_conversation
    = Returned (st', db')
    /\ TotalFinal.analyze_conversation (fun _ => 0.5%float)
         (Chat.messages st')
       = Returned (Some a)
    /\ TotalFinal.total_messages a = 2%Z
    /\ TotalFinal.user_message_count a = 1%Z.
Proof.
  apply (analysis_after_submit (fun _ => 0.5%float) cancelled_run
           "I feel great today" fresh_session one_conversation).
  - reflexivity.
  - reflexivity.
  - discriminate.
Defined.

End SessionFacts.
